(** * nutri-rag: a shallow embedding of the RAG pipeline

    The development follows the three Python files of the repository:

    - [IndexDocs]  src/index_docs.py  (offline ingestion: extract, chunk,
                                       embed, bulk insert)
    - [RagQuery]   src/rag_query.py   (command-line chatbot)
    - [App]        app.py             (Streamlit chatbot with fallback)

    Python values are modelled as the code has them: [str] as [string]
    (the UTF-8 bytes of the text), lists as [list], the numbers that the
    code compares and passes around as binary64 [float]s, the metadata
    dict as a [gmap].  Calls that leave the process (embedding model,
    Supabase RPC, Gemini, HTTP POST, PDF reader) are oracles held in an
    environment record; each call is appended to a trace together with
    its outcome, and exceptions are values of [Outcome].  The [logging]
    calls only write to the log and are left out. *)

From Stdlib Require Import ZArith Floats.PrimFloat Floats.SpecFloat Floats.FloatOps.
From Stdlib Require Import Sorting.Sorted.
From stdpp Require Import gmap strings list pretty.

Set Warnings "-inexact-float".

(** ** Python-level vocabulary shared by the three files *)

Module Py.

(** The exception classes the code distinguishes.  [Exception] stands
    for any other subclass of Python's [Exception]. *)
Inductive exn : Type :=
| HTTPError (status_code : nat)
| RequestException
| Exception (msg : string).

Inductive Outcome (A : Type) : Type :=
| Return (a : A)
| Raise (e : exn).
Arguments Return {A} a.
Arguments Raise {A} e.

(** A computation reads and extends the trace [list E] of external
    calls made so far and either returns or raises. *)
Definition M (E A : Type) : Type := list E → Outcome A * list E.

Definition ret {E A} (a : A) : M E A := λ t, (Return a, t).

Definition raise {E A} (e : exn) : M E A := λ t, (Raise e, t).

Definition bind {E A B} (m : M E A) (k : A → M E B) : M E B :=
  λ t, match m t with
       | (Return a, t') => k a t'
       | (Raise e, t') => (Raise e, t')
       end.

(** [try: body / except Exception as e: handler e]. *)
Definition try_except {E A} (body : M E A) (handler : exn → M E A) : M E A :=
  λ t, match body t with
       | (Return a, t') => (Return a, t')
       | (Raise e, t') => handler e t'
       end.

(** One external call: the oracle's answer [res] is logged as [ev res]. *)
Definition call {E A} (ev : Outcome A → E) (res : Outcome A) : M E A :=
  λ t, (res, t ++ [ev res]).

(** Running a computation from an empty trace. *)
Definition run {E A} (m : M E A) : Outcome A * list E := m [].

#[global] Instance M_ret {E} : MRet (M E) := λ A, @ret E A.
#[global] Instance M_bind {E} : MBind (M E) := λ A B k m, @bind E A B m k.

(** *** Strings *)

Definition nl : string := String (Ascii.ascii_of_nat 10) "".

(** [str.lower] on the bytes of the text: the letters A-Z are mapped to
    a-z and every other byte is kept.  Python lower-cases by code point;
    outside ASCII only U+0130 (to "i" followed by U+0307) and U+212A (to
    "k") give an ASCII letter.  The keywords searched in this program
    have no "k", and their "i" is followed by "a", so a search for one of
    them in the lower-cased bytes finds what Python finds. *)
Definition lower_ascii (c : Ascii.ascii) : Ascii.ascii :=
  let n := Ascii.nat_of_ascii c in
  if (65 <=? n)%nat && (n <=? 90)%nat then Ascii.ascii_of_nat (n + 32) else c.

Fixpoint lower (s : string) : string :=
  match s with
  | EmptyString => EmptyString
  | String c s' => String (lower_ascii c) (lower s')
  end.

(** [s.startswith(p)] *)
Fixpoint startswith (p s : string) : bool :=
  match p, s with
  | EmptyString, _ => true
  | String a p', String b s' => if Ascii.eqb a b then startswith p' s' else false
  | String _ _, EmptyString => false
  end.

(** [needle in hay] for two strings: [needle] occurs as a substring. *)
Fixpoint str_in (needle hay : string) : bool :=
  if startswith needle hay then true
  else match hay with
       | EmptyString => false
       | String _ hay' => str_in needle hay'
       end.

(** [s.endswith(suffix)] *)
Definition endswith (suffix s : string) : bool :=
  startswith (String.rev suffix) (String.rev s).

(** [sep.join(parts)] *)
Fixpoint join (sep : string) (parts : list string) : string :=
  match parts with
  | [] => ""
  | [p] => p
  | p :: rest => p +:+ sep +:+ join sep rest
  end.

(** Truth value of a [str] and of a [list]: non-empty. *)
Definition truthy_str (s : string) : bool :=
  match s with EmptyString => false | _ => true end.

Definition truthy_list {A} (l : list A) : bool :=
  match l with [] => false | _ => true end.

(** [x or ""] where [x] is [None] or a [str]. *)
Definition or_empty (x : option string) : string :=
  match x with
  | Some s => if truthy_str s then s else ""
  | None => ""
  end.

(** *** Formatting a float with the format spec [.3f]

    The exact value [m * 2^e] is scaled by 1000 and rounded to the nearest
    integer, ties to even, as the C library does for ["%.3f"]. *)
Definition round_half_even (p q : Z) : Z :=
  let n := (p / q)%Z in
  let r := (p mod q)%Z in
  match (2 * r ?= q)%Z with
  | Lt => n
  | Gt => (n + 1)%Z
  | Eq => if Z.even n then n else (n + 1)%Z
  end.

Definition thousandths (m : positive) (e : Z) : Z :=
  if (0 <=? e)%Z then (Z.pos m * 2 ^ e * 1000)%Z
  else round_half_even (Z.pos m * 1000) (2 ^ (- e)).

Definition pad3 (n : Z) : string :=
  let d := pretty (Z.to_N n) in
  match String.length d with
  | 1%nat => "00" +:+ d
  | 2%nat => "0" +:+ d
  | _ => d
  end.

Definition sign_str (s : bool) : string := if s then "-" else "".

Definition format_3f (x : float) : string :=
  match Prim2SF x with
  | S754_zero s => sign_str s +:+ "0.000"
  | S754_infinity s => sign_str s +:+ "inf"
  | S754_nan => "nan"
  | S754_finite s m e =>
      let n := thousandths m e in
      sign_str s +:+ pretty (Z.to_N (n / 1000)) +:+ "." +:+ pad3 (n mod 1000)
  end.

End Py.

Import Py.

(** ** Data and services of the query side (rag_query.py and app.py) *)

Module Query.

(** A row of the [match_documents] response. *)
Record Row : Type := mkRow {
  source : string;
  content : string;
  similarity : float;
}.

(** The parameter dict of the [match_documents] remote procedure. *)
Record MatchParams : Type := mkMatchParams {
  query_embedding : list float;
  match_threshold : float;
  match_count : nat;
}.

(** The arguments of [client.models.generate_content]. *)
Record GenRequest : Type := mkGenRequest {
  model : string;
  contents : string;
  system_instruction : string;
  temperature : float;
}.

(** The three module-level clients; [None] after a failed
    initialisation. *)
Record Clients : Type := mkClients {
  model_embedding : option (string → Outcome (list float));
  supabase : option (MatchParams → Outcome (list Row));
  client_gemini : option (GenRequest → Outcome string);
}.

Inductive Event : Type :=
| EvEncode (text : string) (res : Outcome (list float))
| EvRpc (p : MatchParams) (res : Outcome (list Row))
| EvGenerate (r : GenRequest) (res : Outcome string).

Definition LLM_MODEL_NAME : string := "gemini-2.5-flash".
Definition K_CHUNKS : nat := 5.

(** [model_embedding.encode(query_text, normalize_embeddings=True).tolist()] *)
Definition encode (enc : string → Outcome (list float)) (text : string)
  : M Event (list float) :=
  call (EvEncode text) (enc text).

(** [supabase.rpc('match_documents', params).execute()], giving
    [response.data]. *)
Definition rpc_match_documents (svc : MatchParams → Outcome (list Row))
    (p : MatchParams) : M Event (list Row) :=
  call (EvRpc p) (svc p).

(** [client_gemini.models.generate_content(...)], giving [response.text]. *)
Definition generate_content (llm : GenRequest → Outcome string)
    (r : GenRequest) : M Event string :=
  call (EvGenerate r) (llm r).

(** [f"[Fonte: {match['source']}, Score: {match['similarity']:.3f}] {match['content']}"] *)
Definition content_with_source (m : Row) : string :=
  "[Fonte: " +:+ source m +:+ ", Score: " +:+ format_3f (similarity m)
    +:+ "] " +:+ content m.

End Query.

Import Query.

(** ** src/rag_query.py *)

Module RagQuery.

(** The body of [for match in response.data:], which keeps every row. *)
Fixpoint collect (data : list Row) (relevant_chunks : list string) : list string :=
  match data with
  | [] => relevant_chunks
  | m :: rest => collect rest (relevant_chunks ++ [content_with_source m])
  end.

(** The embedding of the query is computed before the [try] block. *)
Definition get_relevant_chunks (c : Clients) (query_text : string)
  : M Event (list string) :=
  match model_embedding c, supabase c with
  | Some enc, Some svc =>
      query_embedding ← encode enc query_text;
      try_except
        (data ← rpc_match_documents svc
                  {| query_embedding := query_embedding;
                     match_threshold := 0.5%float;
                     match_count := K_CHUNKS |};
         mret (collect data []))
        (λ _, mret [])
  | _, _ => mret []
  end.

Definition nutrirag_instruction : string :=
  "Você é um assistente de Nutrição especializado, chamado NutriRAG. "
  +:+ "Sua tarefa é responder a pergunta do usuário APENAS com base nos documentos de contexto fornecidos. "
  +:+ "Se o contexto não contiver informações suficientes para responder à pergunta, você deve dizer: 'Desculpe, não encontrei informações relevantes nos documentos fornecidos.' "
  +:+ "Mantenha a resposta concisa, profissional e inclua referências à fonte original entre colchetes [Fonte: nome_do_arquivo] no final da frase relevante.".

Definition user_prompt (query_text context : string) : string :=
  "Contexto dos Documentos:" +:+ nl +:+ nl +:+ context +:+ nl +:+ nl
  +:+ "---"
  +:+ "Pergunta do Usuário: " +:+ query_text.

(** The answer is a bare [str]: this file has one prompt, one
    temperature and no mode label. *)
Definition generate_rag_answer (c : Clients) (query_text : string)
    (relevant_chunks : list string) : M Event string :=
  match client_gemini c with
  | None => mret "Erro: Cliente Gemini não inicializado. Verifique a chave API no .env."
  | Some llm =>
      let context := join (nl +:+ "---" +:+ nl) relevant_chunks in
      try_except
        (generate_content llm
           {| model := LLM_MODEL_NAME;
              contents := user_prompt query_text context;
              system_instruction := nutrirag_instruction;
              temperature := 0.2%float |})
        (λ _, mret "Erro ao gerar resposta com o LLM.")
  end.

(** What the loop prints when the retrieval returned nothing. *)
Definition apology : string :=
  nl +:+ "NutriRAG > Desculpe, não foi possível realizar a busca no banco de dados. Verifique o log.".

(** One turn of the [while True:] loop of [main] for a non-empty query
    that is not an exit word: what is printed as the answer.  With no
    chunk the loop prints an apology and goes on to the next input
    without calling the LLM. *)
Definition turn (c : Clients) (user_query : string) : M Event string :=
  relevant_chunks ← get_relevant_chunks c user_query;
  if negb (truthy_list relevant_chunks)
  then mret apology
  else generate_rag_answer c user_query relevant_chunks.

End RagQuery.

(** ** app.py *)

Module App.

(** The body of [for match in response.data:] with its test
    [if match['similarity'] > 0.75:]. *)
Fixpoint collect (data : list Row) (relevant_chunks : list string) : list string :=
  match data with
  | [] => relevant_chunks
  | m :: rest =>
      if (0.75 <? similarity m)%float
      then collect rest (relevant_chunks ++ [content_with_source m])
      else collect rest relevant_chunks
  end.

(** Here the embedding of the query is computed inside the [try] block. *)
Definition get_relevant_chunks (c : Clients) (query_text : string)
  : M Event (list string) :=
  match model_embedding c, supabase c with
  | Some enc, Some svc =>
      try_except
        (query_embedding ← encode enc query_text;
         data ← rpc_match_documents svc
                  {| query_embedding := query_embedding;
                     match_threshold := 0.5%float;
                     match_count := K_CHUNKS |};
         mret (collect data []))
        (λ _, mret [])
  | _, _ => mret []
  end.

Definition rag_instruction : string :=
  "Você é um assistente de Nutrição especializado, chamado DiabetesGPT. "
  +:+ "Responda APENAS com base nos documentos de contexto fornecidos. "
  +:+ "Se o contexto não for suficiente, diga: 'Desculpe, não encontrei informações específicas nos documentos de diabetes fornecidos.' "
  +:+ "Inclua referências à fonte original no final da frase relevante.".

Definition fallback_instruction : string :=
  "Você é um assistente de Nutrição e saúde. A busca RAG falhou. Responda à pergunta "
  +:+ "diretamente com seu conhecimento geral de forma informativa e profissional.".

(** The answer is the pair [(text, source)]; [source] is one of the
    strings ["RAG"], ["FALLBACK"] and ["ERROR"]. *)
Definition generate_rag_answer (c : Clients) (query_text : string)
    (relevant_chunks : list string) : M Event (string * string) :=
  match client_gemini c with
  | None => mret ("Erro: Cliente Gemini não inicializado.", "ERROR")
  | Some llm =>
      let '(context, instruction, source) :=
        if truthy_list relevant_chunks
        then (Some (join (nl +:+ "---" +:+ nl) relevant_chunks), rag_instruction, "RAG")
        else (None, fallback_instruction, "FALLBACK") in
      let user_prompt :=
        "Pergunta do Usuário: " +:+ query_text +:+ nl +:+ nl
        +:+ "Contexto (se RAG): "
        +:+ (if truthy_list relevant_chunks then default "" context else "N/A") in
      try_except
        (text ← generate_content llm
                  {| model := LLM_MODEL_NAME;
                     contents := user_prompt;
                     system_instruction := instruction;
                     temperature :=
                       if String.eqb source "FALLBACK" then 0.4%float else 0.2%float |};
         mret (text, source))
        (λ _, mret ("Erro ao gerar resposta com o LLM.", "ERROR"))
  end.

(** The processing of one chat input: retrieval, then generation. *)
Definition respond (c : Clients) (prompt : string) : M Event (string * string) :=
  chunks ← get_relevant_chunks c prompt;
  generate_rag_answer c prompt chunks.

End App.

(** ** src/index_docs.py *)

Module IndexDocs.

(** One row of the [documents] table, the dict built by [chunk_text];
    the key ['embedding'] is added later by [generate_embeddings]. *)
Record Chunk : Type := mkChunk {
  source : string;
  chunk_index : nat;
  content : string;
  metadata : gmap string string;
  embedding : option (list float);
}.

(** What [page.extract_text()] does for one page: raise, or return
    [None] or a [str]. *)
Definition Page : Type := Outcome (option string).

Inductive Event : Type :=
| EvPdfReader (filepath : string) (res : Outcome (list Page))
| EvEncode (texts : list string) (res : Outcome (list (list float)))
| EvPost (url : string) (payload : list Chunk) (res : Outcome nat)
| EvMakedirs (path : string) (res : Outcome ()).

(** The process environment and the services the script talks to.  The
    answer to a POST may depend on everything that happened before it. *)
Record Env : Type := mkEnv {
  SUPABASE_URL : option string;
  SUPABASE_SERVICE_KEY : option string;
  path_exists : string → bool;
  makedirs : string → Outcome ();
  listdir : string → Outcome (list string);
  PdfReader : string → Outcome (list Page);
  split_text : string → list string;
  model_encode : list string → Outcome (list (list float));
  requests_post : list Event → string → list Chunk → Outcome nat;
}.

Definition DOCS_DIR : string := "docs".
Definition BATCH_SIZE : nat := 500.

(** [f"{SUPABASE_URL}/rest/v1/documents"] *)
Definition INSERT_URL (env : Env) : string :=
  default "None" (SUPABASE_URL env) +:+ "/rest/v1/documents".

(** [for page in reader.pages: text += page.extract_text() or ""] *)
Fixpoint read_pages (pages : list Page) (text : string) : M Event string :=
  match pages with
  | [] => mret text
  | Return t :: rest => read_pages rest (text +:+ or_empty t)
  | Raise e :: _ => raise e
  end.

(** The whole body is inside [try]; the handler returns [""]. *)
Definition extract_text_from_pdf (env : Env) (filepath : string) : M Event string :=
  try_except
    (pages ← call (EvPdfReader filepath) (PdfReader env filepath);
     read_pages pages "")
    (λ _, mret "").

(** The [if / elif / else] that picks the value of ["doenca"]. *)
Definition doenca (filename : string) : string :=
  if str_in "diabetes" (lower filename) then "Diabetes"
  else if str_in "cancer" (lower filename) || str_in "estomago" (lower filename)
       then "Câncer de Estômago"
       else "Geral/Não Especificado".

(** [for i, chunk in enumerate(chunks): ... data.append({...})] *)
Fixpoint chunk_loop (filename : string) (i : nat) (chunks : list string)
    (data : list Chunk) : list Chunk :=
  match chunks with
  | [] => data
  | chunk :: rest =>
      chunk_loop filename (S i) rest
        (data ++ [{| source := filename;
                     chunk_index := i;
                     content := chunk;
                     metadata := {[ "doenca" := doenca filename; "tema" := "nutrição" ]};
                     embedding := None |}])
  end.

(** The splitter is [RecursiveCharacterTextSplitter(chunk_size=500,
    chunk_overlap=50, length_function=len, is_separator_regex=False)] of
    the langchain library, held in the environment. *)
Definition chunk_text (env : Env) (text filename : string) : list Chunk :=
  chunk_loop filename 0 (split_text env text) [].

(** [for i, embedding in enumerate(embeddings):
       chunks_data[i]['embedding'] = embedding.tolist()];
    indexing past the end of [chunks_data] raises [IndexError]. *)
Fixpoint assign_embeddings (i : nat) (embeddings : list (list float))
    (chunks_data : list Chunk) : M Event (list Chunk) :=
  match embeddings with
  | [] => mret chunks_data
  | e :: rest =>
      match chunks_data !! i with
      | Some c =>
          assign_embeddings (S i) rest
            (<[ i := {| source := source c; chunk_index := chunk_index c;
                        content := content c; metadata := metadata c;
                        embedding := Some e |} ]> chunks_data)
      | None => raise (Exception "IndexError")
      end
  end.

(** [model_encode] stands for loading the SentenceTransformer model and
    calling its [encode] on the batch of texts. *)
Definition generate_embeddings (env : Env) (chunks_data : list Chunk)
  : M Event (list Chunk) :=
  let texts := content <$> chunks_data in
  embeddings ← call (EvEncode texts) (model_encode env texts);
  assign_embeddings 0 embeddings chunks_data.

(** [range(0, stop, step)] for a positive [step]. *)
Definition range_step (stop step : nat) : list nat :=
  (λ k, k * step) <$> seq 0 ((stop + step - 1) / step).

(** [requests.post(INSERT_URL, headers=HEADERS, json=payload)]; the
    response is represented by its status code. *)
Definition post (env : Env) (payload : list Chunk) : M Event nat :=
  λ t, let res := requests_post env t (INSERT_URL env) payload in
       (res, t ++ [EvPost (INSERT_URL env) payload res]).

(** [response.raise_for_status()] raises [HTTPError] for the client and
    server error codes 400..599. *)
Definition raise_for_status (status_code : nat) : M Event () :=
  if (400 <=? status_code) && (status_code <? 600)
  then raise (HTTPError status_code)
  else mret ().

(** One pass through the body of the batch loop: the [try] block and its
    three handlers.  The result is the new [success_count] and whether
    the handler ran [break]. *)
Definition insert_batch (env : Env) (batch_data : list Chunk) (success_count : nat)
  : M Event (nat * bool) :=
  try_except
    (status ← post env batch_data;
     _ ← raise_for_status status;
     mret (success_count + length batch_data, false))
    (λ e, match e with
          | HTTPError _ => mret (success_count, true)
          | RequestException => mret (success_count, true)
          | Exception _ => mret (success_count, true)
          end).

(** [for i in range(0, total_records, BATCH_SIZE):] over the remaining
    start offsets. *)
Fixpoint insert_loop (env : Env) (chunks_data : list Chunk) (starts : list nat)
    (success_count : nat) : M Event nat :=
  match starts with
  | [] => mret success_count
  | i :: rest =>
      let batch_data := take BATCH_SIZE (drop i chunks_data) in
      '(success_count', broke) ← insert_batch env batch_data success_count;
      if (broke : bool) then mret success_count'
      else insert_loop env chunks_data rest success_count'
  end.

(** What the last log line of the insertion reports. *)
Inductive Report : Type :=
| Completa (total_records : nat)
| Parcial (success_count total_records : nat).

(** The Python function returns [None]; the model returns its report. *)
Definition insert_data_to_supabase_api (env : Env) (chunks_data : list Chunk)
  : M Event Report :=
  let total_records := length chunks_data in
  success_count ← insert_loop env chunks_data (range_step total_records BATCH_SIZE) 0;
  if success_count =? total_records
  then mret (Completa total_records)
  else mret (Parcial success_count total_records).

(** [os.path.join(DOCS_DIR, filename)] for a directory entry. *)
Definition path_join (dir filename : string) : string :=
  dir +:+ "/" +:+ filename.

(** [for filename in pdf_files:] of [main], accumulating
    [total_chunks_data]. *)
Fixpoint process_files (env : Env) (pdf_files : list string)
    (total_chunks_data : list Chunk) : M Event (list Chunk) :=
  match pdf_files with
  | [] => mret total_chunks_data
  | filename :: rest =>
      let filepath := path_join DOCS_DIR filename in
      text ← extract_text_from_pdf env filepath;
      if truthy_str text
      then
        let chunks := chunk_text env text filename in
        chunks_with_embeddings ← generate_embeddings env chunks;
        process_files env rest (total_chunks_data ++ chunks_with_embeddings)
      else process_files env rest total_chunks_data
  end.

(** How a run of [main] ends. *)
Inductive Ended : Type :=
| MissingKeys
| DocsDirCreated
| NoPdfFiles
| NothingToInsert
| Inserted (r : Report).

(** [not v] for a value [v] of [os.getenv]: [None] or the empty string. *)
Definition unset (v : option string) : bool :=
  match v with
  | Some s => negb (truthy_str s)
  | None => true
  end.

(** [pdf_files] are the entries of the directory that end in ".pdf".
    [os.makedirs] and [os.listdir] are called outside any [try]: when one
    of them raises (the directory cannot be created, or "docs" is not a
    directory or cannot be read) the exception ends [main]. *)
Definition main (env : Env) : M Event Ended :=
  if unset (SUPABASE_URL env) || unset (SUPABASE_SERVICE_KEY env)
  then mret MissingKeys
  else if negb (path_exists env DOCS_DIR)
  then
    _ ← call (EvMakedirs DOCS_DIR) (makedirs env DOCS_DIR);
    mret DocsDirCreated
  else
    match listdir env DOCS_DIR with
    | Raise e => raise e
    | Return entries =>
        let pdf_files := filter (λ f, endswith ".pdf" f = true) entries in
        if negb (truthy_list pdf_files) then mret NoPdfFiles
        else
          total_chunks_data ← process_files env pdf_files [];
          if truthy_list total_chunks_data
          then r ← insert_data_to_supabase_api env total_chunks_data; mret (Inserted r)
          else mret NothingToInsert
    end.

End IndexDocs.

(** ** app.py: start-up and the chat page *)

Module AppScript.

(** The environment variables read at start-up and the three
    constructors called by [initialize_resources]. *)
Record Settings : Type := mkSettings {
  SUPABASE_URL : option string;
  SUPABASE_ANON_KEY : option string;
  GEMINI_API_KEY : option string;
  EMBEDDING_MODEL_NAME : string;
  create_client : string → string → Outcome (MatchParams → Outcome (list Row));
  genai_Client : string → Outcome (GenRequest → Outcome string);
  SentenceTransformer : string → Outcome (string → Outcome (list float));
}.

Definition no_clients : Clients :=
  {| model_embedding := None; supabase := None; client_gemini := None |}.

(** Truth value of a value of [os.getenv]. *)
Definition set_var (v : option string) : bool :=
  match v with
  | Some s => truthy_str s
  | None => false
  end.

(** Either the three clients or three [None]: a missing key or an
    exception of any constructor gives [None, None, None]. *)
Definition initialize_resources (s : Settings) : Clients :=
  if negb (set_var (SUPABASE_URL s) && set_var (SUPABASE_ANON_KEY s)
           && set_var (GEMINI_API_KEY s))
  then no_clients
  else
    match create_client s (default "" (SUPABASE_URL s))
            (default "" (SUPABASE_ANON_KEY s)) with
    | Raise _ => no_clients
    | Return sb =>
        match genai_Client s (default "" (GEMINI_API_KEY s)) with
        | Raise _ => no_clients
        | Return gemini =>
            match SentenceTransformer s (EMBEDDING_MODEL_NAME s) with
            | Raise _ => no_clients
            | Return embedder =>
                {| model_embedding := Some embedder;
                   supabase := Some sb;
                   client_gemini := Some gemini |}
            end
        end
    end.

(** [all([supabase, client_gemini, model_embedding])] *)
Definition all_clients (c : Clients) : bool :=
  match supabase c, client_gemini c, model_embedding c with
  | Some _, Some _, Some _ => true
  | _, _, _ => false
  end.

(** A chat message: the dict [{"role": ..., "content": ...}]. *)
Record Message : Type := mkMessage {
  role : string;
  content : string;
}.

Definition greeting : list Message :=
  [ mkMessage "assistant"
      "Olá! Eu sou o DiabetesGPT. Posso responder suas perguntas sobre diabetes." ].

Definition source_icon (source : string) : string :=
  if String.eqb source "RAG" then "📚" else "💡".

Definition source_label (source : string) : string :=
  if String.eqb source "RAG" then "RAG (Documentos)"
  else "FALLBACK (Conhecimento Geral)".

(** [f"**Fonte da Resposta: {source_icon} {source_label}**\n\n{response_text}"] *)
Definition full_response_content (response_text source : string) : string :=
  "**Fonte da Resposta: " +:+ source_icon source +:+ " " +:+ source_label source
  +:+ "**" +:+ nl +:+ nl +:+ response_text.

(** The body of [if prompt := st.chat_input(...):]: the user message is
    appended, the answer is computed, the assistant message is
    appended. *)
Definition on_prompt (c : Clients) (messages : list Message) (prompt : string)
  : M Query.Event (list Message) :=
  let messages := messages ++ [mkMessage "user" prompt] in
  '(response_text, source) ← App.respond c prompt;
  mret (messages ++ [mkMessage "assistant" (full_response_content response_text source)]).

(** One run of the page script.  [session] is
    [st.session_state.messages] when the key exists, [prompt] the value of
    [st.chat_input]; the result is the messages of the session after the
    run.  Without the three clients the script stops before it touches
    the session. *)
Definition script (s : Settings) (session : option (list Message))
    (prompt : option string) : M Query.Event (option (list Message)) :=
  let c := initialize_resources s in
  if negb (all_clients c) then mret session
  else
    let messages := default greeting session in
    match prompt with
    | Some p =>
        if truthy_str p
        then messages' ← on_prompt c messages p; mret (Some messages')
        else mret (Some messages)
    | None => mret (Some messages)
    end.

End AppScript.

(** ** src/rag_query.py: the chat loop *)

Module RagQueryMain.

(** [user_query.lower() in ['sair', 'exit', 'quit']] *)
Definition is_exit (user_query : string) : bool :=
  bool_decide (lower user_query ∈ ["sair"; "exit"; "quit"]).

Definition goodbye : string := "Chatbot encerrado. Até logo!".

(** The [while True:] loop over the values that [input(...).strip()]
    returns one after the other; [input] raises [EOFError] when there is
    none left.  [printed] collects the goodbye, the apologies and the
    answers that the loop prints; the banner, the rulers and the timing
    line are left out.  The result is how the loop was left: by [break],
    or by an exception that nothing catches. *)
Fixpoint loop (c : Clients) (inputs : list string) (printed : list string)
    (t : list Query.Event) : Outcome () * list string * list Query.Event :=
  match inputs with
  | [] => (Raise (Exception "EOFError"), printed, t)
  | user_query :: rest =>
      if is_exit user_query then (Return (), printed ++ [goodbye], t)
      else if negb (truthy_str user_query) then loop c rest printed t
      else
        match RagQuery.turn c user_query t with
        | (Return answer, t') => loop c rest (printed ++ [answer]) t'
        | (Raise e, t') => (Raise e, printed, t')
        end
  end.

(** [main] returns at once when one of the three clients is missing. *)
Definition main (c : Clients) (inputs : list string)
  : Outcome () * list string * list Query.Event :=
  if negb (AppScript.all_clients c) then (Return (), [], [])
  else loop c inputs [] [].

End RagQueryMain.

(** ** Vocabulary of the properties *)

Module Props.

(** A row passes the client-side gate: its similarity is strictly
    greater than 0.75. *)
Definition above_post_filter (m : Row) : Prop :=
  (0.75 <? similarity m)%float = true.

#[global] Instance above_post_filter_dec m : Decision (above_post_filter m).
Proof. unfold above_post_filter. apply _. Defined.

(** [a] may come before [b] in a list ordered by descending similarity. *)
Definition desc (a b : Row) : Prop :=
  (similarity b <=? similarity a)%float = true.

(** A retrieval function, as both files declare it. *)
Definition Retriever : Type := Clients → string → M Query.Event (list string).

(** Whatever a retrieval function returns is the rendering of rows that
    the service sent in this call, every one of them above the
    client-side gate. *)
Definition post_filtered (retrieve : Retriever) : Prop :=
  ∀ c q chunks t,
    run (retrieve c q) = (Return chunks, t) →
    ∃ kept,
      chunks = content_with_source <$> kept
      ∧ Forall above_post_filter kept
      ∧ ∀ m, m ∈ kept → ∃ p data, EvRpc p (Return data) ∈ t ∧ m ∈ data.

(** The parameters of the service calls of a trace, in order. *)
Definition rpc_calls (t : list Query.Event) : list MatchParams :=
  omap (λ ev, match ev with EvRpc p _ => Some p | _ => None end) t.

(** The service is asked with threshold 0.5 and count 5, and at most
    once in a retrieval. *)
Definition asks_half_and_five (retrieve : Retriever) : Prop :=
  ∀ c q out t,
    run (retrieve c q) = (out, t) →
    (∀ p, p ∈ rpc_calls t →
       match_threshold p = 0.5%float ∧ match_count p = 5)
    ∧ length (rpc_calls t) ≤ 1.

(** When both clients exist and the query is embedded, the service is
    called, once, with the embedding of the query, threshold 0.5 and
    count 5. *)
Definition asks_service (retrieve : Retriever) : Prop :=
  ∀ c q enc svc v out t,
    model_embedding c = Some enc →
    supabase c = Some svc →
    enc q = Return v →
    run (retrieve c q) = (out, t) →
    rpc_calls t = [mkMatchParams v 0.5%float K_CHUNKS].

(** The result renders the rows of the service answer that [keep]
    selects, all of them and in the order of the answer. *)
Definition relays_answer (keep : Row → Prop) `{!∀ m, Decision (keep m)}
    (retrieve : Retriever) : Prop :=
  ∀ c q out t p data,
    run (retrieve c q) = (out, t) →
    EvRpc p (Return data) ∈ t →
    out = Return (content_with_source <$> filter keep data).

(** The bound and the order as a property of the retrieval function
    alone: whatever the service sends, at most [K_CHUNKS] chunks are
    returned, and they render rows in descending order of similarity. *)
Definition at_most_k_sorted (retrieve : Retriever) : Prop :=
  ∀ c q chunks t,
    run (retrieve c q) = (Return chunks, t) →
    ∃ kept,
      chunks = content_with_source <$> kept
      ∧ length chunks ≤ K_CHUNKS
      ∧ StronglySorted desc kept.

(** A failed or empty answer of the service becomes an empty result. *)
Definition absorbs_service_failure (retrieve : Retriever) : Prop :=
  ∀ c q out t,
    run (retrieve c q) = (out, t) →
    (∃ p res, EvRpc p res ∈ t ∧ (res = Return [] ∨ ∃ e, res = Raise e)) →
    out = Return [].

(** When the service sent no more rows than it was asked for, ordered by
    descending similarity, the result renders at most [K_CHUNKS] of
    these rows, in the order in which the service sent them. *)
Definition bounded_and_sorted (retrieve : Retriever) : Prop :=
  ∀ c q chunks t,
    run (retrieve c q) = (Return chunks, t) →
    (∀ p data, EvRpc p (Return data) ∈ t →
       length data ≤ match_count p ∧ StronglySorted desc data) →
    ∃ kept,
      chunks = content_with_source <$> kept
      ∧ length chunks ≤ K_CHUNKS
      ∧ StronglySorted desc kept
      ∧ ∀ p data, EvRpc p (Return data) ∈ t → kept `sublist_of` data.

(** A generation call of the trace raised. *)
Definition generation_failed (t : list Query.Event) : Prop :=
  ∃ r e, EvGenerate r (Raise e) ∈ t.

(** The requests of the generation calls of a trace, in order. *)
Definition gen_calls (t : list Query.Event) : list GenRequest :=
  omap (λ ev, match ev with EvGenerate r _ => Some r | _ => None end) t.

(** The mode label carried by what an answer function returns: the
    second component of the pair [(text, source)] of app.py; the bare
    [str] of rag_query.py carries none. *)
Definition label_of_pair (a : string * string) : option string := Some a.2.
Definition label_of_str (a : string) : option string := None.

(** The mode contract of an answer function, for the clients with which
    a program reaches it: both programs leave before any query is
    processed unless the three clients exist (rag_query.py lines 140-142,
    app.py lines 121-123).  The function returns a value with a mode
    label; the label is ["ERROR"] only when a generation call raised,
    and otherwise it is ["RAG"] exactly for a non-empty list of matches
    and ["FALLBACK"] exactly for the empty list. *)
Definition mode_by_matches {A} (label : A → option string)
    (answer : Clients → string → list string → M Query.Event A) : Prop :=
  ∀ c q matches out t,
    AppScript.all_clients c = true →
    run (answer c q matches) = (out, t) →
    ∃ a mode,
      out = Return a
      ∧ label a = Some mode
      ∧ (mode = "ERROR" → generation_failed t)
      ∧ (mode ≠ "ERROR" →
           (mode = "RAG" ↔ matches ≠ []) ∧ (mode = "FALLBACK" ↔ matches = [])).

(** The temperature contract of a program that retrieves and then
    answers: every generation call made for a query carries temperature
    0.2 when the retrieval for this query returned matches, and 0.4 when
    it returned none. *)
Definition temperature_by_matches {A} (retrieve : Retriever)
    (program : Clients → string → M Query.Event A) : Prop :=
  ∀ c q out t,
    run (program c q) = (out, t) →
    ∀ r res, EvGenerate r res ∈ t →
    ∃ matches t1,
      run (retrieve c q) = (Return matches, t1)
      ∧ (matches ≠ [] → temperature r = 0.2%float)
      ∧ (matches = [] → temperature r = 0.4%float).

(** The same contract for an answer function and every list of matches
    it may be given. *)
Definition answer_temperature_by_matches {A}
    (answer : Clients → string → list string → M Query.Event A) : Prop :=
  ∀ c q matches out t,
    run (answer c q matches) = (out, t) →
    ∀ r res, EvGenerate r res ∈ t →
      (matches ≠ [] → temperature r = 0.2%float)
      ∧ (matches = [] → temperature r = 0.4%float).

(** [keyword] occurs in [s] when letter case is ignored: some substring
    of [s] lower-cases to [keyword]. *)
Definition contains_ci (keyword s : string) : Prop :=
  ∃ pre mid post, s = pre +:+ mid +:+ post ∧ lower mid = keyword.

(** The three values of the ["doenca"] entry. *)
Definition DIABETES : string := "Diabetes".
Definition STOMACH_CANCER : string := "Câncer de Estômago".
Definition GENERAL : string := "Geral/Não Especificado".

(** Extraction of a document fails: the reader raises on the file, or
    the text extraction of one of its pages raises. *)
Definition extraction_fails (env : IndexDocs.Env) (filepath : string) : Prop :=
  match IndexDocs.PdfReader env filepath with
  | Raise _ => True
  | Return pages => ∃ e, Raise e ∈ pages
  end.

(** A POST succeeds when [requests.post] returns and
    [raise_for_status] accepts the status code. *)
Definition post_ok (res : Outcome nat) : bool :=
  match res with
  | Return status_code => negb ((400 <=? status_code) && (status_code <? 600))
  | Raise _ => false
  end.

(** The payloads of a full insertion of [chunks_data], in order. *)
Definition batches (chunks_data : list IndexDocs.Chunk) : list (list IndexDocs.Chunk) :=
  (λ i, take IndexDocs.BATCH_SIZE (drop i chunks_data))
    <$> IndexDocs.range_step (length chunks_data) IndexDocs.BATCH_SIZE.

(** A POST as payload and response, and its entry in the trace. *)
Definition Post : Type := list IndexDocs.Chunk * Outcome nat.

Definition post_event (env : IndexDocs.Env) (p : Post) : IndexDocs.Event :=
  IndexDocs.EvPost (IndexDocs.INSERT_URL env) p.1 p.2.

(** The POSTs of a trace, in order. *)
Definition post_calls (t : list IndexDocs.Event) : list Post :=
  omap (λ ev, match ev with
              | IndexDocs.EvPost _ payload res => Some (payload, res)
              | _ => None
              end) t.

(** The number of records in the payloads of the POSTs that succeeded. *)
Definition inserted (posts : list Post) : nat :=
  sum_list (length <$> (filter (λ p : Post, post_ok p.2 = true) posts).*1).

End Props.

(** ** Concrete runs used to exercise the statements *)

Module Scenario.

Local Open Scope float_scope.

(** The service answers with five rows of similarity 0.9, 0.8, 0.76, 0.6
    and 0.4. *)
Definition rows : list Row :=
  [ mkRow "guia.pdf" "A" 0.9; mkRow "guia.pdf" "B" 0.8; mkRow "dieta.pdf" "C" 0.76;
    mkRow "dieta.pdf" "D" 0.6; mkRow "outro.pdf" "E" 0.4 ].

Definition clients : Clients :=
  {| model_embedding := Some (λ _, Return [0.5; 0.5]);
     supabase := Some (λ _, Return rows);
     client_gemini := Some (λ _, Return "resposta") |}.

(** The service answers with one row, of similarity 0.6. *)
Definition low_row : Row := mkRow "dieta.pdf" "D" 0.6.

Definition low_clients : Clients :=
  {| model_embedding := Some (λ _, Return [0.5; 0.5]);
     supabase := Some (λ _, Return [low_row]);
     client_gemini := Some (λ _, Return "resposta") |}.

(** The service is down. *)
Definition down_clients : Clients :=
  {| model_embedding := Some (λ _, Return [0.5; 0.5]);
     supabase := Some (λ _, Raise (Exception "connection refused"));
     client_gemini := Some (λ _, Return "resposta") |}.

(** The LLM is down. *)
Definition llm_down_clients : Clients :=
  {| model_embedding := Some (λ _, Return [0.5; 0.5]);
     supabase := Some (λ _, Return rows);
     client_gemini := Some (λ _, Raise (Exception "quota")) |}.

(** The LLM client was never created. *)
Definition no_llm_clients : Clients :=
  {| model_embedding := Some (λ _, Return [0.5; 0.5]);
     supabase := Some (λ _, Return rows);
     client_gemini := None |}.

(** The service answers with six rows of similarity 0.9, one more than
    it was asked for. *)
Definition six_rows : list Row :=
  (λ i, mkRow "guia.pdf" (pretty i) 0.9) <$> seq 0 6.

Definition six_clients : Clients :=
  {| model_embedding := Some (λ _, Return [0.5; 0.5]);
     supabase := Some (λ _, Return six_rows);
     client_gemini := Some (λ _, Return "resposta") |}.

(** The service answers with two rows in ascending order of
    similarity. *)
Definition ascending_clients : Clients :=
  {| model_embedding := Some (λ _, Return [0.5; 0.5]);
     supabase := Some (λ _, Return [mkRow "guia.pdf" "B" 0.8; mkRow "guia.pdf" "A" 0.9]);
     client_gemini := Some (λ _, Return "resposta") |}.

(** The request that these runs send to the service. *)
Definition request : MatchParams := mkMatchParams [0.5; 0.5] 0.5 K_CHUNKS.

(** The number of POSTs already made in a trace. *)
Definition posts_so_far (t : list IndexDocs.Event) : nat :=
  length (omap (λ ev, match ev with IndexDocs.EvPost _ _ _ => Some () | _ => None end) t).

(** An ingestion run over a directory with three readable PDF files,
    one corrupt PDF file and one text file.  The splitter returns the
    text in [pieces] segments; the [failing]-th POST (counted from 0) is
    answered with status 401, every other POST with 201. *)
Definition ingest_env (pieces failing : nat) : IndexDocs.Env :=
  {| IndexDocs.SUPABASE_URL := Some "https://db.example";
     IndexDocs.SUPABASE_SERVICE_KEY := Some "service-key";
     IndexDocs.path_exists := λ _, true;
     IndexDocs.makedirs := λ _, Return ();
     IndexDocs.listdir := λ _,
       Return ["Guia_Diabetes.pdf"; "corrompido.pdf"; "notas.txt"; "Cancer_Estomago.pdf";
               "Receitas.pdf"];
     IndexDocs.PdfReader := λ p,
       if String.eqb p "docs/corrompido.pdf"
       then Raise (Exception "EOF marker not found")
       else Return [Return (Some "Coma fibras. "); Return None;
                    Return (Some "Evite doces.")];
     IndexDocs.split_text := λ text, replicate pieces text;
     IndexDocs.model_encode := λ texts, Return ((λ _, [1; 0]) <$> texts);
     IndexDocs.requests_post := λ t _ _,
       if (posts_so_far t =? failing)%nat then Return 401%nat else Return 201%nat |}.

(** [n] embedded records of one document, and the record that
    [chunk_text] makes of the text of the readable files. *)
Definition records (n : nat) : list IndexDocs.Chunk :=
  (λ i, IndexDocs.mkChunk "Guia_Diabetes.pdf" i "Coma fibras."
          {[ "doenca" := "Diabetes"; "tema" := "nutrição" ]} (Some [1; 0]))
    <$> seq 0 n.

Definition chunk_of (filename category : string) : IndexDocs.Chunk :=
  IndexDocs.mkChunk filename 0 "Coma fibras. Evite doces."
    {[ "doenca" := category; "tema" := "nutrição" ]} None.

End Scenario.

(** ** Vocabulary of the further properties *)

Module RunProps.

(** The texts of a list, one after the other. *)
Definition concat_str (l : list string) : string := foldr String.append "" l.

(** A record with the embedding [e] attached, when there is one. *)
Definition attach (c : IndexDocs.Chunk) (e : option (list float)) : IndexDocs.Chunk :=
  match e with
  | Some v =>
      IndexDocs.mkChunk (IndexDocs.source c) (IndexDocs.chunk_index c)
        (IndexDocs.content c) (IndexDocs.metadata c) (Some v)
  | None => c
  end.

(** The paths given to the PDF reader in a trace, in order. *)
Definition reads (t : list IndexDocs.Event) : list string :=
  omap (λ ev, match ev with
              | IndexDocs.EvPdfReader filepath _ => Some filepath
              | _ => None
              end) t.

(** The entries of the document directory that the indexer processes:
    those of the listing that end in ".pdf", and none when the directory
    cannot be listed. *)
Definition pdf_files (env : IndexDocs.Env) : list string :=
  match IndexDocs.listdir env IndexDocs.DOCS_DIR with
  | Return entries => filter (λ f, endswith ".pdf" f = true) entries
  | Raise _ => []
  end.

(** The start-up of app.py can succeed: the three keys are set to
    non-empty values and each of the three constructors returns a client
    for them. *)
Definition resources_ready (s : AppScript.Settings) (c : Clients) : Prop :=
  ∃ url key api_key sb gemini embedder,
    AppScript.SUPABASE_URL s = Some url ∧ url ≠ ""
    ∧ AppScript.SUPABASE_ANON_KEY s = Some key ∧ key ≠ ""
    ∧ AppScript.GEMINI_API_KEY s = Some api_key ∧ api_key ≠ ""
    ∧ AppScript.create_client s url key = Return sb
    ∧ AppScript.genai_Client s api_key = Return gemini
    ∧ AppScript.SentenceTransformer s (AppScript.EMBEDDING_MODEL_NAME s) = Return embedder
    ∧ c = {| model_embedding := Some embedder; supabase := Some sb;
             client_gemini := Some gemini |}.

(** The answer shown for a failed generation call. *)
Definition error_shown : string :=
  "**Fonte da Resposta: 💡 FALLBACK (Conhecimento Geral)**" +:+ nl +:+ nl
  +:+ "Erro ao gerar resposta com o LLM.".

End RunProps.

(** ** Further concrete runs *)

Module RunScenario.

Local Open Scope float_scope.

(** Start-up settings with every key set and constructors that return
    the clients of [Scenario.clients]. *)
Definition settings : AppScript.Settings :=
  {| AppScript.SUPABASE_URL := Some "https://db.example";
     AppScript.SUPABASE_ANON_KEY := Some "anon-key";
     AppScript.GEMINI_API_KEY := Some "gemini-key";
     AppScript.EMBEDDING_MODEL_NAME := "sentence-transformers/all-MiniLM-L6-v2";
     AppScript.create_client := λ _ _, Return (λ _, Return Scenario.rows);
     AppScript.genai_Client := λ _, Return (λ _, Return "resposta");
     AppScript.SentenceTransformer := λ _, Return (λ _, Return [0.5; 0.5]) |}.

(** The encoder of the indexer returns [n] embeddings whatever the
    batch. *)
Definition encode_env (n : nat) : IndexDocs.Env :=
  {| IndexDocs.SUPABASE_URL := Some "https://db.example";
     IndexDocs.SUPABASE_SERVICE_KEY := Some "service-key";
     IndexDocs.path_exists := λ _, true;
     IndexDocs.makedirs := λ _, Return ();
     IndexDocs.listdir := λ _, Return ["Guia_Diabetes.pdf"];
     IndexDocs.PdfReader := λ _, Return [Return (Some "Coma fibras. "); Return None;
                                         Return (Some "Evite doces.")];
     IndexDocs.split_text := λ text, [text; text];
     IndexDocs.model_encode := λ _, Return (replicate n [1; 0]);
     IndexDocs.requests_post := λ _ _ _, Return 201%nat |}.

(** The record that a run over [Scenario.ingest_env] posts for a
    readable file. *)
Definition chunk_of_embedded (filename category : string) : IndexDocs.Chunk :=
  IndexDocs.mkChunk filename 0 "Coma fibras. Evite doces."
    {[ "doenca" := category; "tema" := "nutrição" ]} (Some [1; 0]).

(** The embedding model runs out of memory on every query. *)
Definition encoder_down_clients : Clients :=
  {| model_embedding := Some (λ _, Raise (Exception "out of memory"));
     supabase := Some (λ _, Return Scenario.rows);
     client_gemini := Some (λ _, Return "resposta") |}.

(** Start-up settings without the key of the LLM. *)
Definition settings_without_key : AppScript.Settings :=
  {| AppScript.SUPABASE_URL := Some "https://db.example";
     AppScript.SUPABASE_ANON_KEY := Some "anon-key";
     AppScript.GEMINI_API_KEY := None;
     AppScript.EMBEDDING_MODEL_NAME := "sentence-transformers/all-MiniLM-L6-v2";
     AppScript.create_client := λ _ _, Return (λ _, Return Scenario.rows);
     AppScript.genai_Client := λ _, Return (λ _, Return "resposta");
     AppScript.SentenceTransformer := λ _, Return (λ _, Return [0.5; 0.5]) |}.

(** Start-up settings whose LLM client is created but fails on every
    call. *)
Definition llm_down_settings : AppScript.Settings :=
  {| AppScript.SUPABASE_URL := Some "https://db.example";
     AppScript.SUPABASE_ANON_KEY := Some "anon-key";
     AppScript.GEMINI_API_KEY := Some "gemini-key";
     AppScript.EMBEDDING_MODEL_NAME := "sentence-transformers/all-MiniLM-L6-v2";
     AppScript.create_client := λ _ _, Return (λ _, Return Scenario.rows);
     AppScript.genai_Client := λ _, Return (λ _, Raise (Exception "quota"));
     AppScript.SentenceTransformer := λ _, Return (λ _, Return [0.5; 0.5]) |}.

(** "docs" exists but is a regular file: it cannot be listed. *)
Definition docs_is_a_file_env : IndexDocs.Env :=
  {| IndexDocs.SUPABASE_URL := Some "https://db.example";
     IndexDocs.SUPABASE_SERVICE_KEY := Some "service-key";
     IndexDocs.path_exists := λ _, true;
     IndexDocs.makedirs := λ _, Raise (Exception "FileExistsError");
     IndexDocs.listdir := λ _, Raise (Exception "NotADirectoryError");
     IndexDocs.PdfReader := λ _, Return [];
     IndexDocs.split_text := λ text, [text];
     IndexDocs.model_encode := λ texts, Return ((λ _, [1; 0]) <$> texts);
     IndexDocs.requests_post := λ _ _ _, Return 201%nat |}.

(** There is no "docs" and the working directory is read-only. *)
Definition read_only_env : IndexDocs.Env :=
  {| IndexDocs.SUPABASE_URL := Some "https://db.example";
     IndexDocs.SUPABASE_SERVICE_KEY := Some "service-key";
     IndexDocs.path_exists := λ _, false;
     IndexDocs.makedirs := λ _, Raise (Exception "PermissionError");
     IndexDocs.listdir := λ _, Raise (Exception "FileNotFoundError");
     IndexDocs.PdfReader := λ _, Return [];
     IndexDocs.split_text := λ text, [text];
     IndexDocs.model_encode := λ texts, Return ((λ _, [1; 0]) <$> texts);
     IndexDocs.requests_post := λ _ _ _, Return 201%nat |}.

(** A session of the command-line chatbot: an empty line, two questions,
    the exit word in capitals, and a line that is never read. *)
Definition session_inputs : list string :=
  [""; "O que comer?"; "E o açúcar?"; "SAIR"; "nunca lido"].

End RunScenario.

Import Props.

(** ** Retrieval *)

Ltac unfold_m :=
  unfold run, mbind, M_bind, bind, try_except, encode, rpc_match_documents,
    generate_content, call, mret, M_ret, ret, raise in *.

Section Retrieval.

Local Open Scope float_scope.

Lemma App_collect_filter (data : list Row) (acc : list string) :
  App.collect data acc
  = acc ++ (content_with_source <$> filter above_post_filter data).
Proof.
  revert acc. induction data as [|m data IH]; intros acc; simpl.
  - by rewrite app_nil_r.
  - rewrite filter_cons. unfold above_post_filter at 1.
    destruct (decide _) as [Hm|Hm].
    + rewrite Hm, IH, <- app_assoc. done.
    + apply not_true_is_false in Hm. rewrite Hm. apply IH.
Qed.

Lemma RagQuery_collect_all (data : list Row) (acc : list string) :
  RagQuery.collect data acc = acc ++ (content_with_source <$> data).
Proof.
  revert acc. induction data as [|m data IH]; intros acc; simpl.
  - by rewrite app_nil_r.
  - by rewrite IH, <- app_assoc.
Qed.

(** The shape of every run of the retrieval of app.py. *)
Lemma App_get_relevant_chunks_cases (c : Clients) (q : string) out t :
  run (App.get_relevant_chunks c q) = (out, t) →
  (out = Return [] ∧ t = [])
  ∨ (∃ e, out = Return [] ∧ t = [EvEncode q (Raise e)])
  ∨ (∃ v e, out = Return []
       ∧ t = [EvEncode q (Return v); EvRpc (mkMatchParams v 0.5 K_CHUNKS) (Raise e)])
  ∨ (∃ v data, out = Return (content_with_source <$> filter above_post_filter data)
       ∧ t = [EvEncode q (Return v); EvRpc (mkMatchParams v 0.5 K_CHUNKS) (Return data)]).
Proof.
  unfold App.get_relevant_chunks.
  destruct (model_embedding c) as [enc|], (supabase c) as [svc|];
    unfold_m; simpl; try (intros [= <- <-]; by left).
  destruct (enc q) as [v|e]; simpl.
  - destruct (svc _) as [data|e]; simpl; intros [= <- <-].
    + do 3 right. exists v, data. by rewrite App_collect_filter.
    + right; right; left. by exists v, e.
  - intros [= <- <-]. right; left. by exists e.
Qed.

(** The shape of every run of the retrieval of rag_query.py. *)
Lemma RagQuery_get_relevant_chunks_cases (c : Clients) (q : string) out t :
  run (RagQuery.get_relevant_chunks c q) = (out, t) →
  (out = Return [] ∧ t = [])
  ∨ (∃ e, out = Raise e ∧ t = [EvEncode q (Raise e)])
  ∨ (∃ v e, out = Return []
       ∧ t = [EvEncode q (Return v); EvRpc (mkMatchParams v 0.5 K_CHUNKS) (Raise e)])
  ∨ (∃ v data, out = Return (content_with_source <$> data)
       ∧ t = [EvEncode q (Return v); EvRpc (mkMatchParams v 0.5 K_CHUNKS) (Return data)]).
Proof.
  unfold RagQuery.get_relevant_chunks.
  destruct (model_embedding c) as [enc|], (supabase c) as [svc|];
    unfold_m; simpl; try (intros [= <- <-]; by left).
  destruct (enc q) as [v|e]; simpl.
  - destruct (svc _) as [data|e]; simpl; intros [= <- <-].
    + do 3 right. exists v, data. by rewrite RagQuery_collect_all.
    + right; right; left. by exists v, e.
  - intros [= <- <-]. right; left. by exists e.
Qed.

Lemma StronglySorted_sublist {A} (R : A → A → Prop) (k l : list A) :
  k `sublist_of` l → StronglySorted R l → StronglySorted R k.
Proof.
  induction 1 as [|x k l Hkl IH|x k l Hkl IH]; intros Hl.
  - constructor.
  - apply StronglySorted_inv in Hl as [Hl Hx]. constructor; [by apply IH|].
    rewrite Forall_forall in Hx |- *. intros y Hy. apply Hx.
    by apply (sublist_subseteq _ _ Hkl).
  - apply StronglySorted_inv in Hl as [Hl _]. by apply IH.
Qed.

Lemma rpc_event_singleton (a : Query.Event) p0 res0 p res :
  EvRpc p res ∈ [a; EvRpc p0 res0] → (∀ p' r', a ≠ EvRpc p' r') → p = p0 ∧ res = res0.
Proof.
  intros Hin Ha. apply elem_of_cons in Hin as [Heq|Hin]; [by destruct (Ha p res)|].
  apply list_elem_of_singleton in Hin. by injection Hin.
Qed.

Ltac rpc_inv H :=
  apply rpc_event_singleton in H as [? ?]; [subst|by intros]; simplify_eq.

(** C1 (as amended): in app.py every chunk handed to the caller renders a
    row whose similarity is strictly greater than 0.75, the rows kept are
    exactly those rows of the answer that pass this test, and the service
    was asked with threshold 0.5; in rag_query.py every row of the answer
    is rendered and returned, whatever its similarity. *)
Theorem get_relevant_chunks_post_filter :
  post_filtered App.get_relevant_chunks
  ∧ (∀ c q chunks t,
       run (App.get_relevant_chunks c q) = (Return chunks, t) →
       (∀ p, p ∈ rpc_calls t → match_threshold p = 0.5)
       ∧ ∀ p data, EvRpc p (Return data) ∈ t →
           chunks = content_with_source <$> filter above_post_filter data)
  ∧ (∀ c q chunks t,
       run (RagQuery.get_relevant_chunks c q) = (Return chunks, t) →
       (∀ p, p ∈ rpc_calls t → match_threshold p = 0.5)
       ∧ ∀ p data, EvRpc p (Return data) ∈ t →
           chunks = content_with_source <$> data).
Proof.
  split; [|split].
  - intros c q chunks t Hrun.
    apply App_get_relevant_chunks_cases in Hrun
      as [[? ->]|[(e & ? & ->)|[(v & e & ? & ->)|(v & data & ? & ->)]]];
      simplify_eq; try (exists []; split_and!; [done|constructor|by intros m ?%elem_of_nil]).
    exists (filter above_post_filter data). split_and!; [done| |].
    + apply Forall_forall. by intros m [? _]%list_elem_of_filter.
    + intros m [_ Hm]%list_elem_of_filter. exists (mkMatchParams v 0.5 K_CHUNKS), data.
      split; [|done]. apply elem_of_cons. right. apply list_elem_of_singleton. done.
  - intros c q chunks t Hrun.
    apply App_get_relevant_chunks_cases in Hrun
      as [[? ->]|[(e & ? & ->)|[(v & e & ? & ->)|(v & data & ? & ->)]]];
      simplify_eq; (split; [intros p Hp; vm_compute in Hp|intros p d Hd]).
    all: try by apply elem_of_nil in Hp.
    all: try by apply elem_of_nil in Hd.
    all: try (apply list_elem_of_singleton in Hp; by subst).
    all: try (apply list_elem_of_singleton in Hd; by simplify_eq).
    all: by rpc_inv Hd.
  - intros c q chunks t Hrun.
    apply RagQuery_get_relevant_chunks_cases in Hrun
      as [[? ->]|[(e & ? & ->)|[(v & e & ? & ->)|(v & data & ? & ->)]]];
      simplify_eq; (split; [intros p Hp; vm_compute in Hp|intros p d Hd]).
    all: try by apply elem_of_nil in Hp.
    all: try by apply elem_of_nil in Hd.
    all: try (apply list_elem_of_singleton in Hp; by subst).
    all: try (apply list_elem_of_singleton in Hd; by simplify_eq).
    all: by rpc_inv Hd.
Qed.

Lemma get_relevant_chunks_post_filter_witness :
  ∃ kept,
    content_with_source <$> filter above_post_filter Scenario.rows
    = content_with_source <$> kept
    ∧ Forall above_post_filter kept
    ∧ ∀ m, m ∈ kept →
        ∃ p data,
          EvRpc p (Return data)
            ∈ [EvEncode "q" (Return [0.5; 0.5]);
               EvRpc Scenario.request (Return Scenario.rows)]
          ∧ m ∈ data.
Proof.
  apply (proj1 get_relevant_chunks_post_filter Scenario.clients "q").
  vm_compute. reflexivity.
Defined.

(** C1 (as stated) fails for rag_query.py: when the service answers with
    one row of similarity 0.6, that row is returned to the caller. *)
Lemma RagQuery_returns_low_similarity :
  run (RagQuery.get_relevant_chunks Scenario.low_clients "q")
  = (Return [content_with_source Scenario.low_row],
     [EvEncode "q" (Return [0.5; 0.5]);
      EvRpc Scenario.request (Return [Scenario.low_row])])
  ∧ ¬ above_post_filter Scenario.low_row
  ∧ ¬ post_filtered RagQuery.get_relevant_chunks.
Proof.
  assert (Hrun : run (RagQuery.get_relevant_chunks Scenario.low_clients "q")
    = (Return [content_with_source Scenario.low_row],
       [EvEncode "q" (Return [0.5; 0.5]);
        EvRpc Scenario.request (Return [Scenario.low_row])]))
    by (vm_compute; reflexivity).
  assert (Hlow : ¬ above_post_filter Scenario.low_row)
    by (vm_compute; discriminate).
  split_and!; [done..|].
  intros H. destruct (H _ _ _ _ Hrun) as (kept & Hk & Hab & Hin).
  destruct kept as [|m kept]; [discriminate|].
  apply Forall_cons in Hab as [Hm _].
  destruct (Hin m) as (p & data & Hev & Hmd); [left|].
  apply rpc_event_singleton in Hev as [_ Hres]; [|by intros].
  injection Hres as ->. apply list_elem_of_singleton in Hmd.
  apply Hlow. by rewrite <- Hmd.
Qed.

(** C3: in both files, when the call to the similarity-search service
    raises or answers with no rows, the retrieval returns the empty list;
    no exception reaches the caller.  In app.py no run of the retrieval
    raises at all. *)
Theorem get_relevant_chunks_absorbs_service_failure :
  absorbs_service_failure App.get_relevant_chunks
  ∧ absorbs_service_failure RagQuery.get_relevant_chunks
  ∧ (∀ c q out t,
       run (App.get_relevant_chunks c q) = (out, t) → ∃ chunks, out = Return chunks).
Proof.
  split_and!.
  - intros c q out t Hrun (p & res & Hev & Hres).
    apply App_get_relevant_chunks_cases in Hrun
      as [[-> ->]|[(e & -> & ->)|[(v & e & -> & ->)|(v & data & -> & ->)]]];
      try done.
    rpc_inv Hev. by destruct Hres as [[= ->]|[? [=]]].
  - intros c q out t Hrun (p & res & Hev & Hres).
    apply RagQuery_get_relevant_chunks_cases in Hrun
      as [[-> ->]|[(e & -> & ->)|[(v & e & -> & ->)|(v & data & -> & ->)]]];
      try done.
    + apply list_elem_of_singleton in Hev. discriminate.
    + rpc_inv Hev. by destruct Hres as [[= ->]|[? [=]]].
  - intros c q out t Hrun.
    apply App_get_relevant_chunks_cases in Hrun
      as [[-> ->]|[(e & -> & ->)|[(v & e & -> & ->)|(v & data & -> & ->)]]];
      eauto.
Qed.

Lemma get_relevant_chunks_absorbs_service_failure_witness :
  (run (App.get_relevant_chunks Scenario.down_clients "q")).1 = Return []
  ∧ (run (RagQuery.get_relevant_chunks Scenario.down_clients "q")).1 = Return [].
Proof.
  split.
  - apply (proj1 get_relevant_chunks_absorbs_service_failure
             Scenario.down_clients "q" _ _ eq_refl).
    exists Scenario.request, (Raise (Exception "connection refused")).
    split; [right; left|right; by eexists].
  - apply (proj1 (proj2 get_relevant_chunks_absorbs_service_failure)
             Scenario.down_clients "q" _ _ eq_refl).
    exists Scenario.request, (Raise (Exception "connection refused")).
    split; [right; left|right; by eexists].
Defined.

Lemma filter_all_rows (data : list Row) : filter (λ _ : Row, True) data = data.
Proof.
  induction data as [|m data IH]; [done|]. by rewrite filter_cons_True, IH.
Qed.

(** C9 (as amended): in both files, when both clients exist and the
    query is embedded, the service is called once, with match_threshold
    0.5 and match_count 5, and no call is made with other values.  What
    is returned renders rows of the service answer in the order of the
    answer: in app.py those above 0.75, in rag_query.py all of them.  The
    code neither truncates nor sorts: at most 5 chunks in descending
    order of similarity are returned whenever the answer of the service
    has at most match_count rows in descending order. *)
Theorem get_relevant_chunks_relays_service_answer :
  (asks_service App.get_relevant_chunks
   ∧ asks_half_and_five App.get_relevant_chunks
   ∧ relays_answer above_post_filter App.get_relevant_chunks
   ∧ bounded_and_sorted App.get_relevant_chunks)
  ∧ (asks_service RagQuery.get_relevant_chunks
     ∧ asks_half_and_five RagQuery.get_relevant_chunks
     ∧ relays_answer (λ _, True) RagQuery.get_relevant_chunks
     ∧ bounded_and_sorted RagQuery.get_relevant_chunks).
Proof.
  split_and!.
  - intros c q enc svc v out t Henc Hsvc Hq. unfold App.get_relevant_chunks.
    rewrite Henc, Hsvc. unfold_m. simpl. rewrite Hq. simpl.
    destruct (svc _); intros [= <- <-]; done.
  - intros c q out t Hrun.
    apply App_get_relevant_chunks_cases in Hrun
      as [[-> ->]|[(e & -> & ->)|[(v & e & -> & ->)|(v & data & -> & ->)]]];
      (split; [intros p Hp; vm_compute in Hp|vm_compute; lia]).
    all: try by apply elem_of_nil in Hp.
    all: apply list_elem_of_singleton in Hp; by subst.
  - intros c q out t p data Hrun Hev.
    apply App_get_relevant_chunks_cases in Hrun
      as [[-> ->]|[(e & -> & ->)|[(v & e & -> & ->)|(v & d & -> & ->)]]].
    + by apply elem_of_nil in Hev.
    + by apply list_elem_of_singleton in Hev.
    + apply rpc_event_singleton in Hev as [_ ?]; [done|by intros].
    + apply rpc_event_singleton in Hev as [_ Hres]; [|by intros].
      by injection Hres as ->.
  - intros c q chunks t Hrun Hsvc.
    apply App_get_relevant_chunks_cases in Hrun
      as [[? ->]|[(e & ? & ->)|[(v & e & ? & ->)|(v & data & ? & ->)]]];
      simplify_eq.
    1-3: exists []; split_and!; [done|simpl; lia|constructor|intros p d Hd].
    1: by apply elem_of_nil in Hd.
    1: apply list_elem_of_singleton in Hd; discriminate.
    1: by rpc_inv Hd.
    destruct (Hsvc (mkMatchParams v 0.5 K_CHUNKS) data) as [Hlen Hsorted];
      [right; left|]. simpl in Hlen.
    pose proof (sublist_filter above_post_filter data) as Hsub.
    exists (filter above_post_filter data). split_and!; [done| | |].
    + rewrite length_fmap. apply sublist_length in Hsub. lia.
    + by apply (StronglySorted_sublist _ _ data).
    + intros p d Hd. by rpc_inv Hd.
  - intros c q enc svc v out t Henc Hsvc Hq. unfold RagQuery.get_relevant_chunks.
    rewrite Henc, Hsvc. unfold_m. simpl. rewrite Hq. simpl.
    destruct (svc _); intros [= <- <-]; done.
  - intros c q out t Hrun.
    apply RagQuery_get_relevant_chunks_cases in Hrun
      as [[-> ->]|[(e & -> & ->)|[(v & e & -> & ->)|(v & data & -> & ->)]]];
      (split; [intros p Hp; vm_compute in Hp|vm_compute; lia]).
    all: try by apply elem_of_nil in Hp.
    all: apply list_elem_of_singleton in Hp; by subst.
  - intros c q out t p data Hrun Hev.
    apply RagQuery_get_relevant_chunks_cases in Hrun
      as [[-> ->]|[(e & -> & ->)|[(v & e & -> & ->)|(v & d & -> & ->)]]].
    + by apply elem_of_nil in Hev.
    + by apply list_elem_of_singleton in Hev.
    + apply rpc_event_singleton in Hev as [_ ?]; [done|by intros].
    + apply rpc_event_singleton in Hev as [_ Hres]; [|by intros].
      injection Hres as ->. by rewrite filter_all_rows.
  - intros c q chunks t Hrun Hsvc.
    apply RagQuery_get_relevant_chunks_cases in Hrun
      as [[? ->]|[(e & ? & ->)|[(v & e & ? & ->)|(v & data & ? & ->)]]];
      simplify_eq.
    1-2: exists []; split_and!; [done|simpl; lia|constructor|intros p d Hd].
    1: by apply elem_of_nil in Hd.
    1: by rpc_inv Hd.
    destruct (Hsvc (mkMatchParams v 0.5 K_CHUNKS) data) as [Hlen Hsorted];
      [right; left|]. simpl in Hlen.
    exists data. split_and!; [done| |done|].
    + by rewrite length_fmap.
    + intros p d Hd. by rpc_inv Hd.
Qed.

Lemma scenario_rows_sorted : StronglySorted desc Scenario.rows.
Proof. repeat constructor. Qed.

Lemma get_relevant_chunks_relays_service_answer_witness :
  rpc_calls (run (App.get_relevant_chunks Scenario.clients "q")).2 = [Scenario.request]
  ∧ ∃ kept,
      content_with_source <$> filter above_post_filter Scenario.rows
      = content_with_source <$> kept
      ∧ length (content_with_source <$> filter above_post_filter Scenario.rows) ≤ K_CHUNKS
      ∧ StronglySorted desc kept
      ∧ ∀ p data,
          EvRpc p (Return data)
            ∈ [EvEncode "q" (Return [0.5; 0.5]);
               EvRpc Scenario.request (Return Scenario.rows)] →
          kept `sublist_of` data.
Proof.
  destruct get_relevant_chunks_relays_service_answer
    as [(Hasks & _ & _ & Hbounded) _].
  split.
  - eapply (Hasks Scenario.clients "q"); [reflexivity|reflexivity|reflexivity|].
    apply surjective_pairing.
  - apply (Hbounded Scenario.clients "q").
    + vm_compute. reflexivity.
    + intros p data Hev.
      apply rpc_event_singleton in Hev as [-> Hres]; [|by intros].
      injection Hres as ->. split; [vm_compute; lia|exact scenario_rows_sorted].
Defined.

(** C9 (as stated) fails in both files: when the service answers with six
    rows, six chunks are returned, one more than k. *)
Lemma get_relevant_chunks_returns_six :
  run (App.get_relevant_chunks Scenario.six_clients "q")
  = (Return (content_with_source <$> Scenario.six_rows),
     [EvEncode "q" (Return [0.5; 0.5]);
      EvRpc Scenario.request (Return Scenario.six_rows)])
  ∧ run (RagQuery.get_relevant_chunks Scenario.six_clients "q")
    = (Return (content_with_source <$> Scenario.six_rows),
       [EvEncode "q" (Return [0.5; 0.5]);
        EvRpc Scenario.request (Return Scenario.six_rows)])
  ∧ length (content_with_source <$> Scenario.six_rows) = 6%nat
  ∧ ¬ at_most_k_sorted App.get_relevant_chunks
  ∧ ¬ at_most_k_sorted RagQuery.get_relevant_chunks.
Proof.
  assert (Happ : run (App.get_relevant_chunks Scenario.six_clients "q")
    = (Return (content_with_source <$> Scenario.six_rows),
       [EvEncode "q" (Return [0.5; 0.5]);
        EvRpc Scenario.request (Return Scenario.six_rows)])) by (vm_compute; reflexivity).
  assert (Hrag : run (RagQuery.get_relevant_chunks Scenario.six_clients "q")
    = (Return (content_with_source <$> Scenario.six_rows),
       [EvEncode "q" (Return [0.5; 0.5]);
        EvRpc Scenario.request (Return Scenario.six_rows)])) by (vm_compute; reflexivity).
  split_and!; [done|done|done| |].
  - intros H. destruct (H _ _ _ _ Happ) as (kept & _ & Hlen & _).
    rewrite length_fmap in Hlen. vm_compute in Hlen. lia.
  - intros H. destruct (H _ _ _ _ Hrag) as (kept & _ & Hlen & _).
    rewrite length_fmap in Hlen. vm_compute in Hlen. lia.
Qed.

(** Nor is the answer sorted by the code: rows sent in ascending order
    of similarity are returned in that order. *)
Example get_relevant_chunks_keeps_service_order :
  (run (App.get_relevant_chunks Scenario.ascending_clients "q")).1
  = Return ["[Fonte: guia.pdf, Score: 0.800] B"; "[Fonte: guia.pdf, Score: 0.900] A"]
  ∧ (run (RagQuery.get_relevant_chunks Scenario.ascending_clients "q")).1
    = Return ["[Fonte: guia.pdf, Score: 0.800] B"; "[Fonte: guia.pdf, Score: 0.900] A"].
Proof. vm_compute. done. Qed.

(** The service answers with similarities 0.9, 0.8, 0.76, 0.6 and 0.4:
    app.py keeps exactly the first three rows, rag_query.py all five. *)
Example scenario_five_rows :
  (run (App.get_relevant_chunks Scenario.clients "q")).1
  = Return ["[Fonte: guia.pdf, Score: 0.900] A"; "[Fonte: guia.pdf, Score: 0.800] B";
            "[Fonte: dieta.pdf, Score: 0.760] C"]
  ∧ (run (RagQuery.get_relevant_chunks Scenario.clients "q")).1
    = Return (content_with_source <$> Scenario.rows).
Proof. vm_compute. done. Qed.

End Retrieval.

(** ** Answer generation *)

Section Answer.

Local Open Scope float_scope.

Lemma float_02_neq_04 : (0.2 : float) ≠ 0.4.
Proof.
  intros H. apply (f_equal (λ x, x <? 0.3)) in H. vm_compute in H. discriminate.
Qed.

(** The shape of every run of the answer function of app.py. *)
Lemma App_generate_rag_answer_cases (c : Clients) (q : string) (matches : list string) out t :
  run (App.generate_rag_answer c q matches) = (out, t) →
  (client_gemini c = None ∧ t = []
   ∧ out = Return ("Erro: Cliente Gemini não inicializado.", "ERROR"))
  ∨ ∃ llm r,
      client_gemini c = Some llm ∧ t = [EvGenerate r (llm r)]
      ∧ model r = LLM_MODEL_NAME
      ∧ temperature r = (if truthy_list matches then 0.2 else 0.4)
      ∧ system_instruction r
        = (if truthy_list matches then App.rag_instruction else App.fallback_instruction)
      ∧ out = Return (match llm r with
                      | Return text => (text, if truthy_list matches then "RAG" else "FALLBACK")
                      | Raise _ => ("Erro ao gerar resposta com o LLM.", "ERROR")
                      end).
Proof.
  unfold App.generate_rag_answer.
  destruct (client_gemini c) as [llm|]; [|unfold_m; intros [= <- <-]; by left].
  intros Hrun. right. exists llm.
  destruct matches as [|m ms]; cbn [truthy_list] in *; unfold_m; simpl in Hrun.
  - match type of Hrun with context [llm ?r] => exists r; destruct (llm r) end;
      simpl in Hrun; injection Hrun as <- <-; done.
  - match type of Hrun with context [llm ?r] => exists r; destruct (llm r) end;
      simpl in Hrun; injection Hrun as <- <-; done.
Qed.

(** The shape of every run of the answer function of rag_query.py. *)
Lemma RagQuery_generate_rag_answer_cases (c : Clients) (q : string) (matches : list string) out t :
  run (RagQuery.generate_rag_answer c q matches) = (out, t) →
  (client_gemini c = None ∧ t = []
   ∧ out = Return "Erro: Cliente Gemini não inicializado. Verifique a chave API no .env.")
  ∨ ∃ llm r,
      client_gemini c = Some llm ∧ t = [EvGenerate r (llm r)]
      ∧ model r = LLM_MODEL_NAME
      ∧ temperature r = 0.2
      ∧ system_instruction r = RagQuery.nutrirag_instruction
      ∧ out = Return (match llm r with
                      | Return text => text
                      | Raise _ => "Erro ao gerar resposta com o LLM."
                      end).
Proof.
  unfold RagQuery.generate_rag_answer.
  destruct (client_gemini c) as [llm|]; [|unfold_m; intros [= <- <-]; by left].
  intros Hrun. right. exists llm. unfold_m.
  match type of Hrun with context [llm ?r] => exists r; destruct (llm r) end;
    simpl in Hrun; injection Hrun as <- <-; done.
Qed.

Lemma truthy_list_nil {A} (l : list A) : truthy_list l = false ↔ l = [].
Proof. by destruct l. Qed.

(** The loop of rag_query.py makes no generation call for a query whose
    retrieval returned nothing: it prints its apology instead. *)
Lemma RagQuery_turn_without_chunks (c : Clients) (q : string) t :
  run (RagQuery.get_relevant_chunks c q) = (Return [], t) →
  run (RagQuery.turn c q)
  = (Return RagQuery.apology,
     t).
Proof.
  unfold RagQuery.turn, run, mbind, M_bind, bind. by intros ->.
Qed.

(** A query with no match above the gate is answered in mode
    ["FALLBACK"], with a text from the LLM. *)
Example App_respond_fallback :
  (run (App.respond Scenario.low_clients "O que é resistência à insulina?")).1
  = Return ("resposta", "FALLBACK").
Proof. vm_compute. reflexivity. Qed.

Example App_respond_grounded_and_error :
  (run (App.respond Scenario.clients "q")).1 = Return ("resposta", "RAG")
  ∧ (run (App.respond Scenario.llm_down_clients "q")).1
    = Return ("Erro ao gerar resposta com o LLM.", "ERROR").
Proof. vm_compute. done. Qed.

End Answer.

(** ** Strings *)

Section Strings.

Lemma app_nil_l_str (s : string) : "" +:+ s = s.
Proof. reflexivity. Qed.

Lemma app_cons_str (a : Ascii.ascii) (s t : string) :
  String a s +:+ t = String a (s +:+ t).
Proof. reflexivity. Qed.

Lemma app_assoc_str (a b c : string) : (a +:+ b) +:+ c = a +:+ b +:+ c.
Proof.
  induction a as [|x a IH]; [done|]. rewrite !app_cons_str. by rewrite IH.
Qed.

Lemma lower_app (a b : string) : lower (a +:+ b) = lower a +:+ lower b.
Proof.
  induction a as [|x a IH]; [done|].
  rewrite app_cons_str. simpl. by rewrite IH, app_cons_str.
Qed.

(** A split of the lower-cased string comes from a split of the string. *)
Lemma lower_app_inv (s a b : string) :
  lower s = a +:+ b → ∃ a' b', s = a' +:+ b' ∧ lower a' = a ∧ lower b' = b.
Proof.
  revert a. induction s as [|x s IH]; intros a Heq.
  - destruct a as [|y a]; [|discriminate]. rewrite app_nil_l_str in Heq. subst b.
    by exists "", "".
  - destruct a as [|y a].
    + rewrite app_nil_l_str in Heq. subst b. by exists "", (String x s).
    + rewrite app_cons_str in Heq. simpl in Heq. injection Heq as Hx Hs.
      destruct (IH a Hs) as (a' & b' & -> & <- & <-).
      exists (String x a'), b'. rewrite app_cons_str. simpl. by rewrite Hx.
Qed.

Lemma startswith_spec (p s : string) :
  startswith p s = true ↔ ∃ rest, s = p +:+ rest.
Proof.
  revert s. induction p as [|a p IH]; intros s; simpl.
  - split; [intros _; by exists s|done].
  - destruct s as [|b s].
    + split; [done|]. intros [rest Hrest]. rewrite app_cons_str in Hrest. discriminate.
    + destruct (Ascii.eqb_spec a b) as [->|Hab].
      * rewrite IH. split; intros [rest Hrest]; exists rest.
        -- by rewrite app_cons_str, Hrest.
        -- rewrite app_cons_str in Hrest. by injection Hrest.
      * split; [done|]. intros [rest Hrest]. rewrite app_cons_str in Hrest.
        injection Hrest as ? _. by destruct Hab.
Qed.

(** [needle in hay] holds exactly when [hay] splits around [needle]. *)
Lemma str_in_spec (needle hay : string) :
  str_in needle hay = true ↔ ∃ pre post, hay = pre +:+ needle +:+ post.
Proof.
  induction hay as [|b hay IH]; simpl.
  - destruct (startswith needle "") eqn:Hsw.
    + apply startswith_spec in Hsw as [rest Hrest].
      split; [intros _; by exists "", rest|done].
    + split; [done|]. intros (pre & post & Heq).
      destruct pre as [|x pre]; [|rewrite app_cons_str in Heq; discriminate].
      rewrite app_nil_l_str in Heq.
      assert (startswith needle "" = true) by (apply startswith_spec; eauto).
      congruence.
  - destruct (startswith needle (String b hay)) eqn:Hsw.
    + apply startswith_spec in Hsw as [rest Hrest].
      split; [intros _; by exists "", rest|done].
    + rewrite IH. split.
      * intros (pre & post & ->). exists (String b pre), post. by rewrite app_cons_str.
      * intros (pre & post & Heq). destruct pre as [|x pre].
        -- rewrite app_nil_l_str in Heq.
           assert (startswith needle (String b hay) = true)
             by (apply startswith_spec; eauto).
           congruence.
        -- rewrite app_cons_str in Heq. injection Heq as _ ->. eauto.
Qed.

(** The test of the code, [keyword in filename.lower()], is the
    case-insensitive search for [keyword]. *)
Lemma str_in_lower (keyword s : string) :
  str_in keyword (lower s) = true ↔ contains_ci keyword s.
Proof.
  rewrite str_in_spec. split.
  - intros (pre & post & Heq).
    apply lower_app_inv in Heq as (pre' & rest & -> & _ & Hrest).
    apply lower_app_inv in Hrest as (mid & post' & -> & Hmid & _).
    by exists pre', mid, post'.
  - intros (pre & mid & post & -> & <-).
    exists (lower pre), (lower post). by rewrite !lower_app.
Qed.

Lemma not_str_in_lower (keyword s : string) :
  str_in keyword (lower s) = false ↔ ¬ contains_ci keyword s.
Proof. rewrite <- str_in_lower. by destruct (str_in _ _). Qed.

(** The helpers on the values met in the program. *)
Example format_3f_examples :
  format_3f 0.9 = "0.900" ∧ format_3f 0.76 = "0.760" ∧ format_3f 0.8125 = "0.812"
  ∧ format_3f 0.9995 = "1.000" ∧ format_3f 1 = "1.000" ∧ format_3f (-0.0001) = "-0.000".
Proof. vm_compute. done. Qed.

Example lower_and_search_examples :
  lower "Guia_DIABETES_Tipo2.PDF" = "guia_diabetes_tipo2.pdf"
  ∧ str_in "diabetes" (lower "Guia_DIABETES_Tipo2.PDF") = true
  ∧ str_in "cancer" (lower "câncer.pdf") = false
  ∧ endswith ".pdf" "notas.txt" = false
  ∧ join "-" ["a"; "b"; "c"] = "a-b-c".
Proof. vm_compute. done. Qed.

End Strings.

(** ** Chunk metadata *)

Section Category.

(** The value of ["doenca"] by the first keyword rule that applies. *)
Lemma doenca_rules (filename : string) :
  (contains_ci "diabetes" filename → IndexDocs.doenca filename = DIABETES)
  ∧ (¬ contains_ci "diabetes" filename →
     contains_ci "cancer" filename ∨ contains_ci "estomago" filename →
     IndexDocs.doenca filename = STOMACH_CANCER)
  ∧ (¬ contains_ci "diabetes" filename →
     ¬ contains_ci "cancer" filename →
     ¬ contains_ci "estomago" filename →
     IndexDocs.doenca filename = GENERAL).
Proof.
  unfold IndexDocs.doenca. split_and!.
  - intros ->%str_in_lower. done.
  - intros ->%not_str_in_lower [->%str_in_lower| ->%str_in_lower]; [done|].
    by rewrite orb_true_r.
  - by intros ->%not_str_in_lower ->%not_str_in_lower ->%not_str_in_lower.
Qed.

(** The loop of [chunk_text] appends one record per segment, numbered
    from [i], all with the same metadata. *)
Lemma chunk_loop_spec (filename : string) (i : nat) (chunks : list string)
    (data : list IndexDocs.Chunk) :
  IndexDocs.chunk_loop filename i chunks data
  = data ++ imap (λ k chunk,
              IndexDocs.mkChunk filename (i + k) chunk
                {[ "doenca" := IndexDocs.doenca filename; "tema" := "nutrição" ]} None)
            chunks.
Proof.
  revert i data. induction chunks as [|chunk chunks IH]; intros i data; simpl.
  - by rewrite app_nil_r.
  - rewrite IH, <- app_assoc. simpl. rewrite Nat.add_0_r. do 2 f_equal.
    apply imap_ext. intros k x _. simpl. f_equal. lia.
Qed.

Lemma chunk_text_elem (env : IndexDocs.Env) (text filename : string) (c : IndexDocs.Chunk) :
  c ∈ IndexDocs.chunk_text env text filename →
  IndexDocs.source c = filename
  ∧ IndexDocs.metadata c !! "doenca" = Some (IndexDocs.doenca filename)
  ∧ ∃ k, IndexDocs.chunk_index c = k
         ∧ IndexDocs.split_text env text !! k = Some (IndexDocs.content c).
Proof.
  unfold IndexDocs.chunk_text. rewrite chunk_loop_spec, app_nil_l.
  intros (k & chunk & -> & Hk)%elem_of_lookup_imap. simpl. split_and!; [done|done|eauto].
Qed.

(** C6: every chunk made from a file carries a category that depends on
    the file name alone, by the keyword rules read in order: a name that
    contains "diabetes" in any letter case gives "Diabetes"; otherwise a
    name that contains "cancer" or "estomago" gives the stomach-cancer
    category; any other name gives the general category. *)
Theorem chunk_text_category (env : IndexDocs.Env) (text filename : string)
    (c : IndexDocs.Chunk) :
  c ∈ IndexDocs.chunk_text env text filename →
  (contains_ci "diabetes" filename →
     IndexDocs.metadata c !! "doenca" = Some DIABETES)
  ∧ (¬ contains_ci "diabetes" filename →
     contains_ci "cancer" filename ∨ contains_ci "estomago" filename →
     IndexDocs.metadata c !! "doenca" = Some STOMACH_CANCER)
  ∧ (¬ contains_ci "diabetes" filename →
     ¬ contains_ci "cancer" filename →
     ¬ contains_ci "estomago" filename →
     IndexDocs.metadata c !! "doenca" = Some GENERAL).
Proof.
  intros (_ & -> & _)%chunk_text_elem.
  destruct (doenca_rules filename) as (Hd & Hc & Hg).
  split_and!; intros; f_equal; auto.
Qed.

(** C10: a file name that contains "diabetes" and also "cancer" or
    "estomago" is tagged "Diabetes": the diabetes rule is tried first. *)
Theorem chunk_text_diabetes_first (env : IndexDocs.Env) (text filename : string)
    (c : IndexDocs.Chunk) :
  contains_ci "diabetes" filename →
  contains_ci "cancer" filename ∨ contains_ci "estomago" filename →
  c ∈ IndexDocs.chunk_text env text filename →
  IndexDocs.metadata c !! "doenca" = Some DIABETES.
Proof.
  intros Hd _ (_ & -> & _)%chunk_text_elem.
  f_equal. by apply doenca_rules.
Qed.

Lemma chunk_text_category_witness :
  IndexDocs.metadata (Scenario.chunk_of "Guia_Diabetes.pdf" DIABETES) !! "doenca"
  = Some DIABETES
  ∧ IndexDocs.metadata (Scenario.chunk_of "Cancer_Estomago.pdf" STOMACH_CANCER) !! "doenca"
    = Some STOMACH_CANCER
  ∧ IndexDocs.metadata (Scenario.chunk_of "Receitas.pdf" GENERAL) !! "doenca"
    = Some GENERAL.
Proof.
  split_and!.
  - apply (chunk_text_category (Scenario.ingest_env 1 9) "Coma fibras. Evite doces."
             "Guia_Diabetes.pdf").
    + vm_compute. left.
    + exists "Guia_", "Diabetes", ".pdf". split; reflexivity.
  - apply (chunk_text_category (Scenario.ingest_env 1 9) "Coma fibras. Evite doces."
             "Cancer_Estomago.pdf").
    + vm_compute. left.
    + apply not_str_in_lower. reflexivity.
    + left. exists "", "Cancer", "_Estomago.pdf". split; reflexivity.
  - apply (chunk_text_category (Scenario.ingest_env 1 9) "Coma fibras. Evite doces."
             "Receitas.pdf").
    + vm_compute. left.
    + apply not_str_in_lower. reflexivity.
    + apply not_str_in_lower. reflexivity.
    + apply not_str_in_lower. reflexivity.
Defined.

Lemma chunk_text_diabetes_first_witness :
  IndexDocs.metadata (Scenario.chunk_of "Diabetes_e_CANCER.pdf" DIABETES) !! "doenca"
  = Some DIABETES.
Proof.
  apply (chunk_text_diabetes_first (Scenario.ingest_env 1 9) "Coma fibras. Evite doces."
           "Diabetes_e_CANCER.pdf").
  - exists "", "Diabetes", "_e_CANCER.pdf". split; reflexivity.
  - left. exists "Diabetes_e_", "CANCER", ".pdf". split; reflexivity.
  - vm_compute. left.
Defined.

End Category.

(** ** Ingestion: extraction and the loop over the documents *)

Section Extraction.

Lemma read_pages_trace (pages : list IndexDocs.Page) (text : string) t out t' :
  IndexDocs.read_pages pages text t = (out, t') → t' = t.
Proof.
  revert text. induction pages as [|[x|e] pages IH]; intros text; simpl.
  - by intros [= _ <-].
  - apply IH.
  - by intros [= _ <-].
Qed.

Lemma read_pages_raise (pages : list IndexDocs.Page) (text : string) t :
  (∃ e, Raise e ∈ pages) → ∃ e, IndexDocs.read_pages pages text t = (Raise e, t).
Proof.
  revert text. induction pages as [|[x|e] pages IH]; intros text [e' He'].
  - by apply elem_of_nil in He'.
  - apply elem_of_cons in He' as [?|He']; [done|]. simpl. eauto.
  - by exists e.
Qed.

(** The extractor never raises, and makes one call to the PDF reader. *)
Lemma extract_text_from_pdf_total (env : IndexDocs.Env) (filepath : string) t :
  ∃ text,
    IndexDocs.extract_text_from_pdf env filepath t
    = (Return text,
       t ++ [IndexDocs.EvPdfReader filepath (IndexDocs.PdfReader env filepath)])
    ∧ (extraction_fails env filepath → text = "").
Proof.
  unfold IndexDocs.extract_text_from_pdf, extraction_fails. unfold_m.
  destruct (IndexDocs.PdfReader env filepath) as [pages|e]; simpl.
  - destruct (IndexDocs.read_pages pages "" _) as [[text|e] t'] eqn:Hread.
    + pose proof (read_pages_trace _ _ _ _ _ Hread) as ->.
      exists text. split; [done|]. intros Hfail.
      destruct (read_pages_raise pages ""
                  (t ++ [IndexDocs.EvPdfReader filepath (Return pages)]) Hfail)
        as [e He]. congruence.
    + pose proof (read_pages_trace _ _ _ _ _ Hread) as ->. by exists "".
  - by exists "".
Qed.

Lemma assign_embeddings_trace (i : nat) (embeddings : list (list float))
    (chunks_data : list IndexDocs.Chunk) t out t' :
  IndexDocs.assign_embeddings i embeddings chunks_data t = (out, t') → t' = t.
Proof.
  revert i chunks_data.
  induction embeddings as [|e embeddings IH]; intros i chunks_data; simpl.
  - by intros [= _ <-].
  - destruct (chunks_data !! i); [apply IH|by intros [= _ <-]].
Qed.

(** Attaching the embeddings changes no other field of a record. *)
Lemma assign_embeddings_sources (i : nat) (embeddings : list (list float))
    (chunks_data : list IndexDocs.Chunk) t out t' :
  IndexDocs.assign_embeddings i embeddings chunks_data t = (Return out, t') →
  IndexDocs.source <$> out = IndexDocs.source <$> chunks_data.
Proof.
  revert i chunks_data.
  induction embeddings as [|e embeddings IH]; intros i chunks_data; simpl.
  - by intros [= <- <-].
  - destruct (chunks_data !! i) as [c|] eqn:Hc; [|done].
    intros ->%IH. rewrite list_fmap_insert. simpl. apply list_insert_id.
    by rewrite list_lookup_fmap, Hc.
Qed.

Lemma generate_embeddings_sources (env : IndexDocs.Env)
    (chunks_data : list IndexDocs.Chunk) t out t' :
  IndexDocs.generate_embeddings env chunks_data t = (out, t') →
  t' = t ++ [IndexDocs.EvEncode (IndexDocs.content <$> chunks_data)
               (IndexDocs.model_encode env (IndexDocs.content <$> chunks_data))]
  ∧ ∀ l, out = Return l → IndexDocs.source <$> l = IndexDocs.source <$> chunks_data.
Proof.
  unfold IndexDocs.generate_embeddings. unfold_m.
  destruct (IndexDocs.model_encode env _) as [embeddings|e].
  - intros Hassign. pose proof (assign_embeddings_trace _ _ _ _ _ _ Hassign) as ->.
    split; [done|]. intros l ->. by eapply assign_embeddings_sources.
  - intros [= <- <-]. split; done.
Qed.

Lemma post_calls_snoc_other (t : list IndexDocs.Event) (ev : IndexDocs.Event) :
  (∀ url payload res, ev ≠ IndexDocs.EvPost url payload res) →
  post_calls (t ++ [ev]) = post_calls t.
Proof.
  intros Hev. unfold post_calls. rewrite omap_app. simpl.
  destruct ev; try by rewrite app_nil_r. by destruct (Hev url payload res).
Qed.

(** The loop over the documents posts nothing, and every record it adds
    comes from a document of the list whose extraction did not fail. *)
Lemma process_files_spec (env : IndexDocs.Env) (pdf_files : list string)
    (total : list IndexDocs.Chunk) t out t' :
  IndexDocs.process_files env pdf_files total t = (out, t') →
  post_calls t' = post_calls t
  ∧ ∀ l, out = Return l → ∀ c, c ∈ l →
      c ∈ total
      ∨ (IndexDocs.source c ∈ pdf_files
         ∧ ¬ extraction_fails env
               (IndexDocs.path_join IndexDocs.DOCS_DIR (IndexDocs.source c))).
Proof.
  revert total t. induction pdf_files as [|f rest IH]; intros total t; simpl.
  - intros [= <- <-]. split; [done|]. intros l [= <-] c Hc. by left.
  - unfold mbind, M_bind, bind.
    destruct (extract_text_from_pdf_total env
                (IndexDocs.path_join IndexDocs.DOCS_DIR f) t) as (text & -> & Hfail).
    set (t1 := t ++ [_]).
    assert (Ht1 : post_calls t1 = post_calls t)
      by (by apply post_calls_snoc_other).
    destruct (truthy_str text) eqn:Htext.
    + destruct (IndexDocs.generate_embeddings env _ t1) as [[l'|e] t2] eqn:Hgen.
      * apply generate_embeddings_sources in Hgen as [-> Hsrc].
        specialize (Hsrc l' eq_refl).
        intros [Hposts Hin]%IH. split.
        { rewrite Hposts, post_calls_snoc_other; done. }
        intros l -> c Hc. destruct (Hin _ eq_refl c Hc) as [Hc'|[Hc' ?]].
        -- apply elem_of_app in Hc' as [?|Hc']; [by left|]. right.
           assert (Hs : IndexDocs.source c ∈ IndexDocs.source <$> l')
             by (by apply list_elem_of_fmap_2).
           rewrite Hsrc in Hs. apply list_elem_of_fmap in Hs as (c0 & -> & Hc0).
           apply chunk_text_elem in Hc0 as [-> _]. split; [left|].
           intros ->%Hfail. discriminate.
        -- right. split; [by right|done].
      * apply generate_embeddings_sources in Hgen as [-> _].
        intros [= <- <-]. split; [|done]. rewrite post_calls_snoc_other; done.
    + intros [Hposts Hin]%IH. split; [congruence|].
      intros l -> c Hc. destruct (Hin _ eq_refl c Hc) as [?|[? ?]]; [by left|].
      right. split; [by right|done].
Qed.

End Extraction.

(** ** Ingestion: bulk insertion *)

Section Insertion.

Local Arguments post_ok : simpl never.

Lemma raise_for_status_ok (status_code : nat) (t : list IndexDocs.Event) :
  IndexDocs.raise_for_status status_code t
  = (if post_ok (Return status_code) then Return () else Raise (HTTPError status_code), t).
Proof.
  unfold IndexDocs.raise_for_status, post_ok.
  by destruct ((400 <=? status_code) && (status_code <? 600)).
Qed.

(** One pass through the loop body: one POST is logged; the count grows
    by the size of the batch when the POST succeeded, and the loop is
    left when it did not. *)
Lemma insert_batch_spec (env : IndexDocs.Env) (batch_data : list IndexDocs.Chunk)
    (success_count : nat) (t : list IndexDocs.Event) :
  let res := IndexDocs.requests_post env t (IndexDocs.INSERT_URL env) batch_data in
  IndexDocs.insert_batch env batch_data success_count t
  = (Return (if post_ok res then (success_count + length batch_data, false)
             else (success_count, true)),
     t ++ [post_event env (batch_data, res)]).
Proof.
  intros res. unfold IndexDocs.insert_batch, IndexDocs.post. unfold_m. fold res.
  unfold post_event. cbn [fst snd]. destruct res as [status_code|e].
  - rewrite raise_for_status_ok.
    by destruct (post_ok (Return status_code)).
  - change (post_ok (Raise e)) with false. by destruct e.
Qed.

Lemma inserted_cons (p : Post) (posts : list Post) :
  inserted (p :: posts)
  = (if post_ok p.2 then length p.1 else 0) + inserted posts.
Proof.
  unfold inserted. rewrite filter_cons.
  destruct (decide (post_ok p.2 = true)) as [->|Hp]; [done|].
  apply not_true_is_false in Hp. by rewrite Hp.
Qed.

Lemma insert_loop_spec (env : IndexDocs.Env) (chunks_data : list IndexDocs.Chunk)
    (starts : list nat) (success_count : nat) t out t' :
  IndexDocs.insert_loop env chunks_data starts success_count t = (out, t') →
  ∃ posts : list Post,
    t' = t ++ (post_event env <$> posts)
    ∧ posts.*1 `prefix_of`
        ((λ i, take IndexDocs.BATCH_SIZE (drop i chunks_data)) <$> starts)
    ∧ (∀ j p, posts !! j = Some p → post_ok p.2 = false → S j = length posts)
    ∧ (length posts < length starts →
       ∃ p, last posts = Some p ∧ post_ok p.2 = false)
    ∧ (∀ j p, posts !! j = Some p →
         p.2 = IndexDocs.requests_post env (t ++ (post_event env <$> take j posts))
                 (IndexDocs.INSERT_URL env) p.1)
    ∧ out = Return (success_count + inserted posts).
Proof.
  revert success_count t. induction starts as [|i rest IH]; intros sc t; simpl.
  - intros [= <- <-]. exists []. split_and!; simpl.
    + by rewrite app_nil_r.
    + apply prefix_nil.
    + intros j p Hj; by rewrite lookup_nil in Hj.
    + lia.
    + intros j p Hj; by rewrite lookup_nil in Hj.
    + unfold inserted. simpl. by rewrite Nat.add_0_r.
  - unfold mbind, M_bind, bind. rewrite insert_batch_spec.
    set (b := take IndexDocs.BATCH_SIZE (drop i chunks_data)).
    set (res := IndexDocs.requests_post env t (IndexDocs.INSERT_URL env) b).
    destruct (post_ok res) eqn:Hok.
    + intros (posts & -> & Hpre & Hlast & Hstop & Horacle & ->)%IH.
      exists ((b, res) :: posts). split_and!.
      * by rewrite fmap_cons, <- app_assoc.
      * rewrite fmap_cons. by apply prefix_cons.
      * intros [|j] p; simpl; [intros [= <-]; simpl; congruence|].
        intros Hj Hp. f_equal. by eapply Hlast.
      * simpl. intros Hlen.
        destruct Hstop as (p & Hp & Hpok); [lia|]. exists p. split; [|done].
        destruct posts; [done|]. by rewrite last_cons_cons.
      * intros [|j] p; simpl; [intros [= <-]; simpl; by rewrite app_nil_r|].
        intros Hj. rewrite (Horacle j p Hj). by rewrite <- app_assoc.
      * rewrite inserted_cons. simpl. rewrite Hok. f_equal. lia.
    + intros [= <- <-]. exists [(b, res)]. split_and!.
      * done.
      * rewrite fmap_cons. apply prefix_cons, prefix_nil.
      * intros [|j] p; simpl; [done|]. intros Hj; by rewrite lookup_nil in Hj.
      * intros _. by exists (b, res).
      * intros [|j] p; simpl; [intros [= <-]; simpl; by rewrite app_nil_r|].
        intros Hj; by rewrite lookup_nil in Hj.
      * rewrite inserted_cons. simpl. rewrite Hok. unfold inserted. simpl.
        f_equal. lia.
Qed.

(** *** The batches of a full insertion *)

Lemma range_step_length (stop : nat) :
  length (IndexDocs.range_step stop IndexDocs.BATCH_SIZE) = (stop + 499) / 500.
Proof.
  unfold IndexDocs.range_step, IndexDocs.BATCH_SIZE.
  rewrite length_fmap, length_seq. f_equal. lia.
Qed.

Lemma batches_lookup (chunks_data : list IndexDocs.Chunk) (j : nat) b :
  batches chunks_data !! j = Some b ↔
  j < (length chunks_data + 499) / 500 ∧ b = take 500 (drop (j * 500) chunks_data).
Proof.
  unfold batches, IndexDocs.range_step, IndexDocs.BATCH_SIZE.
  rewrite !list_lookup_fmap.
  replace (length chunks_data + 500 - 1) with (length chunks_data + 499) by lia.
  destruct (seq 0 _ !! j) as [k|] eqn:Hk; simpl.
  - apply lookup_seq in Hk as [-> Hj]. simpl. split.
    + by intros [= <-].
    + by intros [_ ->].
  - split; [done|]. intros [Hj _].
    assert (is_Some (seq 0 ((length chunks_data + 499) / 500) !! j)) as [k Hk'].
    { apply lookup_lt_is_Some. by rewrite length_seq. }
    congruence.
Qed.

Lemma concat_batches_take (chunks_data : list IndexDocs.Chunk) (m : nat) :
  concat ((λ k, take 500 (drop (k * 500) chunks_data)) <$> seq 0 m)
  = take (m * 500) chunks_data.
Proof.
  induction m as [|m IH]; [done|].
  rewrite seq_S, fmap_app, concat_app, IH. simpl. rewrite app_nil_r.
  rewrite take_take_drop. f_equal. lia.
Qed.

(** The batches cut the list into consecutive pieces of 500 records, the
    last piece holding what is left. *)
Lemma batches_partition (chunks_data : list IndexDocs.Chunk) :
  concat (batches chunks_data) = chunks_data
  ∧ (∀ j b, batches chunks_data !! j = Some b →
       0 < length b ≤ IndexDocs.BATCH_SIZE
       ∧ (S j < length (batches chunks_data) → length b = IndexDocs.BATCH_SIZE)).
Proof.
  split.
  - unfold batches, IndexDocs.range_step, IndexDocs.BATCH_SIZE.
    rewrite <- list_fmap_compose.
    change (concat ((λ k, take 500 (drop (k * 500) chunks_data))
                      <$> seq 0 ((length chunks_data + 500 - 1) / 500)) = chunks_data).
    rewrite concat_batches_take. apply take_ge.
    pose proof (Nat.div_mod_eq (length chunks_data + 500 - 1) 500).
    pose proof (Nat.mod_upper_bound (length chunks_data + 500 - 1) 500). lia.
  - intros j b [Hj ->]%batches_lookup.
    unfold batches. rewrite length_fmap, range_step_length.
    unfold IndexDocs.BATCH_SIZE. rewrite length_take, length_drop.
    pose proof (Nat.div_mod_eq (length chunks_data + 499) 500).
    pose proof (Nat.mod_upper_bound (length chunks_data + 499) 500). lia.
Qed.

Lemma batches_subseteq (chunks_data : list IndexDocs.Chunk) b :
  b ∈ batches chunks_data → b ⊆ chunks_data.
Proof.
  intros (j & Hj)%list_elem_of_lookup. apply batches_lookup in Hj as [_ ->].
  etrans; [apply subseteq_take|apply subseteq_drop].
Qed.

Lemma insert_data_trace (env : IndexDocs.Env) (chunks_data : list IndexDocs.Chunk)
    t out t' :
  IndexDocs.insert_data_to_supabase_api env chunks_data t = (out, t') →
  ∃ posts : list Post,
    t' = t ++ (post_event env <$> posts)
    ∧ posts.*1 `prefix_of` batches chunks_data.
Proof.
  unfold IndexDocs.insert_data_to_supabase_api, mbind, M_bind, bind.
  destruct (IndexDocs.insert_loop env chunks_data _ 0 t) as [o t1] eqn:Hloop.
  apply insert_loop_spec in Hloop as (posts & -> & Hpre & _ & _ & _ & ->).
  simpl. intros Hout. exists posts. split; [|done].
  destruct (inserted posts =? length chunks_data); by injection Hout as _ <-.
Qed.

(** C4: the insertion posts the batches of the list in order, each of
    500 records but for the last one, which holds what is left; a POST
    that fails (the call raises, or the status is an HTTP error) is the
    last POST of the run; the run stops before the last batch only after
    such a failure; and the count that is reported is the number of
    records of the batches whose POST succeeded. *)
Theorem insert_data_halts_on_first_failure (env : IndexDocs.Env)
    (chunks_data : list IndexDocs.Chunk) t out t' :
  IndexDocs.insert_data_to_supabase_api env chunks_data t = (out, t') →
  ∃ posts : list Post,
    t' = t ++ (post_event env <$> posts)
    ∧ posts.*1 `prefix_of` batches chunks_data
    ∧ concat (batches chunks_data) = chunks_data
    ∧ (∀ j b, batches chunks_data !! j = Some b →
         0 < length b ≤ 500
         ∧ (S j < length (batches chunks_data) → length b = 500))
    ∧ (∀ j p, posts !! j = Some p → post_ok p.2 = false → S j = length posts)
    ∧ (length posts < length (batches chunks_data) →
       ∃ p, last posts = Some p ∧ post_ok p.2 = false)
    ∧ (∀ j p, posts !! j = Some p →
         p.2 = IndexDocs.requests_post env (t ++ (post_event env <$> take j posts))
                 (IndexDocs.INSERT_URL env) p.1)
    ∧ out = Return (if inserted posts =? length chunks_data
                    then IndexDocs.Completa (length chunks_data)
                    else IndexDocs.Parcial (inserted posts) (length chunks_data)).
Proof.
  unfold IndexDocs.insert_data_to_supabase_api, mbind, M_bind, bind.
  destruct (IndexDocs.insert_loop env chunks_data _ 0 t) as [o t1] eqn:Hloop.
  apply insert_loop_spec in Hloop
    as (posts & -> & Hpre & Hlast & Hstop & Horacle & ->).
  simpl. intros Hout. exists posts.
  destruct (batches_partition chunks_data) as [Hcat Hsize].
  assert (Hres : out = Return (if inserted posts =? length chunks_data
                               then IndexDocs.Completa (length chunks_data)
                               else IndexDocs.Parcial (inserted posts) (length chunks_data))
                 ∧ t' = t ++ (post_event env <$> posts)).
  { destruct (inserted posts =? length chunks_data); by injection Hout as <- <-. }
  destruct Hres as [-> ->].
  split_and!; try done.
  intros Hlen. apply Hstop. unfold batches in Hlen.
  by rewrite length_fmap in Hlen.
Qed.

Lemma insert_data_halts_on_first_failure_witness :
  ∃ posts : list Post,
    (run (IndexDocs.insert_data_to_supabase_api (Scenario.ingest_env 1 1)
            (Scenario.records 1200))).2
    = post_event (Scenario.ingest_env 1 1) <$> posts
    ∧ posts.*1 `prefix_of` batches (Scenario.records 1200)
    ∧ (run (IndexDocs.insert_data_to_supabase_api (Scenario.ingest_env 1 1)
              (Scenario.records 1200))).1
      = Return (if inserted posts =? 1200
                then IndexDocs.Completa 1200
                else IndexDocs.Parcial (inserted posts) 1200).
Proof.
  destruct (insert_data_halts_on_first_failure (Scenario.ingest_env 1 1)
              (Scenario.records 1200) [] _ _ (surjective_pairing _))
    as (posts & Ht & Hpre & _ & _ & _ & _ & _ & Hout).
  exists posts. split_and!; [exact Ht|exact Hpre|].
  unfold run. rewrite Hout. unfold Scenario.records. by rewrite length_fmap, length_seq.
Defined.

(** With 1200 records and a second POST answered with status 401, two
    POSTs are made and 500 of 1200 records are reported. *)
Example insert_data_second_batch_fails :
  let r := run (IndexDocs.insert_data_to_supabase_api (Scenario.ingest_env 1 1)
                  (Scenario.records 1200)) in
  r.1 = Return (IndexDocs.Parcial 500 1200)
  ∧ (length <$> (post_calls r.2).*1) = [500; 500]
  ∧ (post_calls r.2).*2 = [Return 201; Return 401].
Proof. vm_compute. done. Qed.

(** When every POST is accepted the three batches of 1200 records are
    posted and the insertion is reported complete. *)
Example insert_data_all_batches :
  let r := run (IndexDocs.insert_data_to_supabase_api (Scenario.ingest_env 1 9)
                  (Scenario.records 1200)) in
  r.1 = Return (IndexDocs.Completa 1200)
  ∧ (length <$> (post_calls r.2).*1) = [500; 500; 200].
Proof. vm_compute. done. Qed.

End Insertion.

(** ** Ingestion: a whole run *)

Section Run.

Lemma post_event_elem (t : list IndexDocs.Event) url payload res :
  IndexDocs.EvPost url payload res ∈ t → (payload, res) ∈ post_calls t.
Proof.
  intros Hin. unfold post_calls. apply list_elem_of_omap.
  by exists (IndexDocs.EvPost url payload res).
Qed.

(** Every record posted by a run of [main] comes from a document of the
    directory whose extraction did not fail. *)
Lemma main_posts_sources (env : IndexDocs.Env) out t url payload res c :
  run (IndexDocs.main env) = (out, t) →
  IndexDocs.EvPost url payload res ∈ t →
  c ∈ payload →
  ¬ extraction_fails env (IndexDocs.path_join IndexDocs.DOCS_DIR (IndexDocs.source c)).
Proof.
  unfold run, IndexDocs.main.
  destruct (_ || _).
  { intros [= _ <-] Hin. by apply elem_of_nil in Hin. }
  destruct (negb (IndexDocs.path_exists env IndexDocs.DOCS_DIR)).
  { unfold mbind, M_bind, bind, call.
    destruct (IndexDocs.makedirs env IndexDocs.DOCS_DIR) as [[]|e];
      intros [= _ <-] Hin; simpl in Hin; apply list_elem_of_singleton in Hin;
      discriminate. }
  destruct (IndexDocs.listdir env IndexDocs.DOCS_DIR) as [entries|e].
  2:{ intros [= _ <-] Hin. by apply elem_of_nil in Hin. }
  set (pdf_files := filter _ _).
  destruct (negb (truthy_list pdf_files)).
  { intros [= _ <-] Hin. by apply elem_of_nil in Hin. }
  unfold mbind, M_bind, bind.
  destruct (IndexDocs.process_files env pdf_files [] []) as [[total|e] t1] eqn:Hp;
    apply process_files_spec in Hp as [Hposts Hsrc].
  - destruct (truthy_list total).
    + destruct (IndexDocs.insert_data_to_supabase_api env total t1)
        as [o2 t2] eqn:Hins.
      apply insert_data_trace in Hins as (posts & -> & Hpre).
      intros Hrun Hin Hc.
      assert (t = t1 ++ (post_event env <$> posts)) as ->.
      { destruct o2; by injection Hrun as _ <-. }
      apply post_event_elem in Hin. unfold post_calls in Hin.
      rewrite omap_app in Hin. fold (post_calls t1) in Hin.
      rewrite Hposts in Hin. simpl in Hin.
      apply list_elem_of_omap in Hin as (ev & Hev & Hpost).
      apply list_elem_of_fmap in Hev as (p & -> & Hp). simpl in Hpost.
      injection Hpost as Hpayload _.
      assert (Hb : payload ∈ batches total).
      { destruct Hpre as [k ->]. apply elem_of_app. left.
        rewrite <- Hpayload. by apply list_elem_of_fmap_2. }
      apply batches_subseteq in Hb.
      destruct (Hsrc total eq_refl c (Hb c Hc)) as [Hnil|[_ ?]]; [|done].
      by apply elem_of_nil in Hnil.
    + intros [= _ <-] Hin. apply post_event_elem in Hin. rewrite Hposts in Hin.
      by apply elem_of_nil in Hin.
  - intros [= _ <-] Hin. apply post_event_elem in Hin. rewrite Hposts in Hin.
    by apply elem_of_nil in Hin.
Qed.

(** C5: when the extraction of a document fails, the extractor returns
    the empty string and does not raise; the loop over the documents
    goes on with the next document as if this one had not been listed,
    but for the logged call to the reader; no chunk of the accumulated
    list and no record of any POST of the run comes from this
    document. *)
Theorem failed_extraction_skips_document (env : IndexDocs.Env) (filename : string) :
  let filepath := IndexDocs.path_join IndexDocs.DOCS_DIR filename in
  let read := IndexDocs.EvPdfReader filepath (IndexDocs.PdfReader env filepath) in
  extraction_fails env filepath →
  (∀ t, IndexDocs.extract_text_from_pdf env filepath t = (Return "", t ++ [read]))
  ∧ (∀ rest total t,
       IndexDocs.process_files env (filename :: rest) total t
       = IndexDocs.process_files env rest total (t ++ [read]))
  ∧ (∀ pdf_files total t c,
       run (IndexDocs.process_files env pdf_files []) = (Return total, t) →
       c ∈ total → IndexDocs.source c ≠ filename)
  ∧ (∀ out t url payload res c,
       run (IndexDocs.main env) = (out, t) →
       IndexDocs.EvPost url payload res ∈ t →
       c ∈ payload → IndexDocs.source c ≠ filename).
Proof.
  intros filepath read Hfail.
  assert (Hext : ∀ t, IndexDocs.extract_text_from_pdf env filepath t
                      = (Return "", t ++ [read])).
  { intros t. destruct (extract_text_from_pdf_total env filepath t)
      as (text & -> & Htext). by rewrite (Htext Hfail). }
  split_and!.
  - done.
  - intros rest total t. simpl. unfold mbind, M_bind, bind.
    fold filepath. by rewrite Hext.
  - intros pdf_files total t c Hrun Hc Heq.
    apply process_files_spec in Hrun as [_ Hsrc].
    destruct (Hsrc total eq_refl c Hc) as [Hnil|[_ Hok]].
    + by apply elem_of_nil in Hnil.
    + apply Hok. by rewrite Heq.
  - intros out t url payload res c Hrun Hin Hc Heq.
    apply (main_posts_sources env out t url payload res c Hrun Hin Hc).
    by rewrite Heq.
Qed.

Lemma failed_extraction_skips_document_witness :
  (∀ t, IndexDocs.extract_text_from_pdf (Scenario.ingest_env 1 9) "docs/corrompido.pdf" t
        = (Return "",
           t ++ [IndexDocs.EvPdfReader "docs/corrompido.pdf"
                   (Raise (Exception "EOF marker not found"))]))
  ∧ (∀ rest total t,
       IndexDocs.process_files (Scenario.ingest_env 1 9) ("corrompido.pdf" :: rest) total t
       = IndexDocs.process_files (Scenario.ingest_env 1 9) rest total
           (t ++ [IndexDocs.EvPdfReader "docs/corrompido.pdf"
                    (Raise (Exception "EOF marker not found"))]))
  ∧ (∀ pdf_files total t c,
       run (IndexDocs.process_files (Scenario.ingest_env 1 9) pdf_files [])
       = (Return total, t) →
       c ∈ total → IndexDocs.source c ≠ "corrompido.pdf")
  ∧ (∀ out t url payload res c,
       run (IndexDocs.main (Scenario.ingest_env 1 9)) = (out, t) →
       IndexDocs.EvPost url payload res ∈ t →
       c ∈ payload → IndexDocs.source c ≠ "corrompido.pdf").
Proof.
  apply (failed_extraction_skips_document (Scenario.ingest_env 1 9) "corrompido.pdf").
  vm_compute. exact I.
Defined.

(** A run over the directory of the scenario: the corrupt file and the
    text file give no record, the other three files give one record
    each, posted in one batch. *)
Example main_skips_corrupt_document :
  let r := run (IndexDocs.main (Scenario.ingest_env 1 9)) in
  r.1 = Return (IndexDocs.Inserted (IndexDocs.Completa 3))
  ∧ ((λ payload : list IndexDocs.Chunk, IndexDocs.source <$> payload)
       <$> (post_calls r.2).*1)
    = [["Guia_Diabetes.pdf"; "Cancer_Estomago.pdf"; "Receitas.pdf"]].
Proof. vm_compute. done. Qed.

End Run.

(** * Further properties of the code *)

Import RunProps.

(** ** src/index_docs.py: extraction, chunking and embedding *)

Section IngestionSteps.

Lemma app_nil_r_str (s : string) : s +:+ "" = s.
Proof. induction s as [|a s IH]; [done|]. by rewrite app_cons_str, IH. Qed.

Lemma read_pages_all (texts : list (option string)) (acc : string) t :
  IndexDocs.read_pages (Return <$> texts) acc t
  = (Return (acc +:+ concat_str (or_empty <$> texts)), t).
Proof.
  revert acc. induction texts as [|x texts IH]; intros acc; simpl.
  - unfold concat_str. simpl. by rewrite app_nil_r_str.
  - rewrite IH. unfold concat_str. simpl. by rewrite app_assoc_str.
Qed.

(** X1: when the reader opens the file and no page raises, the
    extracted text is the texts of the pages in page order, a page
    without text counting as the empty string. *)
Theorem extract_text_concatenates_pages (env : IndexDocs.Env) (filepath : string)
    (texts : list (option string)) t :
  IndexDocs.PdfReader env filepath = Return (Return <$> texts) →
  IndexDocs.extract_text_from_pdf env filepath t
  = (Return (concat_str (or_empty <$> texts)),
     t ++ [IndexDocs.EvPdfReader filepath (Return (Return <$> texts))]).
Proof.
  intros Hread. unfold IndexDocs.extract_text_from_pdf. unfold_m.
  rewrite Hread. by rewrite read_pages_all.
Qed.

Lemma extract_text_concatenates_pages_witness :
  IndexDocs.extract_text_from_pdf (Scenario.ingest_env 1 9) "docs/Receitas.pdf" []
  = (Return "Coma fibras. Evite doces.",
     [IndexDocs.EvPdfReader "docs/Receitas.pdf"
        (Return [Return (Some "Coma fibras. "); Return None;
                 Return (Some "Evite doces.")])]).
Proof.
  apply (extract_text_concatenates_pages (Scenario.ingest_env 1 9) "docs/Receitas.pdf"
           [Some "Coma fibras. "; None; Some "Evite doces."] []).
  reflexivity.
Defined.

(** X2: the extractor never raises, whatever the reader and the pages
    do, and calls the reader exactly once. *)
Theorem extract_text_never_raises (env : IndexDocs.Env) (filepath : string) t :
  ∃ text,
    IndexDocs.extract_text_from_pdf env filepath t
    = (Return text,
       t ++ [IndexDocs.EvPdfReader filepath (IndexDocs.PdfReader env filepath)]).
Proof.
  destruct (extract_text_from_pdf_total env filepath t) as (text & Htext & _).
  by exists text.
Qed.

(** X3: [chunk_text] makes one record per segment of the splitter, in
    order: the [k]-th record has index [k], the [k]-th segment as
    content, the file name as source, the two metadata entries and no
    embedding.  No segment gives no record. *)
Theorem chunk_text_records (env : IndexDocs.Env) (text filename : string) :
  length (IndexDocs.chunk_text env text filename)
  = length (IndexDocs.split_text env text)
  ∧ ∀ k,
      IndexDocs.chunk_text env text filename !! k
      = (λ segment,
           IndexDocs.mkChunk filename k segment
             {[ "doenca" := IndexDocs.doenca filename; "tema" := "nutrição" ]} None)
        <$> IndexDocs.split_text env text !! k.
Proof.
  unfold IndexDocs.chunk_text. rewrite chunk_loop_spec, app_nil_l. split.
  - by rewrite length_imap.
  - intros k. rewrite list_lookup_imap. by destruct (_ !! k).
Qed.

(** The embeddings are attached from position [i] on; the records
    before [i] and after the last embedding are kept. *)
Lemma assign_embeddings_lookup (i : nat) (embeddings : list (list float))
    (chunks_data : list IndexDocs.Chunk) t :
  i + length embeddings ≤ length chunks_data →
  ∃ out,
    IndexDocs.assign_embeddings i embeddings chunks_data t = (Return out, t)
    ∧ length out = length chunks_data
    ∧ ∀ k c, chunks_data !! k = Some c →
        out !! k = Some (if decide (i ≤ k) then attach c (embeddings !! (k - i)) else c).
Proof.
  revert i chunks_data.
  induction embeddings as [|e embeddings IH]; intros i chunks_data Hlen; simpl in *.
  - exists chunks_data. split_and!; [done..|]. intros k c Hk.
    destruct (decide _); [|done]. by destruct (k - i).
  - destruct (chunks_data !! i) as [ci|] eqn:Hi.
    2:{ apply lookup_ge_None in Hi. lia. }
    set (cd' := <[i:=_]> chunks_data).
    destruct (IH (S i) cd') as (out & Hrun & Hlen' & Hout).
    { unfold cd'. rewrite length_insert. lia. }
    exists out. split_and!; [done|by rewrite Hlen'; apply length_insert|].
    intros k c Hk. destruct (decide (k = i)) as [->|Hne].
    + assert (Hc : cd' !! i = Some (attach ci (Some e))).
      { unfold cd'. apply list_lookup_insert_eq. by eapply lookup_lt_Some. }
      rewrite (Hout i _ Hc). rewrite Hi in Hk. injection Hk as <-.
      rewrite decide_False by lia. rewrite decide_True by lia.
      by rewrite Nat.sub_diag.
    + assert (Hc : cd' !! k = Some c).
      { unfold cd'. by rewrite list_lookup_insert_ne. }
      rewrite (Hout k c Hc).
      destruct (decide (S i ≤ k)), (decide (i ≤ k)); try lia; [|done].
      replace (k - i) with (S (k - S i)) by lia. done.
Qed.

(** X4: when the encoder returns no more embeddings than there are
    records, [generate_embeddings] returns the records in their order,
    the [k]-th one with the [k]-th embedding and no other field changed;
    records beyond the last embedding are returned without one. *)
Theorem generate_embeddings_attaches (env : IndexDocs.Env)
    (chunks_data : list IndexDocs.Chunk) (embeddings : list (list float)) t :
  IndexDocs.model_encode env (IndexDocs.content <$> chunks_data) = Return embeddings →
  length embeddings ≤ length chunks_data →
  ∃ out,
    IndexDocs.generate_embeddings env chunks_data t
    = (Return out,
       t ++ [IndexDocs.EvEncode (IndexDocs.content <$> chunks_data) (Return embeddings)])
    ∧ length out = length chunks_data
    ∧ ∀ k c, chunks_data !! k = Some c → out !! k = Some (attach c (embeddings !! k)).
Proof.
  intros Henc Hlen. unfold IndexDocs.generate_embeddings. unfold_m. rewrite Henc.
  destruct (assign_embeddings_lookup 0 embeddings chunks_data
              (t ++ [IndexDocs.EvEncode (IndexDocs.content <$> chunks_data)
                       (Return embeddings)]))
    as (out & -> & Hl & Hout); [simpl; lia|].
  exists out. split_and!; [done..|]. intros k c Hk.
  rewrite (Hout k c Hk). rewrite decide_True by lia. by rewrite Nat.sub_0_r.
Qed.

Lemma generate_embeddings_attaches_witness :
  ∃ out,
    IndexDocs.generate_embeddings (RunScenario.encode_env 1)
      (IndexDocs.chunk_text (RunScenario.encode_env 1) "Coma fibras." "Guia_Diabetes.pdf") []
    = (Return out,
       [] ++ [IndexDocs.EvEncode
                (IndexDocs.content
                   <$> IndexDocs.chunk_text (RunScenario.encode_env 1) "Coma fibras."
                         "Guia_Diabetes.pdf")
                (Return [[1; 0]%float])])
    ∧ length out
      = length (IndexDocs.chunk_text (RunScenario.encode_env 1) "Coma fibras."
                  "Guia_Diabetes.pdf")
    ∧ ∀ k c,
        IndexDocs.chunk_text (RunScenario.encode_env 1) "Coma fibras." "Guia_Diabetes.pdf"
          !! k = Some c →
        out !! k = Some (attach c ([[1; 0]%float] !! k)).
Proof.
  apply (generate_embeddings_attaches (RunScenario.encode_env 1)).
  - reflexivity.
  - vm_compute. lia.
Defined.

Lemma assign_embeddings_overflow (i : nat) (embeddings : list (list float))
    (chunks_data : list IndexDocs.Chunk) t :
  i ≤ length chunks_data →
  length chunks_data < i + length embeddings →
  IndexDocs.assign_embeddings i embeddings chunks_data t
  = (Raise (Exception "IndexError"), t).
Proof.
  revert i chunks_data.
  induction embeddings as [|e embeddings IH]; intros i chunks_data Hi Hlen; simpl in *.
  - lia.
  - destruct (chunks_data !! i) as [ci|] eqn:Hci; [|done].
    apply lookup_lt_Some in Hci. apply IH; rewrite length_insert; lia.
Qed.

(** X5: when the encoder returns more embeddings than there are
    records, [generate_embeddings] raises [IndexError] after the call to
    the encoder. *)
Theorem generate_embeddings_too_many (env : IndexDocs.Env)
    (chunks_data : list IndexDocs.Chunk) (embeddings : list (list float)) t :
  IndexDocs.model_encode env (IndexDocs.content <$> chunks_data) = Return embeddings →
  length chunks_data < length embeddings →
  IndexDocs.generate_embeddings env chunks_data t
  = (Raise (Exception "IndexError"),
     t ++ [IndexDocs.EvEncode (IndexDocs.content <$> chunks_data) (Return embeddings)]).
Proof.
  intros Henc Hlen. unfold IndexDocs.generate_embeddings. unfold_m. rewrite Henc.
  apply assign_embeddings_overflow; simpl; lia.
Qed.

Lemma generate_embeddings_too_many_witness :
  IndexDocs.generate_embeddings (RunScenario.encode_env 3)
    (IndexDocs.chunk_text (RunScenario.encode_env 3) "Coma fibras." "Guia_Diabetes.pdf") []
  = (Raise (Exception "IndexError"),
     [] ++ [IndexDocs.EvEncode
              (IndexDocs.content
                 <$> IndexDocs.chunk_text (RunScenario.encode_env 3) "Coma fibras."
                       "Guia_Diabetes.pdf")
              (Return (replicate 3 [1; 0]%float))]).
Proof.
  apply (generate_embeddings_too_many (RunScenario.encode_env 3)).
  - reflexivity.
  - vm_compute. lia.
Defined.

End IngestionSteps.

(** ** src/index_docs.py: what the insertion reports *)

Section InsertionReport.

Local Arguments post_ok : simpl never.

Lemma sum_list_length_concat {A} (l : list (list A)) :
  sum_list (length <$> l) = length (concat l).
Proof.
  induction l as [|x l IH]; [done|]. simpl. rewrite length_app. by rewrite <- IH.
Qed.

Lemma sum_list_cons (x : nat) (l : list nat) : sum_list (x :: l) = x + sum_list l.
Proof. reflexivity. Qed.

Lemma batches_total (chunks_data : list IndexDocs.Chunk) :
  sum_list (length <$> batches chunks_data) = length chunks_data.
Proof.
  rewrite sum_list_length_concat. by rewrite (proj1 (batches_partition chunks_data)).
Qed.

(** The records of the failed POSTs and of the accepted POSTs add up to
    the records of all POSTs. *)
Lemma inserted_split (posts : list Post) :
  inserted posts
  + sum_list (length <$> (filter (λ p : Post, post_ok p.2 = false) posts).*1)
  = sum_list (length <$> posts.*1).
Proof.
  induction posts as [|p posts IH]; [done|].
  rewrite inserted_cons, filter_cons.
  destruct (decide (post_ok p.2 = false)) as [Hf|Hf].
  - rewrite Hf, !fmap_cons, !sum_list_cons. lia.
  - apply not_false_is_true in Hf. rewrite Hf, !fmap_cons, !sum_list_cons. lia.
Qed.

Lemma inserted_all_ok (posts : list Post) :
  (∀ p, p ∈ posts → post_ok p.2 = true) →
  inserted posts = sum_list (length <$> posts.*1).
Proof.
  intros Hok. induction posts as [|p posts IH]; [done|].
  rewrite inserted_cons, (Hok p) by left. rewrite !fmap_cons, sum_list_cons.
  rewrite IH; [done|]. intros q Hq. apply Hok. by right.
Qed.

Lemma insert_data_run (env : IndexDocs.Env) (chunks_data : list IndexDocs.Chunk)
    t out t' :
  IndexDocs.insert_data_to_supabase_api env chunks_data t = (out, t') →
  ∃ posts : list Post,
    t' = t ++ (post_event env <$> posts)
    ∧ posts.*1 `prefix_of` batches chunks_data
    ∧ (length posts < length (batches chunks_data) →
       ∃ p, p ∈ posts ∧ post_ok p.2 = false)
    ∧ (∀ j p, posts !! j = Some p →
         p.2 = IndexDocs.requests_post env (t ++ (post_event env <$> take j posts))
                 (IndexDocs.INSERT_URL env) p.1)
    ∧ out = Return (if inserted posts =? length chunks_data
                    then IndexDocs.Completa (length chunks_data)
                    else IndexDocs.Parcial (inserted posts) (length chunks_data)).
Proof.
  unfold IndexDocs.insert_data_to_supabase_api, mbind, M_bind, bind.
  destruct (IndexDocs.insert_loop env chunks_data _ 0 t) as [o t1] eqn:Hloop.
  apply insert_loop_spec in Hloop as (posts & -> & Hpre & _ & Hstop & Horacle & ->).
  simpl. intros Hout. exists posts.
  assert (Hres : out = Return (if inserted posts =? length chunks_data
                               then IndexDocs.Completa (length chunks_data)
                               else IndexDocs.Parcial (inserted posts) (length chunks_data))
                 ∧ t' = t ++ (post_event env <$> posts)).
  { destruct (inserted posts =? length chunks_data); by injection Hout as <- <-. }
  destruct Hres as [-> ->]. split_and!; try done.
  intros Hlen. destruct Hstop as (p & Hp & Hfail).
  { unfold batches in Hlen. by rewrite length_fmap in Hlen. }
  exists p. split; [|done]. by apply last_Some_elem_of.
Qed.

(** X6: the insertion reports COMPLETA exactly when no POST of the run
    failed, and then every batch was posted; after a failed POST it
    reports PARCIAL with a count that is strictly less than the number of
    records. *)
Theorem insert_data_report (env : IndexDocs.Env) (chunks_data : list IndexDocs.Chunk)
    t out t' :
  IndexDocs.insert_data_to_supabase_api env chunks_data t = (out, t') →
  ∃ posts : list Post,
    t' = t ++ (post_event env <$> posts)
    ∧ ((∀ p, p ∈ posts → post_ok p.2 = true) →
       posts.*1 = batches chunks_data
       ∧ out = Return (IndexDocs.Completa (length chunks_data)))
    ∧ ((∃ p, p ∈ posts ∧ post_ok p.2 = false) →
       inserted posts < length chunks_data
       ∧ out = Return (IndexDocs.Parcial (inserted posts) (length chunks_data))).
Proof.
  intros (posts & -> & Hpre & Hstop & _ & ->)%insert_data_run.
  exists posts. split_and!; [done| |].
  - intros Hok.
    assert (Hall : posts.*1 = batches chunks_data).
    { apply prefix_length_eq; [done|]. rewrite (length_fmap fst posts).
      destruct (decide (length posts < length (batches chunks_data))) as [Hlt|Hge];
        [|by apply Nat.nlt_ge].
      destruct (Hstop Hlt) as (p & Hp & Hfail). rewrite (Hok p Hp) in Hfail. done. }
    split; [done|].
    rewrite (inserted_all_ok posts Hok), Hall, batches_total.
    by rewrite Nat.eqb_refl.
  - intros (p & Hp & Hfail).
    assert (Hlt : inserted posts < length chunks_data).
    { pose proof (inserted_split posts) as Hsplit.
      assert (Hpos : 0 < length p.1).
      { destruct Hpre as [k Hk].
        assert (Hb : p.1 ∈ batches chunks_data).
        { rewrite Hk. apply elem_of_app. left. by apply list_elem_of_fmap_2. }
        apply list_elem_of_lookup in Hb as [j Hj].
        apply (proj2 (batches_partition chunks_data)) in Hj. lia. }
      assert (Hin : length p.1
                    ≤ sum_list (length <$> (filter (λ p : Post, post_ok p.2 = false) posts).*1)).
      { apply (sum_list_with_in _ id). apply list_elem_of_fmap_2.
        apply (list_elem_of_fmap_2 fst). by apply list_elem_of_filter. }
      assert (Hle : sum_list (length <$> posts.*1) ≤ length chunks_data).
      { rewrite <- (batches_total chunks_data). destruct Hpre as [k ->].
        rewrite !fmap_app, sum_list_with_app. lia. }
      lia. }
    split; [done|].
    destruct (inserted posts =? length chunks_data) eqn:Heq; [|done].
    apply Nat.eqb_eq in Heq. lia.
Qed.

Lemma insert_data_report_witness :
  ∃ posts : list Post,
    (IndexDocs.insert_data_to_supabase_api (Scenario.ingest_env 1 1)
       (Scenario.records 600) []).2
    = [] ++ (post_event (Scenario.ingest_env 1 1) <$> posts)
    ∧ ((∀ p, p ∈ posts → post_ok p.2 = true) →
       posts.*1 = batches (Scenario.records 600)
       ∧ (IndexDocs.insert_data_to_supabase_api (Scenario.ingest_env 1 1)
            (Scenario.records 600) []).1
         = Return (IndexDocs.Completa (length (Scenario.records 600))))
    ∧ ((∃ p, p ∈ posts ∧ post_ok p.2 = false) →
       inserted posts < length (Scenario.records 600)
       ∧ (IndexDocs.insert_data_to_supabase_api (Scenario.ingest_env 1 1)
            (Scenario.records 600) []).1
         = Return (IndexDocs.Parcial (inserted posts) (length (Scenario.records 600)))).
Proof.
  apply (insert_data_report (Scenario.ingest_env 1 1) (Scenario.records 600) []).
  apply surjective_pairing.
Defined.

(** X7: when the store accepts every POST, the records are posted batch
    by batch, every record once and in order, and the insertion reports
    COMPLETA. *)
Theorem insert_data_all_accepted (env : IndexDocs.Env)
    (chunks_data : list IndexDocs.Chunk) t :
  (∀ t0 url payload, post_ok (IndexDocs.requests_post env t0 url payload) = true) →
  ∃ posts : list Post,
    IndexDocs.insert_data_to_supabase_api env chunks_data t
    = (Return (IndexDocs.Completa (length chunks_data)),
       t ++ (post_event env <$> posts))
    ∧ concat posts.*1 = chunks_data.
Proof.
  intros Haccept.
  destruct (IndexDocs.insert_data_to_supabase_api env chunks_data t) as [out t'] eqn:Hrun.
  pose proof Hrun as (posts & -> & Hpre & Hstop & Horacle & ->)%insert_data_run.
  exists posts.
  assert (Hok : ∀ p, p ∈ posts → post_ok p.2 = true).
  { intros p [j Hj]%list_elem_of_lookup. rewrite (Horacle j p Hj). apply Haccept. }
  assert (Hall : posts.*1 = batches chunks_data).
  { apply prefix_length_eq; [done|]. rewrite (length_fmap fst posts).
    destruct (decide (length posts < length (batches chunks_data))) as [Hlt|Hge];
      [|by apply Nat.nlt_ge].
    destruct (Hstop Hlt) as (p & Hp & Hfail). rewrite (Hok p Hp) in Hfail. done. }
  split.
  - rewrite (inserted_all_ok posts Hok), Hall, batches_total.
    by rewrite Nat.eqb_refl.
  - rewrite Hall. apply batches_partition.
Qed.

Lemma insert_data_all_accepted_witness :
  ∃ posts : list Post,
    IndexDocs.insert_data_to_supabase_api (RunScenario.encode_env 2)
      (Scenario.records 600) []
    = (Return (IndexDocs.Completa (length (Scenario.records 600))),
       [] ++ (post_event (RunScenario.encode_env 2) <$> posts))
    ∧ concat posts.*1 = Scenario.records 600.
Proof.
  apply (insert_data_all_accepted (RunScenario.encode_env 2)).
  intros t0 url payload. reflexivity.
Defined.

End InsertionReport.

(** ** src/index_docs.py: a whole run of [main] *)

Section WholeRun.

Lemma rev_app_spec (a b : string) : String.rev_app a b = String.rev a +:+ b.
Proof.
  unfold String.rev. revert b. induction a as [|x a IH]; intros b; simpl; [done|].
  rewrite (IH (String x b)), (IH (String x "")).
  by rewrite app_assoc_str, app_cons_str, app_nil_l_str.
Qed.

Lemma rev_app_str (a b : string) :
  String.rev (a +:+ b) = String.rev b +:+ String.rev a.
Proof.
  induction a as [|x a IH].
  - rewrite app_nil_l_str. unfold String.rev at 3. simpl. by rewrite app_nil_r_str.
  - rewrite app_cons_str. unfold String.rev at 1 3. simpl.
    rewrite !rev_app_spec, IH. by rewrite app_assoc_str.
Qed.

Lemma rev_rev_str (a : string) : String.rev (String.rev a) = a.
Proof.
  induction a as [|x a IH]; [done|].
  unfold String.rev at 2. simpl. rewrite rev_app_spec, rev_app_str, IH. done.
Qed.

(** [s.endswith(suffix)] holds exactly when [s] is some text followed by
    [suffix]. *)
Lemma endswith_spec (suffix s : string) :
  endswith suffix s = true ↔ ∃ stem, s = stem +:+ suffix.
Proof.
  unfold endswith. rewrite startswith_spec. split.
  - intros [rest Hrest]. exists (String.rev rest).
    rewrite <- (rev_rev_str s), Hrest, rev_app_str. by rewrite rev_rev_str.
  - intros [stem ->]. exists (String.rev stem). by rewrite rev_app_str.
Qed.

Lemma reads_snoc_reader (t : list IndexDocs.Event) filepath res :
  reads (t ++ [IndexDocs.EvPdfReader filepath res]) = reads t ++ [filepath].
Proof. unfold reads. by rewrite omap_app. Qed.

Lemma reads_snoc_encode (t : list IndexDocs.Event) texts res :
  reads (t ++ [IndexDocs.EvEncode texts res]) = reads t.
Proof. unfold reads. rewrite omap_app. simpl. by rewrite app_nil_r. Qed.

Lemma reads_posts (env : IndexDocs.Env) (t : list IndexDocs.Event) (posts : list Post) :
  reads (t ++ (post_event env <$> posts)) = reads t.
Proof.
  unfold reads. rewrite omap_app.
  assert (Hnil : omap (λ ev, match ev with
                             | IndexDocs.EvPdfReader filepath _ => Some filepath
                             | _ => None
                             end) (post_event env <$> posts) = []).
  { induction posts as [|p posts IH]; [done|]. simpl. apply IH. }
  rewrite Hnil. by rewrite app_nil_r.
Qed.

(** The loop over the documents opens the files in list order, stops
    only when the embedding step raises, and then the call to the
    encoder is the last thing that happened. *)
Lemma process_files_reads (env : IndexDocs.Env) (files : list string)
    (total : list IndexDocs.Chunk) t out t' :
  IndexDocs.process_files env files total t = (out, t') →
  ∃ n,
    reads t' = reads t ++ (IndexDocs.path_join IndexDocs.DOCS_DIR <$> take n files)
    ∧ (∀ l, out = Return l → n = length files)
    ∧ (∀ e, out = Raise e → ∃ texts res, last t' = Some (IndexDocs.EvEncode texts res)).
Proof.
  revert total t. induction files as [|f rest IH]; intros total t; simpl.
  - intros [= <- <-]. exists 0. split_and!; [by rewrite app_nil_r|done|done].
  - unfold mbind, M_bind, bind.
    destruct (extract_text_from_pdf_total env
                (IndexDocs.path_join IndexDocs.DOCS_DIR f) t) as (text & -> & _).
    destruct (truthy_str text).
    + destruct (IndexDocs.generate_embeddings env _ _) as [[l'|e] t2] eqn:Hgen;
        apply generate_embeddings_sources in Hgen as [-> _].
      * intros (n & Hreads & Hret & Hraise)%IH. exists (S n).
        rewrite Hreads, reads_snoc_encode, reads_snoc_reader, <- app_assoc.
        split_and!; [done| |done]. intros l Hl. by rewrite (Hret l Hl).
      * intros [= <- <-]. exists 1.
        rewrite reads_snoc_encode, reads_snoc_reader. simpl.
        split_and!; [done|done|]. intros e' _. rewrite last_snoc. eauto.
    + intros (n & Hreads & Hret & Hraise)%IH. exists (S n).
      rewrite Hreads, reads_snoc_reader, <- app_assoc.
      split_and!; [done| |done]. intros l Hl. by rewrite (Hret l Hl).
Qed.

(** The shape of every run of [main]. *)
Lemma main_cases (env : IndexDocs.Env) out t :
  run (IndexDocs.main env) = (out, t) →
  (out = Return IndexDocs.MissingKeys ∧ t = []
   ∧ IndexDocs.unset (IndexDocs.SUPABASE_URL env)
     || IndexDocs.unset (IndexDocs.SUPABASE_SERVICE_KEY env) = true)
  ∨ (IndexDocs.path_exists env IndexDocs.DOCS_DIR = false
     ∧ t = [IndexDocs.EvMakedirs IndexDocs.DOCS_DIR
              (IndexDocs.makedirs env IndexDocs.DOCS_DIR)]
     ∧ out = match IndexDocs.makedirs env IndexDocs.DOCS_DIR with
             | Return _ => Return IndexDocs.DocsDirCreated
             | Raise e => Raise e
             end)
  ∨ (IndexDocs.path_exists env IndexDocs.DOCS_DIR = true
     ∧ t = []
     ∧ ∃ e, IndexDocs.listdir env IndexDocs.DOCS_DIR = Raise e ∧ out = Raise e)
  ∨ (out = Return IndexDocs.NoPdfFiles ∧ t = [] ∧ pdf_files env = [])
  ∨ (IndexDocs.unset (IndexDocs.SUPABASE_URL env) = false
     ∧ IndexDocs.unset (IndexDocs.SUPABASE_SERVICE_KEY env) = false
     ∧ IndexDocs.path_exists env IndexDocs.DOCS_DIR = true
     ∧ (∃ entries, IndexDocs.listdir env IndexDocs.DOCS_DIR = Return entries)
     ∧ pdf_files env ≠ []
     ∧ ∃ o1 t1,
         IndexDocs.process_files env (pdf_files env) [] [] = (o1, t1)
         ∧ match o1 with
           | Raise e => out = Raise e ∧ t = t1
           | Return [] => out = Return IndexDocs.NothingToInsert ∧ t = t1
           | Return total =>
               ∃ r t2,
                 IndexDocs.insert_data_to_supabase_api env total t1 = (Return r, t2)
                 ∧ out = Return (IndexDocs.Inserted r) ∧ t = t2
           end).
Proof.
  unfold run, IndexDocs.main, pdf_files.
  destruct (IndexDocs.unset (IndexDocs.SUPABASE_URL env)) eqn:Hurl; simpl.
  { intros [= <- <-]. by left. }
  destruct (IndexDocs.unset (IndexDocs.SUPABASE_SERVICE_KEY env)) eqn:Hkey; simpl.
  { intros [= <- <-]. by left. }
  destruct (IndexDocs.path_exists env IndexDocs.DOCS_DIR) eqn:Hdir; simpl.
  2:{ unfold mbind, M_bind, bind, call.
      destruct (IndexDocs.makedirs env IndexDocs.DOCS_DIR) as [[]|e];
        intros [= <- <-]; right; left; done. }
  destruct (IndexDocs.listdir env IndexDocs.DOCS_DIR) as [entries|e] eqn:Hlist.
  2:{ intros [= <- <-]. do 2 right; left. split_and!; [done|done|]. by exists e. }
  destruct (filter (λ f, endswith ".pdf" f = true) entries) as [|f files] eqn:Hfiles.
  { cbn. intros [= <- <-]. do 3 right; left. done. }
  cbn [truthy_list negb]. intros Hrun. do 4 right.
  split_and!; [done|done|done|by exists entries|done|].
  unfold mbind, M_bind, bind in Hrun.
  destruct (IndexDocs.process_files env (f :: files) [] []) as [[total|e] t1] eqn:Hp.
  - exists (Return total), t1. split; [done|].
    destruct total as [|c total]; cbn [truthy_list] in Hrun;
      unfold mret, M_ret, ret in Hrun.
    + by injection Hrun as <- <-.
    + destruct (IndexDocs.insert_data_to_supabase_api env (c :: total) t1)
        as [o2 t2] eqn:Hins.
      pose proof Hins as (posts & _ & _ & _ & _ & ->)%insert_data_run.
      eexists _, t2. split; [reflexivity|]. by injection Hrun as <- <-.
  - exists (Raise e), t1. split; [done|]. by injection Hrun as <- <-.
Qed.

(** X8: a run of [main] posts to the store only when both keys are set,
    the document directory exists and it holds at least one entry whose
    name ends in ".pdf". *)
Theorem main_posts_only_when_configured (env : IndexDocs.Env) out t url payload res :
  run (IndexDocs.main env) = (out, t) →
  IndexDocs.EvPost url payload res ∈ t →
  IndexDocs.unset (IndexDocs.SUPABASE_URL env) = false
  ∧ IndexDocs.unset (IndexDocs.SUPABASE_SERVICE_KEY env) = false
  ∧ IndexDocs.path_exists env IndexDocs.DOCS_DIR = true
  ∧ ∃ entries stem,
      IndexDocs.listdir env IndexDocs.DOCS_DIR = Return entries
      ∧ stem +:+ ".pdf" ∈ entries.
Proof.
  intros Hrun Hin.
  apply main_cases in Hrun
    as [(_ & -> & _)|[(_ & -> & _)|[(_ & -> & _)|[(_ & -> & _)|
         (Hurl & Hkey & Hdir & [entries Hlist] & Hfiles & _)]]]].
  - by apply elem_of_nil in Hin.
  - apply list_elem_of_singleton in Hin. discriminate.
  - by apply elem_of_nil in Hin.
  - by apply elem_of_nil in Hin.
  - split_and!; [done..|]. unfold pdf_files in Hfiles. rewrite Hlist in Hfiles.
    destruct (filter (λ f, endswith ".pdf" f = true) entries) as [|f files] eqn:Hf;
      [done|].
    assert (Hmem : f ∈ filter (λ f, endswith ".pdf" f = true) entries)
      by (rewrite Hf; left).
    apply list_elem_of_filter in Hmem as [[stem ->]%endswith_spec Hmem]. eauto.
Qed.

Lemma main_posts_only_when_configured_witness :
  IndexDocs.unset (IndexDocs.SUPABASE_URL (Scenario.ingest_env 1 9)) = false
  ∧ IndexDocs.unset (IndexDocs.SUPABASE_SERVICE_KEY (Scenario.ingest_env 1 9)) = false
  ∧ IndexDocs.path_exists (Scenario.ingest_env 1 9) IndexDocs.DOCS_DIR = true
  ∧ ∃ entries stem,
      IndexDocs.listdir (Scenario.ingest_env 1 9) IndexDocs.DOCS_DIR = Return entries
      ∧ stem +:+ ".pdf" ∈ entries.
Proof.
  eapply (main_posts_only_when_configured (Scenario.ingest_env 1 9) _ _
            "https://db.example/rest/v1/documents"
            [RunScenario.chunk_of_embedded "Guia_Diabetes.pdf" "Diabetes";
             RunScenario.chunk_of_embedded "Cancer_Estomago.pdf" "Câncer de Estômago";
             RunScenario.chunk_of_embedded "Receitas.pdf" "Geral/Não Especificado"]
            (Return 201)).
  - apply surjective_pairing.
  - vm_compute. do 7 right. left.
Defined.

(** X9: [main] opens only entries of the directory whose name ends in
    ".pdf", each under the path "docs/<name>" and in the order of the
    listing; when it ends normally after the loop it has opened every
    one of them. *)
Theorem main_reads_pdf_files_in_order (env : IndexDocs.Env) out t :
  run (IndexDocs.main env) = (out, t) →
  reads t `prefix_of` (IndexDocs.path_join IndexDocs.DOCS_DIR <$> pdf_files env)
  ∧ (∀ f, f ∈ pdf_files env →
       ∃ entries,
         IndexDocs.listdir env IndexDocs.DOCS_DIR = Return entries
         ∧ f ∈ entries ∧ ∃ stem, f = stem +:+ ".pdf")
  ∧ (out = Return IndexDocs.NothingToInsert ∨ (∃ r, out = Return (IndexDocs.Inserted r)) →
     reads t = IndexDocs.path_join IndexDocs.DOCS_DIR <$> pdf_files env).
Proof.
  intros Hrun.
  assert (Hpdf : ∀ f, f ∈ pdf_files env →
            ∃ entries,
              IndexDocs.listdir env IndexDocs.DOCS_DIR = Return entries
              ∧ f ∈ entries ∧ ∃ stem, f = stem +:+ ".pdf").
  { unfold pdf_files. intros f Hf.
    destruct (IndexDocs.listdir env IndexDocs.DOCS_DIR) as [entries|e];
      [|by apply elem_of_nil in Hf].
    apply list_elem_of_filter in Hf as [Hend Hf]. exists entries.
    split_and!; [done|done|by apply endswith_spec]. }
  apply main_cases in Hrun
    as [(-> & -> & _)|[(_ & -> & Hout)|[(_ & -> & e & _ & ->)|[(-> & -> & _)|
         (_ & _ & _ & _ & _ & o1 & t1 & Hp & Hout)]]]].
  1,3,4: split_and!; [apply prefix_nil|done|]; intros [?|[r ?]]; discriminate.
  { split_and!; [apply prefix_nil|done|].
    destruct (IndexDocs.makedirs env IndexDocs.DOCS_DIR) as [[]|e];
      intros [?|[r ?]]; congruence. }
  apply process_files_reads in Hp as (n & Hreads & Hret & _). simpl in Hreads.
  assert (Hfull : ∀ l, o1 = Return l →
            reads t1 = IndexDocs.path_join IndexDocs.DOCS_DIR <$> pdf_files env).
  { intros l Hl. rewrite Hreads, (Hret l Hl). by rewrite firstn_all. }
  destruct o1 as [[|c total]|e].
  - destruct Hout as [-> ->]. split_and!; [|done|].
    + rewrite (Hfull [] eq_refl). done.
    + intros _. by apply (Hfull []).
  - destruct Hout as (r & t2 & Hins & -> & ->).
    apply insert_data_run in Hins as (posts & -> & _).
    rewrite reads_posts, (Hfull _ eq_refl). split_and!; done.
  - destruct Hout as [-> ->]. split_and!; [|done|].
    + rewrite Hreads, fmap_take. apply prefix_take.
    + intros [?|[r ?]]; discriminate.
Qed.

Lemma main_reads_pdf_files_in_order_witness :
  reads (run (IndexDocs.main (Scenario.ingest_env 1 9))).2
  = ["docs/Guia_Diabetes.pdf"; "docs/corrompido.pdf"; "docs/Cancer_Estomago.pdf";
     "docs/Receitas.pdf"].
Proof.
  apply (main_reads_pdf_files_in_order (Scenario.ingest_env 1 9)
           (Return (IndexDocs.Inserted (IndexDocs.Completa 3)))).
  - vm_compute. reflexivity.
  - right. by eexists.
Defined.

(** X10: a run of [main] that ends with an exception has posted nothing
    to the store.  The exception comes from one of three calls that are
    outside any [try]: the creation of the document directory, the
    listing of the directory (nothing else was called then), or the
    embedding step, whose call to the encoder is then the last thing that
    happened. *)
Theorem main_raises_before_posting (env : IndexDocs.Env) e t :
  run (IndexDocs.main env) = (Raise e, t) →
  post_calls t = []
  ∧ ((IndexDocs.path_exists env IndexDocs.DOCS_DIR = false
      ∧ IndexDocs.makedirs env IndexDocs.DOCS_DIR = Raise e
      ∧ t = [IndexDocs.EvMakedirs IndexDocs.DOCS_DIR (Raise e)])
     ∨ (IndexDocs.path_exists env IndexDocs.DOCS_DIR = true
        ∧ IndexDocs.listdir env IndexDocs.DOCS_DIR = Raise e
        ∧ t = [])
     ∨ (IndexDocs.path_exists env IndexDocs.DOCS_DIR = true
        ∧ (∃ entries, IndexDocs.listdir env IndexDocs.DOCS_DIR = Return entries)
        ∧ ∃ texts res, last t = Some (IndexDocs.EvEncode texts res))).
Proof.
  intros Hrun.
  apply main_cases in Hrun
    as [(? & _)|[(Hdir & -> & Hout)|[(Hdir & -> & e' & Hlist & [= <-])|[(? & _)|
         (_ & _ & Hdir & Hlist & _ & o1 & t1 & Hp & Hout)]]]];
    try discriminate.
  - destruct (IndexDocs.makedirs env IndexDocs.DOCS_DIR) as [[]|e'] eqn:Hmk;
      [discriminate|]. injection Hout as <-. split; [done|]. by left.
  - split; [done|]. right; left. done.
  - destruct o1 as [[|c total]|e'].
    + by destruct Hout.
    + by destruct Hout as (r & t2 & _ & ? & _).
    + destruct Hout as [[= <-] ->].
      pose proof (process_files_spec _ _ _ _ _ _ Hp) as [Hposts _].
      apply process_files_reads in Hp as (_ & _ & _ & Hraise).
      split; [done|]. do 2 right. split_and!; [done|done|]. by apply (Hraise e).
Qed.

Lemma main_raises_before_posting_witness :
  post_calls (run (IndexDocs.main RunScenario.docs_is_a_file_env)).2 = []
  ∧ ((IndexDocs.path_exists RunScenario.docs_is_a_file_env IndexDocs.DOCS_DIR = false
      ∧ IndexDocs.makedirs RunScenario.docs_is_a_file_env IndexDocs.DOCS_DIR
        = Raise (Exception "NotADirectoryError")
      ∧ (run (IndexDocs.main RunScenario.docs_is_a_file_env)).2
        = [IndexDocs.EvMakedirs IndexDocs.DOCS_DIR
             (Raise (Exception "NotADirectoryError"))])
     ∨ (IndexDocs.path_exists RunScenario.docs_is_a_file_env IndexDocs.DOCS_DIR = true
        ∧ IndexDocs.listdir RunScenario.docs_is_a_file_env IndexDocs.DOCS_DIR
          = Raise (Exception "NotADirectoryError")
        ∧ (run (IndexDocs.main RunScenario.docs_is_a_file_env)).2 = [])
     ∨ (IndexDocs.path_exists RunScenario.docs_is_a_file_env IndexDocs.DOCS_DIR = true
        ∧ (∃ entries,
             IndexDocs.listdir RunScenario.docs_is_a_file_env IndexDocs.DOCS_DIR
             = Return entries)
        ∧ ∃ texts res,
            last (run (IndexDocs.main RunScenario.docs_is_a_file_env)).2
            = Some (IndexDocs.EvEncode texts res))).
Proof.
  apply (main_raises_before_posting RunScenario.docs_is_a_file_env
           (Exception "NotADirectoryError")).
  vm_compute. reflexivity.
Defined.

(** The three ways in which the indexer ends with an exception: "docs"
    is a regular file, "docs" cannot be created, and the encoder returns
    more embeddings than there are chunks. *)
Example main_raises_examples :
  run (IndexDocs.main RunScenario.docs_is_a_file_env)
  = (Raise (Exception "NotADirectoryError"), [])
  ∧ run (IndexDocs.main RunScenario.read_only_env)
    = (Raise (Exception "PermissionError"),
       [IndexDocs.EvMakedirs IndexDocs.DOCS_DIR (Raise (Exception "PermissionError"))])
  ∧ (run (IndexDocs.main (RunScenario.encode_env 3))).1 = Raise (Exception "IndexError")
  ∧ (∃ texts res,
       last (run (IndexDocs.main (RunScenario.encode_env 3))).2
       = Some (IndexDocs.EvEncode texts res)).
Proof. split_and!; [reflexivity|reflexivity|by vm_compute|vm_compute; eauto]. Qed.

End WholeRun.

(** ** Retrieval and answer, composed *)

Section QueryRuns.

Local Open Scope float_scope.

(** X11: the retrieval of rag_query.py raises exactly when both clients
    exist and the embedding of the query raises, with that exception and
    before any call to the service; the retrieval of app.py turns the same
    failure into the empty list. *)
Theorem embedding_failure_in_retrieval (c : Clients) (q : string) (e : exn) :
  ((run (RagQuery.get_relevant_chunks c q)).1 = Raise e
   ↔ ∃ enc, model_embedding c = Some enc ∧ supabase c ≠ None ∧ enc q = Raise e)
  ∧ ((run (RagQuery.get_relevant_chunks c q)).1 = Raise e →
     run (RagQuery.get_relevant_chunks c q) = (Raise e, [EvEncode q (Raise e)])
     ∧ run (App.get_relevant_chunks c q) = (Return [], [EvEncode q (Raise e)])).
Proof.
  unfold RagQuery.get_relevant_chunks, App.get_relevant_chunks.
  destruct (model_embedding c) as [enc|] eqn:Henc, (supabase c) as [svc|] eqn:Hsvc;
    unfold_m; simpl.
  - destruct (enc q) as [v|e'] eqn:Hq; simpl.
    + destruct (svc _); simpl; (split; [split|]); try done.
      all: intros (enc' & [= <-] & _ & ?); congruence.
    + split; [split|].
      * intros [= ->]. by exists enc.
      * intros (enc' & [= <-] & _ & ?). congruence.
      * by intros [= ->].
  - split; [split|]; try done. by intros (enc' & _ & ? & _).
  - split; [split|]; try done. by intros (enc' & ? & _).
  - split; [split|]; try done. by intros (enc' & ? & _).
Qed.

Lemma embedding_failure_in_retrieval_witness :
  run (RagQuery.get_relevant_chunks RunScenario.encoder_down_clients "q")
  = (Raise (Exception "out of memory"), [EvEncode "q" (Raise (Exception "out of memory"))])
  ∧ run (App.get_relevant_chunks RunScenario.encoder_down_clients "q")
    = (Return [], [EvEncode "q" (Raise (Exception "out of memory"))]).
Proof.
  apply (embedding_failure_in_retrieval RunScenario.encoder_down_clients "q"). reflexivity.
Defined.

Lemma App_generate_frame (c : Clients) (q : string) (matches : list string) t :
  App.generate_rag_answer c q matches t
  = ((run (App.generate_rag_answer c q matches)).1,
     t ++ (run (App.generate_rag_answer c q matches)).2).
Proof.
  unfold App.generate_rag_answer.
  destruct (client_gemini c) as [llm|]; [|unfold_m; simpl; by rewrite app_nil_r].
  destruct matches as [|m ms]; cbn [truthy_list]; unfold_m; simpl.
  - match goal with |- context [llm ?r] => destruct (llm r) end; done.
  - match goal with |- context [llm ?r] => destruct (llm r) end; done.
Qed.

Lemma RagQuery_generate_frame (c : Clients) (q : string) (matches : list string) t :
  RagQuery.generate_rag_answer c q matches t
  = ((run (RagQuery.generate_rag_answer c q matches)).1,
     t ++ (run (RagQuery.generate_rag_answer c q matches)).2).
Proof.
  unfold RagQuery.generate_rag_answer.
  destruct (client_gemini c) as [llm|]; [|unfold_m; simpl; by rewrite app_nil_r].
  unfold_m; simpl.
  match goal with |- context [llm ?r] => destruct (llm r) end; done.
Qed.

Lemma rpc_event_app_generate (t1 t2 : list Query.Event) p res :
  (∀ ev, ev ∈ t2 → ∃ r o, ev = EvGenerate r o) →
  EvRpc p res ∈ t1 ++ t2 ↔ EvRpc p res ∈ t1.
Proof.
  intros Hgen. rewrite elem_of_app. split; [|by left].
  intros [?|Hin]; [done|]. by destruct (Hgen _ Hin) as (r & o & ?).
Qed.

Lemma generation_failed_app (t1 t2 : list Query.Event) :
  (∀ ev, ev ∈ t1 → ∀ r o, ev ≠ EvGenerate r o) →
  generation_failed (t1 ++ t2) ↔ generation_failed t2.
Proof.
  intros Hno. unfold generation_failed. split.
  - intros (r & e & [Hin|Hin]%elem_of_app); [by destruct (Hno _ Hin r (Raise e))|eauto].
  - intros (r & e & Hin). exists r, e. apply elem_of_app. by right.
Qed.

(** The retrieval of app.py returns a list, makes no generation call,
    and the list is non-empty exactly when the service sent a row above
    the gate. *)
Lemma App_retrieval_returns (c : Clients) (q : string) out t :
  run (App.get_relevant_chunks c q) = (out, t) →
  ∃ chunks,
    out = Return chunks
    ∧ (∀ ev, ev ∈ t → ∀ r o, ev ≠ EvGenerate r o)
    ∧ (chunks ≠ [] ↔
       ∃ p data m, EvRpc p (Return data) ∈ t ∧ m ∈ data ∧ above_post_filter m).
Proof.
  intros Hrun.
  apply App_get_relevant_chunks_cases in Hrun
    as [[-> ->]|[(e & -> & ->)|[(v & e & -> & ->)|(v & data & -> & ->)]]].
  - exists []. split_and!; [done|by intros ev ?%elem_of_nil|].
    split; [done|]. by intros (p & d & m & ?%elem_of_nil & _).
  - exists []. split_and!; [done| |].
    + intros ev ->%list_elem_of_singleton. done.
    + split; [done|]. intros (p & d & m & Hin%list_elem_of_singleton & _). done.
  - exists []. split_and!; [done| |].
    + intros ev [->| ->%list_elem_of_singleton]%elem_of_cons; done.
    + split; [done|]. intros (p & d & m & Hin & _).
      apply rpc_event_singleton in Hin as [_ ?]; [done|by intros].
  - eexists. split_and!; [done| |].
    + intros ev [->| ->%list_elem_of_singleton]%elem_of_cons; done.
    + split.
      * intros Hne. destruct (filter above_post_filter data) as [|m k] eqn:Hf; [done|].
        assert (Hm : m ∈ filter above_post_filter data) by (rewrite Hf; left).
        apply list_elem_of_filter in Hm as [Hab Hm].
        exists (mkMatchParams v 0.5 K_CHUNKS), data, m.
        split_and!; [right; left|done|done].
      * intros (p & d & m & Hin & Hm & Hab).
        apply rpc_event_singleton in Hin as [_ Hres]; [|by intros].
        injection Hres as ->.
        assert (Hf : m ∈ filter above_post_filter data) by (by apply list_elem_of_filter).
        destruct (filter above_post_filter data); [by apply elem_of_nil in Hf|done].
Qed.

(** The shape of every run of [App.respond]: a retrieval that does not
    raise, followed by the answer for what it returned. *)
Lemma App_respond_cases (c : Clients) (q : string) out t :
  run (App.respond c q) = (out, t) →
  ∃ chunks t1 t2,
    run (App.get_relevant_chunks c q) = (Return chunks, t1)
    ∧ run (App.generate_rag_answer c q chunks) = (out, t2)
    ∧ t = t1 ++ t2.
Proof.
  unfold App.respond, run, mbind, M_bind, bind.
  destruct (App.get_relevant_chunks c q []) as [o1 t1] eqn:Hret.
  destruct (App_retrieval_returns c q o1 t1 Hret) as (chunks & -> & _).
  rewrite App_generate_frame. intros [= <- <-].
  exists chunks, t1, (App.generate_rag_answer c q chunks []).2.
  split_and!; [done| |done]. apply surjective_pairing.
Qed.

(** How the processing of a chat input ends: without the LLM client,
    with a failed generation call, or with a text and one of the two
    modes. *)
Lemma App_respond_outcome (c : Clients) (q : string) out t :
  run (App.respond c q) = (out, t) →
  (client_gemini c = None ∧ ¬ generation_failed t
   ∧ out = Return ("Erro: Cliente Gemini não inicializado.", "ERROR"))
  ∨ (client_gemini c ≠ None ∧ generation_failed t
     ∧ out = Return ("Erro ao gerar resposta com o LLM.", "ERROR"))
  ∨ (∃ text mode,
       client_gemini c ≠ None ∧ ¬ generation_failed t
       ∧ out = Return (text, mode) ∧ (mode = "RAG" ∨ mode = "FALLBACK")).
Proof.
  intros (chunks & t1 & t2 & Hret & Hgen & ->)%App_respond_cases.
  apply App_retrieval_returns in Hret as (chunks' & _ & Hnogen & _).
  pose proof (generation_failed_app t1 t2 Hnogen) as Hfail.
  apply App_generate_rag_answer_cases in Hgen
    as [(Hc & -> & ->)|(llm & r & Hc & -> & _ & _ & _ & ->)].
  - left. split_and!; [done| |done]. rewrite Hfail.
    by intros (r & e & ?%elem_of_nil).
  - right. destruct (llm r) as [text|e] eqn:Hllm.
    + right. exists text, (if truthy_list chunks then "RAG" else "FALLBACK").
      split_and!; [by rewrite Hc| |done|destruct (truthy_list chunks); auto].
      rewrite Hfail. intros (r' & e' & Hev). apply list_elem_of_singleton in Hev.
      discriminate.
    + left. split_and!; [by rewrite Hc| |done]. apply Hfail. exists r, e. left.
Qed.

(** X12: the processing of a chat input in app.py never raises.  Its
    mode is ["ERROR"] exactly when the Gemini client is missing or the
    generation call raised; otherwise it is ["RAG"] when the service sent
    at least one row of similarity above 0.75, and ["FALLBACK"] when it
    sent none, be it that the retrieval failed or that every row was at or
    below the gate. *)
Theorem App_respond_mode (c : Clients) (q : string) out t :
  run (App.respond c q) = (out, t) →
  ∃ text mode,
    out = Return (text, mode)
    ∧ (mode = "ERROR" ↔ client_gemini c = None ∨ generation_failed t)
    ∧ (mode ≠ "ERROR" →
       (mode = "RAG"
        ↔ ∃ p data m, EvRpc p (Return data) ∈ t ∧ m ∈ data ∧ above_post_filter m)
       ∧ (mode = "FALLBACK"
          ↔ ∀ p data m, EvRpc p (Return data) ∈ t → m ∈ data → ¬ above_post_filter m)).
Proof.
  intros (chunks & t1 & t2 & Hret & Hgen & ->)%App_respond_cases.
  apply App_retrieval_returns in Hret as (chunks' & [= <-] & Hnogen & Hrows).
  assert (Hrpc : ∀ p res, EvRpc p res ∈ t1 ++ t2 ↔ EvRpc p res ∈ t1).
  { intros p res. apply rpc_event_app_generate.
    apply App_generate_rag_answer_cases in Hgen
      as [(_ & -> & _)|(llm & r & _ & -> & _)].
    - by intros ev ?%elem_of_nil.
    - intros ev ->%list_elem_of_singleton. eauto. }
  assert (Hrows' : chunks ≠ [] ↔
            ∃ p data m, EvRpc p (Return data) ∈ t1 ++ t2 ∧ m ∈ data ∧ above_post_filter m).
  { rewrite Hrows. split; intros (p & d & m & Hin & ?); exists p, d, m;
      (split; [by apply Hrpc|done]). }
  pose proof (generation_failed_app t1 t2 Hnogen) as Hfail.
  apply App_generate_rag_answer_cases in Hgen
    as [(Hc & -> & ->)|(llm & r & Hc & -> & _ & _ & _ & ->)].
  { eexists _, _. split_and!; [done|split; [by left|done]|done]. }
  destruct (llm r) as [text|e] eqn:Hllm.
  - exists text, (if truthy_list chunks then "RAG" else "FALLBACK").
    assert (Hnofail : ¬ generation_failed [EvGenerate r (Return text)]).
    { intros (r' & e' & Hev). apply list_elem_of_singleton in Hev. discriminate. }
    split_and!; [done| |].
    + split; [by destruct (truthy_list chunks)|].
      intros [?|?%Hfail]; [congruence|done].
    + intros _. rewrite <- Hrows'. split.
      * destruct chunks; simpl; split; done.
      * assert (Hnone : chunks = [] ↔
                  ∀ p data m, EvRpc p (Return data) ∈ t1 ++ [EvGenerate r (Return text)] →
                              m ∈ data → ¬ above_post_filter m).
        { split.
          - intros -> p d m Hin Hm Hab. apply (proj2 Hrows'); [|done]. by exists p, d, m.
          - intros Hall. destruct chunks as [|x k]; [done|].
            destruct (proj1 Hrows') as (p & d & m & Hin & Hm & Hab); [done|].
            by destruct (Hall p d m Hin Hm). }
        rewrite <- Hnone. destruct chunks; simpl; split; done.
  - exists "Erro ao gerar resposta com o LLM.", "ERROR".
    split_and!; [done| |done]. split; [|done]. intros _. right.
    apply Hfail. exists r, e. left.
Qed.

Lemma App_respond_mode_witness :
  ∃ text mode,
    (run (App.respond Scenario.low_clients "q")).1 = Return (text, mode)
    ∧ (mode = "ERROR"
       ↔ client_gemini Scenario.low_clients = None
         ∨ generation_failed (run (App.respond Scenario.low_clients "q")).2)
    ∧ (mode ≠ "ERROR" →
       (mode = "RAG"
        ↔ ∃ p data m,
            EvRpc p (Return data) ∈ (run (App.respond Scenario.low_clients "q")).2
            ∧ m ∈ data ∧ above_post_filter m)
       ∧ (mode = "FALLBACK"
          ↔ ∀ p data m,
              EvRpc p (Return data) ∈ (run (App.respond Scenario.low_clients "q")).2 →
              m ∈ data → ¬ above_post_filter m)).
Proof.
  apply (App_respond_mode Scenario.low_clients "q"). apply surjective_pairing.
Defined.

(** The three ways a turn of the loop of rag_query.py can go. *)
Lemma RagQuery_turn_cases (c : Clients) (q : string) out t :
  run (RagQuery.turn c q) = (out, t) →
  (∃ e, out = Raise e ∧ t = [EvEncode q (Raise e)])
  ∨ (out = Return RagQuery.apology
     ∧ gen_calls t = []
     ∧ length (rpc_calls t) ≤ 1
     ∧ ∀ p data, EvRpc p (Return data) ∈ t → data = [])
  ∨ (∃ v data t2,
       data ≠ []
       ∧ run (RagQuery.generate_rag_answer c q (content_with_source <$> data)) = (out, t2)
       ∧ t = [EvEncode q (Return v); EvRpc (mkMatchParams v 0.5 K_CHUNKS) (Return data)] ++ t2).
Proof.
  unfold RagQuery.turn, run, mbind, M_bind, bind.
  destruct (RagQuery.get_relevant_chunks c q []) as [o1 t1] eqn:Hret.
  apply RagQuery_get_relevant_chunks_cases in Hret
    as [[-> ->]|[(e & -> & ->)|[(v & e & -> & ->)|(v & data & -> & ->)]]].
  - simpl. intros [= <- <-]. right. left. split_and!; [done|done|simpl; lia|].
    by intros p d ?%elem_of_nil.
  - intros [= <- <-]. left. by exists e.
  - simpl. intros [= <- <-]. right. left. split_and!; [done|done|simpl; lia|].
    intros p d Hin. apply rpc_event_singleton in Hin as [_ ?]; [done|by intros].
  - destruct data as [|m data].
    + simpl. intros [= <- <-]. right. left. split_and!; [done|done|simpl; lia|].
      intros p d Hin. apply rpc_event_singleton in Hin as [_ Hres]; [|by intros].
      by injection Hres.
    + rewrite fmap_cons. cbn [truthy_list negb]. rewrite RagQuery_generate_frame.
      intros [= <- <-]. right. right. eexists v, (m :: data), _.
      split_and!; [done| |done]. rewrite fmap_cons. apply surjective_pairing.
Qed.

(** X13: one turn of the loop of rag_query.py calls the LLM at most
    once, and only after the service sent at least one row.  When the
    service sent no row (it was not called, it failed, or it answered with
    an empty list) the turn makes no generation call, and it either
    prints its apology or, when the encoder raised, raises with the
    encoder call as its only event. *)
Theorem RagQuery_turn_calls (c : Clients) (q : string) out t :
  run (RagQuery.turn c q) = (out, t) →
  length (gen_calls t) ≤ 1
  ∧ (gen_calls t ≠ [] → ∃ p data, EvRpc p (Return data) ∈ t ∧ data ≠ [])
  ∧ ((∀ p data, EvRpc p (Return data) ∈ t → data = []) →
     gen_calls t = []
     ∧ (out = Return RagQuery.apology
        ∨ ∃ e, out = Raise e ∧ t = [EvEncode q (Raise e)])).
Proof.
  intros [(e & -> & ->)|[(-> & Hgen & Hcount & Hrows)|(v & data & t2 & Hne & Hans & ->)]]%RagQuery_turn_cases.
  - split_and!; [simpl; lia|done|]. intros _. split; [done|]. right. by exists e.
  - rewrite Hgen. split_and!; [simpl; lia|done|]. intros _. split; [done|by left].
  - apply RagQuery_generate_rag_answer_cases in Hans
      as [(_ & -> & _)|(llm & r & _ & -> & _)].
    + split_and!; [simpl; lia|done|]. intros Hall.
      destruct Hne. apply (Hall (mkMatchParams v 0.5 K_CHUNKS)). right. left.
    + split_and!; [simpl; lia| |].
      * intros _. exists (mkMatchParams v 0.5 K_CHUNKS), data. split; [right; left|done].
      * intros Hall. destruct Hne. apply (Hall (mkMatchParams v 0.5 K_CHUNKS)). right. left.
Qed.

Lemma RagQuery_turn_calls_witness :
  length (gen_calls (run (RagQuery.turn Scenario.clients "q")).2) ≤ 1
  ∧ (gen_calls (run (RagQuery.turn Scenario.clients "q")).2 ≠ [] →
     ∃ p data,
       EvRpc p (Return data) ∈ (run (RagQuery.turn Scenario.clients "q")).2 ∧ data ≠ [])
  ∧ ((∀ p data, EvRpc p (Return data) ∈ (run (RagQuery.turn Scenario.clients "q")).2 →
                data = []) →
     gen_calls (run (RagQuery.turn Scenario.clients "q")).2 = []
     ∧ ((run (RagQuery.turn Scenario.clients "q")).1
        = Return RagQuery.apology
        ∨ ∃ e, (run (RagQuery.turn Scenario.clients "q")).1 = Raise e
               ∧ (run (RagQuery.turn Scenario.clients "q")).2 = [EvEncode "q" (Raise e)])).
Proof.
  apply (RagQuery_turn_calls Scenario.clients "q"). apply surjective_pairing.
Defined.

Lemma App_generate_contents (c : Clients) (q : string) (matches : list string) r :
  r ∈ gen_calls (run (App.generate_rag_answer c q matches)).2 →
  contents r
  = "Pergunta do Usuário: " +:+ q +:+ nl +:+ nl +:+ "Contexto (se RAG): "
    +:+ (if truthy_list matches then join (nl +:+ "---" +:+ nl) matches else "N/A")
  ∧ system_instruction r
    = (if truthy_list matches then App.rag_instruction else App.fallback_instruction).
Proof.
  unfold App.generate_rag_answer.
  destruct (client_gemini c) as [llm|]; [|by intros ?%elem_of_nil].
  destruct matches as [|m ms]; cbn [truthy_list]; unfold_m; cbn [fst snd].
  - match goal with |- context [llm ?r] => destruct (llm r) end;
      intros ->%list_elem_of_singleton; done.
  - match goal with |- context [llm ?r] => destruct (llm r) end;
      intros ->%list_elem_of_singleton; done.
Qed.

Lemma RagQuery_generate_contents (c : Clients) (q : string) (matches : list string) r :
  r ∈ gen_calls (run (RagQuery.generate_rag_answer c q matches)).2 →
  contents r = RagQuery.user_prompt q (join (nl +:+ "---" +:+ nl) matches).
Proof.
  unfold RagQuery.generate_rag_answer.
  destruct (client_gemini c) as [llm|]; [|by intros ?%elem_of_nil].
  unfold_m; cbn [fst snd].
  match goal with |- context [llm ?r] => destruct (llm r) end;
    intros ->%list_elem_of_singleton; done.
Qed.

(** X14: the prompt that app.py sends for a chat input.  Its text is
    the question followed by the context, and the context is made of the
    rows of the service answer whose similarity is above 0.75, in the
    order of the answer, each with its source and its score, joined by a
    ruler; the instruction is then the one of the RAG mode.  When the
    service sent no such row the context is ["N/A"] and the instruction is
    the one of the fallback mode. *)
Theorem App_respond_prompt (c : Clients) (q : string) out t :
  run (App.respond c q) = (out, t) →
  ∀ r, r ∈ gen_calls t →
  ∃ context,
    contents r
    = "Pergunta do Usuário: " +:+ q +:+ nl +:+ nl +:+ "Contexto (se RAG): " +:+ context
    ∧ ((∃ p data,
          EvRpc p (Return data) ∈ t
          ∧ filter above_post_filter data ≠ []
          ∧ context = join (nl +:+ "---" +:+ nl)
                        (content_with_source <$> filter above_post_filter data)
          ∧ system_instruction r = App.rag_instruction)
       ∨ ((∀ p data, EvRpc p (Return data) ∈ t → filter above_post_filter data = [])
          ∧ context = "N/A"
          ∧ system_instruction r = App.fallback_instruction)).
Proof.
  intros (chunks & t1 & t2 & Hret & Hgen & ->)%App_respond_cases r Hr.
  assert (Ht2 : t2 = (run (App.generate_rag_answer c q chunks)).2) by (by rewrite Hgen).
  assert (Hshape : ∀ ev, ev ∈ t2 → ∃ r' o, ev = EvGenerate r' o).
  { apply App_generate_rag_answer_cases in Hgen
      as [(_ & -> & _)|(llm & r' & _ & -> & _)].
    - by intros ev ?%elem_of_nil.
    - intros ev ->%list_elem_of_singleton. eauto. }
  assert (Hrpc : ∀ p res, EvRpc p res ∈ t1 ++ t2 ↔ EvRpc p res ∈ t1).
  { intros p res. by apply rpc_event_app_generate. }
  assert (Hr2 : r ∈ gen_calls t2).
  { unfold gen_calls in Hr |- *. rewrite omap_app in Hr.
    apply elem_of_app in Hr as [Hr|Hr]; [|done].
    apply App_get_relevant_chunks_cases in Hret
      as [[_ ->]|[(e & _ & ->)|[(v & e & _ & ->)|(v & data & _ & ->)]]];
      simpl in Hr; by apply elem_of_nil in Hr. }
  rewrite Ht2 in Hr2. apply App_generate_contents in Hr2 as [Hcontents Hinstr].
  apply App_get_relevant_chunks_cases in Hret
    as [[[= ->] ->]|[(e & [= ->] & ->)|[(v & e & [= ->] & ->)|(v & data & [= ->] & ->)]]].
  - exists "N/A". split; [done|]. right. split_and!; [|done|done].
    intros p d Hin%Hrpc. by apply elem_of_nil in Hin.
  - exists "N/A". split; [done|]. right. split_and!; [|done|done].
    intros p d Hin%Hrpc. by apply list_elem_of_singleton in Hin.
  - exists "N/A". split; [done|]. right. split_and!; [|done|done].
    intros p d Hin%Hrpc. apply rpc_event_singleton in Hin as [_ ?]; [done|by intros].
  - destruct (filter above_post_filter data) as [|m k] eqn:Hf.
    + exists "N/A". split; [done|]. right. split_and!; [|done|done].
      intros p d Hin%Hrpc. apply rpc_event_singleton in Hin as [_ Hres]; [|by intros].
      injection Hres as ->. done.
    + eexists. split; [exact Hcontents|]. left.
      exists (mkMatchParams v 0.5 K_CHUNKS), data.
      split_and!; [apply Hrpc; right; left|by rewrite Hf|by rewrite Hf|done].
Qed.

Lemma App_respond_prompt_witness :
  ∃ r context,
    r ∈ gen_calls (run (App.respond Scenario.clients "q")).2
    ∧ contents r
      = "Pergunta do Usuário: " +:+ "q" +:+ nl +:+ nl +:+ "Contexto (se RAG): " +:+ context
    ∧ ((∃ p data,
          EvRpc p (Return data) ∈ (run (App.respond Scenario.clients "q")).2
          ∧ filter above_post_filter data ≠ []
          ∧ context = join (nl +:+ "---" +:+ nl)
                        (content_with_source <$> filter above_post_filter data)
          ∧ system_instruction r = App.rag_instruction)
       ∨ ((∀ p data, EvRpc p (Return data) ∈ (run (App.respond Scenario.clients "q")).2 →
                     filter above_post_filter data = [])
          ∧ context = "N/A"
          ∧ system_instruction r = App.fallback_instruction)).
Proof.
  destruct (gen_calls (run (App.respond Scenario.clients "q")).2) as [|r l] eqn:Hcalls;
    [by vm_compute in Hcalls|].
  assert (Hr : r ∈ gen_calls (run (App.respond Scenario.clients "q")).2)
    by (rewrite Hcalls; left).
  destruct (App_respond_prompt Scenario.clients "q" _ _ (surjective_pairing _) r Hr)
    as (context & Hcontents & Hcontext).
  exists r, context. split_and!; [left|done|done].
Defined.

(** X15: the prompt that the loop of rag_query.py sends.  Its context
    is made of every row of the service answer, whatever its similarity,
    in the order of the answer, and the answer was not empty. *)
Theorem RagQuery_turn_prompt (c : Clients) (q : string) out t :
  run (RagQuery.turn c q) = (out, t) →
  ∀ r, r ∈ gen_calls t →
  ∃ p data,
    EvRpc p (Return data) ∈ t
    ∧ data ≠ []
    ∧ contents r
      = RagQuery.user_prompt q
          (join (nl +:+ "---" +:+ nl) (content_with_source <$> data))
    ∧ system_instruction r = RagQuery.nutrirag_instruction
    ∧ temperature r = 0.2.
Proof.
  intros [(e & -> & ->)|[(-> & Hgen & Hcount & Hrows)|(v & data & t2 & Hne & Hans & ->)]]%RagQuery_turn_cases
    r Hr.
  - by apply elem_of_nil in Hr.
  - rewrite Hgen in Hr. by apply elem_of_nil in Hr.
  - assert (Hr2 : r ∈ gen_calls t2) by done.
    exists (mkMatchParams v 0.5 K_CHUNKS), data.
    split_and!; [right; left|done| | |].
    + apply (RagQuery_generate_contents c). by rewrite Hans.
    + apply RagQuery_generate_rag_answer_cases in Hans
        as [(_ & -> & _)|(llm & r' & _ & -> & _ & _ & Hi & _)];
        [by apply elem_of_nil in Hr2|].
      by apply list_elem_of_singleton in Hr2 as ->.
    + apply RagQuery_generate_rag_answer_cases in Hans
        as [(_ & -> & _)|(llm & r' & _ & -> & _ & Ht & _)];
        [by apply elem_of_nil in Hr2|].
      by apply list_elem_of_singleton in Hr2 as ->.
Qed.

Lemma RagQuery_turn_prompt_witness :
  ∃ r p data,
    r ∈ gen_calls (run (RagQuery.turn Scenario.clients "q")).2
    ∧ EvRpc p (Return data) ∈ (run (RagQuery.turn Scenario.clients "q")).2
    ∧ data ≠ []
    ∧ contents r
      = RagQuery.user_prompt "q"
          (join (nl +:+ "---" +:+ nl) (content_with_source <$> data))
    ∧ system_instruction r = RagQuery.nutrirag_instruction
    ∧ temperature r = 0.2.
Proof.
  destruct (gen_calls (run (RagQuery.turn Scenario.clients "q")).2) as [|r l] eqn:Hcalls;
    [by vm_compute in Hcalls|].
  assert (Hr : r ∈ gen_calls (run (RagQuery.turn Scenario.clients "q")).2)
    by (rewrite Hcalls; left).
  destruct (RagQuery_turn_prompt Scenario.clients "q" _ _ (surjective_pairing _) r Hr)
    as (p & data & Hrest).
  exists r, p, data. split; [left|done].
Defined.

End QueryRuns.

(** ** The chat loop of rag_query.py *)

Section ChatLoop.

Local Open Scope float_scope.

Lemma RagQuery_retrieval_frame (c : Clients) (q : string) t :
  RagQuery.get_relevant_chunks c q t
  = ((run (RagQuery.get_relevant_chunks c q)).1,
     t ++ (run (RagQuery.get_relevant_chunks c q)).2).
Proof.
  unfold RagQuery.get_relevant_chunks.
  destruct (model_embedding c) as [enc|], (supabase c) as [svc|];
    unfold_m; simpl; try (by rewrite app_nil_r).
  destruct (enc q) as [v|e]; simpl; [|done].
  destruct (svc _) as [data|e]; simpl; by rewrite <- app_assoc.
Qed.

Lemma RagQuery_turn_frame (c : Clients) (q : string) t :
  RagQuery.turn c q t
  = ((run (RagQuery.turn c q)).1, t ++ (run (RagQuery.turn c q)).2).
Proof.
  unfold RagQuery.turn, run, mbind, M_bind, bind.
  rewrite (RagQuery_retrieval_frame c q t). unfold run.
  destruct (RagQuery.get_relevant_chunks c q []) as [[chunks|e] t1]; cbn [fst snd];
    [|done].
  destruct (negb (truthy_list chunks)); [done|].
  rewrite (RagQuery_generate_frame c q chunks (t ++ t1)),
    (RagQuery_generate_frame c q chunks t1).
  cbn [fst snd]. by rewrite app_assoc.
Qed.

Lemma is_exit_truthy (q : string) :
  RagQueryMain.is_exit q = true → truthy_str q = true.
Proof. by destruct q. Qed.

Lemma loop_skips_empty (c : Clients) (inputs printed : list string) t :
  RagQueryMain.loop c inputs printed t
  = RagQueryMain.loop c (filter (λ q, truthy_str q = true) inputs) printed t.
Proof.
  revert printed t. induction inputs as [|q rest IH]; intros printed t; [done|].
  destruct (RagQueryMain.is_exit q) eqn:Hexit.
  - rewrite filter_cons_True by by apply is_exit_truthy.
    simpl. by rewrite Hexit.
  - destruct (truthy_str q) eqn:Hq.
    + rewrite filter_cons_True by done. simpl. rewrite Hexit, Hq. simpl.
      destruct (RagQuery.turn c q t) as [[answer|e] t']; [apply IH|done].
    + rewrite filter_cons_False by (by rewrite Hq). simpl. rewrite Hexit, Hq. apply IH.
Qed.

Lemma loop_stops_at_exit (c : Clients) (pre post : list string) (w : string) printed t :
  RagQueryMain.is_exit w = true →
  RagQueryMain.loop c (pre ++ w :: post) printed t
  = RagQueryMain.loop c (pre ++ [w]) printed t.
Proof.
  intros Hw. revert printed t. induction pre as [|q pre IH]; intros printed t.
  - simpl. by rewrite Hw.
  - simpl. destruct (RagQueryMain.is_exit q); [done|].
    destruct (negb (truthy_str q)); [apply IH|].
    destruct (RagQuery.turn c q t) as [[answer|e] t']; [apply IH|done].
Qed.

(** What a turn adds to the trace: at most one service call, and a
    generation call only after a service call. *)
Lemma RagQuery_turn_counts (c : Clients) (q : string) :
  length (gen_calls (run (RagQuery.turn c q)).2)
  ≤ length (rpc_calls (run (RagQuery.turn c q)).2)
  ∧ length (rpc_calls (run (RagQuery.turn c q)).2) ≤ 1.
Proof.
  destruct (run (RagQuery.turn c q)) as [out t] eqn:Hrun. cbn [snd].
  apply RagQuery_turn_cases in Hrun
    as [(e & -> & ->)|[(-> & Hgen & Hcount & Hrows)|(v & data & t2 & Hne & Hans & ->)]].
  - simpl. lia.
  - rewrite Hgen. simpl. lia.
  - apply RagQuery_generate_rag_answer_cases in Hans
      as [(_ & -> & _)|(llm & r & _ & -> & _)]; simpl; lia.
Qed.

Lemma gen_calls_app (t1 t2 : list Query.Event) :
  gen_calls (t1 ++ t2) = gen_calls t1 ++ gen_calls t2.
Proof. apply omap_app. Qed.

Lemma rpc_calls_app (t1 t2 : list Query.Event) :
  rpc_calls (t1 ++ t2) = rpc_calls t1 ++ rpc_calls t2.
Proof. apply omap_app. Qed.

(** X16: the loop of rag_query.py ignores empty lines: a session gives
    the same prints, the same calls and the same end as the session
    without its empty lines. *)
Theorem main_ignores_empty_inputs (c : Clients) (inputs : list string) :
  RagQueryMain.main c inputs
  = RagQueryMain.main c (filter (λ q, truthy_str q = true) inputs).
Proof.
  unfold RagQueryMain.main. destruct (negb (AppScript.all_clients c)); [done|].
  apply loop_skips_empty.
Qed.

(** X17: nothing is read after an exit word: whatever follows the
    first line whose lower-case form is "sair", "exit" or "quit" has no
    effect on the session. *)
Theorem main_stops_at_exit_word (c : Clients) (pre post : list string) (w : string) :
  lower w ∈ ["sair"; "exit"; "quit"] →
  RagQueryMain.main c (pre ++ w :: post) = RagQueryMain.main c (pre ++ [w]).
Proof.
  intros Hw. unfold RagQueryMain.main.
  destruct (negb (AppScript.all_clients c)); [done|].
  apply loop_stops_at_exit. unfold RagQueryMain.is_exit. by apply bool_decide_eq_true.
Qed.

Lemma main_stops_at_exit_word_witness :
  RagQueryMain.main Scenario.clients RunScenario.session_inputs
  = RagQueryMain.main Scenario.clients [""; "O que comer?"; "E o açúcar?"; "SAIR"].
Proof.
  apply (main_stops_at_exit_word Scenario.clients [""; "O que comer?"; "E o açúcar?"]
           ["nunca lido"] "SAIR").
  vm_compute. by left.
Defined.

Lemma loop_return (c : Clients) (inputs printed : list string) t printed' t' :
  RagQueryMain.loop c inputs printed t = (Return (), printed', t') →
  ∃ pre w post answers,
    inputs = pre ++ w :: post
    ∧ RagQueryMain.is_exit w = true
    ∧ Forall (λ q, RagQueryMain.is_exit q = false) pre
    ∧ printed' = printed ++ answers ++ [RagQueryMain.goodbye]
    ∧ length answers = length (filter (λ q, truthy_str q = true) pre).
Proof.
  revert printed t. induction inputs as [|q rest IH]; intros printed t; [done|].
  simpl. destruct (RagQueryMain.is_exit q) eqn:Hexit.
  - intros [= <- <-]. exists [], q, rest, []. by split_and!.
  - destruct (truthy_str q) eqn:Hq; simpl.
    + destruct (RagQuery.turn c q t) as [[answer|e] t1]; [|done].
      intros (pre & w & post & answers & -> & Hw & Hpre & -> & Hlen)%IH.
      exists (q :: pre), w, post, (answer :: answers). split_and!; [done|done| | |].
      * by constructor.
      * by rewrite <- app_assoc.
      * rewrite filter_cons_True by done. simpl. by rewrite Hlen.
    + intros (pre & w & post & answers & -> & Hw & Hpre & -> & Hlen)%IH.
      exists (q :: pre), w, post, answers. split_and!; [done|done| |done|].
      * by constructor.
      * by rewrite filter_cons_False by (by rewrite Hq).
Qed.

(** X18: with its three clients the chatbot ends normally only by an
    exit word.  The session then read an exit word; it printed one line
    for each non-empty line before the first exit word, and the goodbye
    last. *)
Theorem main_returns_only_by_exit (c : Clients) (inputs printed : list string) t :
  AppScript.all_clients c = true →
  RagQueryMain.main c inputs = (Return (), printed, t) →
  ∃ pre w post answers,
    inputs = pre ++ w :: post
    ∧ lower w ∈ ["sair"; "exit"; "quit"]
    ∧ (∀ q, q ∈ pre → lower q ∉ ["sair"; "exit"; "quit"])
    ∧ printed = answers ++ [RagQueryMain.goodbye]
    ∧ length answers = length (filter (λ q, truthy_str q = true) pre).
Proof.
  intros Hc. unfold RagQueryMain.main. rewrite Hc. simpl.
  intros (pre & w & post & answers & -> & Hw & Hpre & -> & Hlen)%loop_return.
  exists pre, w, post, answers. split_and!; [done| | |done|done].
  - by apply bool_decide_eq_true in Hw.
  - intros q Hq. rewrite Forall_forall in Hpre. specialize (Hpre q Hq).
    by apply bool_decide_eq_false in Hpre.
Qed.

Lemma main_returns_only_by_exit_witness :
  ∃ pre w post answers,
    RunScenario.session_inputs = pre ++ w :: post
    ∧ lower w ∈ ["sair"; "exit"; "quit"]
    ∧ (∀ q, q ∈ pre → lower q ∉ ["sair"; "exit"; "quit"])
    ∧ (RagQueryMain.main Scenario.clients RunScenario.session_inputs).1.2
      = answers ++ [RagQueryMain.goodbye]
    ∧ length answers = length (filter (λ q, truthy_str q = true) pre).
Proof.
  eapply (main_returns_only_by_exit Scenario.clients RunScenario.session_inputs);
    [reflexivity|vm_compute; reflexivity].
Defined.

Lemma loop_raise (c : Clients) (inputs printed : list string) t e printed' t' :
  RagQueryMain.loop c inputs printed t = (Raise e, printed', t') →
  (e = Exception "EOFError"
   ∧ Forall (λ q, RagQueryMain.is_exit q = false) inputs
   ∧ ∃ t'', t' = t ++ t'')
  ∨ (∃ q t'', q ∈ inputs ∧ t' = t ++ t'' ++ [EvEncode q (Raise e)]).
Proof.
  revert printed t. induction inputs as [|q rest IH]; intros printed t.
  - simpl. intros [= <- <- <-]. left. split_and!; [done|done|].
    exists []. by rewrite app_nil_r.
  - simpl. destruct (RagQueryMain.is_exit q) eqn:Hexit; [done|].
    destruct (truthy_str q) eqn:Hq; simpl.
    + rewrite RagQuery_turn_frame.
      destruct (run (RagQuery.turn c q)) as [[answer|e1] t1] eqn:Hturn; cbn [fst snd].
      * intros [(-> & Hall & t'' & ->)|(q' & t'' & Hin & ->)]%IH.
        -- left. split_and!; [done|by constructor|].
           exists (t1 ++ t''). by rewrite app_assoc.
        -- right. exists q', (t1 ++ t''). split; [by right|].
           by rewrite <- !app_assoc.
      * intros [= <- <- <-]. right.
        apply RagQuery_turn_cases in Hturn
          as [(e' & [= <-] & ->)|[([=] & _)|(v & data & t2 & Hne & Hans & ->)]].
        -- exists q, []. split; [by left|done].
        -- apply RagQuery_generate_rag_answer_cases in Hans
             as [(_ & _ & [=])|(llm & r & _ & _ & _ & _ & _ & Hout)].
           by destruct (llm r).
    + intros [(-> & Hall & t'' & ->)|(q' & t'' & Hin & ->)]%IH.
      * left. split_and!; [done|by constructor|by exists t''].
      * right. exists q', t''. split; [by right|done].
Qed.

(** X19: the chatbot of rag_query.py ends with an exception in two
    cases only: the input ran out before an exit word was read, or the
    embedding model raised on a line of the session; the exception of the
    model is then the one that ends the program, and its call is the last
    event. *)
Theorem main_raise_causes (c : Clients) (inputs printed : list string) t e :
  RagQueryMain.main c inputs = (Raise e, printed, t) →
  (e = Exception "EOFError" ∧ ∀ q, q ∈ inputs → lower q ∉ ["sair"; "exit"; "quit"])
  ∨ (∃ q, q ∈ inputs ∧ last t = Some (EvEncode q (Raise e))).
Proof.
  unfold RagQueryMain.main. destruct (negb (AppScript.all_clients c)); [done|].
  intros [(-> & Hall & _)|(q & t'' & Hin & ->)]%loop_raise.
  - left. split; [done|]. intros q Hq. rewrite Forall_forall in Hall.
    specialize (Hall q Hq). by apply bool_decide_eq_false in Hall.
  - right. exists q. split; [done|]. rewrite app_nil_l. apply last_snoc.
Qed.

Lemma main_raise_causes_witness :
  (Exception "out of memory" = Exception "EOFError"
   ∧ ∀ q, q ∈ RunScenario.session_inputs → lower q ∉ ["sair"; "exit"; "quit"])
  ∨ (∃ q, q ∈ RunScenario.session_inputs
          ∧ last (RagQueryMain.main RunScenario.encoder_down_clients
                    RunScenario.session_inputs).2
            = Some (EvEncode q (Raise (Exception "out of memory")))).
Proof.
  eapply (main_raise_causes RunScenario.encoder_down_clients RunScenario.session_inputs).
  vm_compute. reflexivity.
Defined.

Lemma loop_counts (c : Clients) (inputs printed : list string) t out printed' t' :
  RagQueryMain.loop c inputs printed t = (out, printed', t') →
  ∃ t'',
    t' = t ++ t''
    ∧ length (gen_calls t'') ≤ length (rpc_calls t'')
    ∧ length (rpc_calls t'') ≤ length (filter (λ q, truthy_str q = true) inputs).
Proof.
  revert printed t. induction inputs as [|q rest IH]; intros printed t.
  - simpl. intros [= <- <- <-]. exists []. rewrite app_nil_r. simpl. by split_and!.
  - simpl. destruct (RagQueryMain.is_exit q) eqn:Hexit.
    + intros [= <- <- <-]. exists []. rewrite app_nil_r. simpl. split_and!; [done|lia|lia].
    + destruct (truthy_str q) eqn:Hq; simpl.
      * rewrite filter_cons_True by done. rewrite RagQuery_turn_frame.
        pose proof (RagQuery_turn_counts c q) as [Hg Hr].
        destruct (run (RagQuery.turn c q)) as [[answer|e1] t1]; cbn [fst snd] in *.
        -- intros (t'' & -> & Hg' & Hr')%IH. exists (t1 ++ t'').
           rewrite gen_calls_app, rpc_calls_app, !length_app, app_assoc.
           simpl. split_and!; [done|lia|lia].
        -- intros [= <- <- <-]. exists t1. simpl. split_and!; [done|lia|lia].
      * rewrite filter_cons_False by (by rewrite Hq). apply IH.
Qed.

(** X20: in a session of the chatbot of rag_query.py the service is
    called at most once for each non-empty line, and the LLM at most as
    often as the service: no answer is generated without a retrieval. *)
Theorem main_call_counts (c : Clients) (inputs : list string) :
  length (gen_calls (RagQueryMain.main c inputs).2)
  ≤ length (rpc_calls (RagQueryMain.main c inputs).2)
  ∧ length (rpc_calls (RagQueryMain.main c inputs).2)
    ≤ length (filter (λ q, truthy_str q = true) inputs).
Proof.
  unfold RagQueryMain.main. destruct (negb (AppScript.all_clients c)).
  - simpl. lia.
  - destruct (RagQueryMain.loop c inputs [] []) as [[out printed] t] eqn:Hloop.
    apply loop_counts in Hloop as (t'' & -> & Hg & Hr). rewrite app_nil_l. simpl. lia.
Qed.

End ChatLoop.

(** ** The page script of app.py *)

Section Page.

Local Open Scope float_scope.

Lemma set_var_true (v : option string) :
  AppScript.set_var v = true ↔ ∃ s, v = Some s ∧ s ≠ "".
Proof.
  destruct v as [[|a s]|]; simpl; split; try done.
  - by intros (s & [= <-] & ?).
  - intros _. by eexists.
  - by intros (s & ? & _).
Qed.

Lemma initialize_resources_cases (s : AppScript.Settings) :
  resources_ready s (AppScript.initialize_resources s)
  ∨ ((∀ c, ¬ resources_ready s c)
     ∧ AppScript.initialize_resources s = AppScript.no_clients).
Proof.
  unfold AppScript.initialize_resources.
  destruct (AppScript.set_var (AppScript.SUPABASE_URL s)) eqn:Hurl; cycle 1.
  { right. split; [|done]. intros c (url & key & k & sb & g & em & Hu & Hne & _).
    assert (AppScript.set_var (AppScript.SUPABASE_URL s) = true)
      by (apply set_var_true; eauto). congruence. }
  destruct (AppScript.set_var (AppScript.SUPABASE_ANON_KEY s)) eqn:Hkey; cycle 1.
  { right. split; [|done].
    intros c (url & key & k & sb & g & em & _ & _ & Hk & Hne & _).
    assert (AppScript.set_var (AppScript.SUPABASE_ANON_KEY s) = true)
      by (apply set_var_true; eauto). congruence. }
  destruct (AppScript.set_var (AppScript.GEMINI_API_KEY s)) eqn:Hapi; cycle 1.
  { right. split; [|done].
    intros c (url & key & k & sb & g & em & _ & _ & _ & _ & Hk & Hne & _).
    assert (AppScript.set_var (AppScript.GEMINI_API_KEY s) = true)
      by (apply set_var_true; eauto). congruence. }
  apply set_var_true in Hurl as (url & Hurl & Hurl').
  apply set_var_true in Hkey as (key & Hkey & Hkey').
  apply set_var_true in Hapi as (api & Hapi & Hapi').
  rewrite Hurl, Hkey, Hapi. simpl.
  destruct (AppScript.create_client s url key) as [sb|e] eqn:Hsb; cycle 1.
  { right. split; [|done].
    intros c (url0 & key0 & k & sb & g & em & Hu & _ & Hk & _ & _ & _ & Hc & _).
    congruence. }
  destruct (AppScript.genai_Client s api) as [gemini|e] eqn:Hg; cycle 1.
  { right. split; [|done].
    intros c (url0 & key0 & k & sb0 & g & em & _ & _ & _ & _ & Ha & _ & _ & Hc & _).
    congruence. }
  destruct (AppScript.SentenceTransformer s (AppScript.EMBEDDING_MODEL_NAME s))
    as [embedder|e] eqn:Hem; cycle 1.
  { right. split; [|done].
    intros c (url0 & key0 & k & sb0 & g & em & _ & _ & _ & _ & _ & _ & _ & _ & Hc & _).
    congruence. }
  left. exists url, key, api, sb, gemini, embedder. by split_and!.
Qed.

Lemma resources_ready_all (s : AppScript.Settings) (c : Clients) :
  resources_ready s c → AppScript.all_clients c = true ∧ client_gemini c ≠ None.
Proof. by intros (url & key & k & sb & g & em & _ & _ & _ & _ & _ & _ & _ & _ & _ & ->). Qed.

(** X21: the start-up of app.py is all or nothing.  It returns the
    three clients exactly when the three keys are set to non-empty values
    and the three constructors return; in every other case (a key that is
    missing or empty, a constructor that raises) it returns no client at
    all, also not those that could be created. *)
Theorem initialize_resources_all_or_nothing (s : AppScript.Settings) :
  (AppScript.all_clients (AppScript.initialize_resources s) = true
   ↔ resources_ready s (AppScript.initialize_resources s))
  ∧ (AppScript.all_clients (AppScript.initialize_resources s) = false
     ↔ ∀ c, ¬ resources_ready s c)
  ∧ (AppScript.all_clients (AppScript.initialize_resources s) = false →
     AppScript.initialize_resources s = AppScript.no_clients).
Proof.
  destruct (initialize_resources_cases s) as [Hready|[Hnot Hnone]].
  - destruct (resources_ready_all _ _ Hready) as [Hall _]. rewrite Hall.
    split_and!; [done| |done]. split; [done|]. intros Hnot. by destruct (Hnot _ Hready).
  - rewrite Hnone. split_and!; [|done|done]. split; [done|].
    rewrite <- Hnone. intros Hready. by destruct (Hnot _ Hready).
Qed.

Lemma initialize_resources_all_or_nothing_witness :
  AppScript.initialize_resources RunScenario.settings_without_key = AppScript.no_clients.
Proof.
  apply (initialize_resources_all_or_nothing RunScenario.settings_without_key).
  reflexivity.
Defined.

Lemma script_without_clients (s : AppScript.Settings)
    (session : option (list AppScript.Message)) (prompt : option string) :
  (∀ c, ¬ resources_ready s c) →
  run (AppScript.script s session prompt) = (Return session, []).
Proof.
  intros Hnot. unfold AppScript.script.
  destruct (initialize_resources_cases s) as [Hready|[_ ->]]; [by destruct (Hnot _ Hready)|].
  done.
Qed.

(** X22: when the start-up cannot succeed the page stops before it
    reads or changes the session: the messages are as they were (also
    when there were none yet) and no service is called, whatever was
    typed. *)
Theorem script_stops_without_clients (s : AppScript.Settings)
    (session : option (list AppScript.Message)) (prompt : option string) :
  (∀ c, ¬ resources_ready s c) →
  run (AppScript.script s session prompt) = (Return session, []).
Proof.
  apply script_without_clients.
Qed.

Lemma script_stops_without_clients_witness :
  run (AppScript.script RunScenario.settings_without_key None (Some "O que comer?"))
  = (Return None, []).
Proof.
  apply (script_stops_without_clients RunScenario.settings_without_key).
  intros c (url & key & k & sb & g & em & _ & _ & _ & _ & Hk & _). discriminate.
Defined.

Lemma script_prompt_cases (s : AppScript.Settings)
    (session : option (list AppScript.Message)) (p : string) out t :
  resources_ready s (AppScript.initialize_resources s) →
  p ≠ "" →
  run (AppScript.script s session (Some p)) = (out, t) →
  ∃ text mode,
    run (App.respond (AppScript.initialize_resources s) p) = (Return (text, mode), t)
    ∧ out = Return (Some (default AppScript.greeting session
                          ++ [AppScript.mkMessage "user" p;
                              AppScript.mkMessage "assistant"
                                (AppScript.full_response_content text mode)])).
Proof.
  intros Hready Hp. destruct (resources_ready_all _ _ Hready) as [Hall _].
  unfold AppScript.script. rewrite Hall. cbn [negb].
  assert (Htruthy : truthy_str p = true) by (by destruct p).
  rewrite Htruthy. unfold AppScript.on_prompt, run, mbind, M_bind, bind.
  destruct (App.respond (AppScript.initialize_resources s) p []) as [o1 t1] eqn:Hresp.
  destruct (App_respond_outcome _ _ _ _ Hresp)
    as [(_ & _ & ->)|[(_ & _ & ->)|(text & mode & _ & _ & -> & _)]];
    intros [= <- <-]; eexists _, _; (split; [done|]); by rewrite <- app_assoc.
Qed.

(** X23: a non-empty chat input adds exactly two messages to the
    session, after those it had (or after the greeting, for a new
    session): the input with role "user", then the answer under its
    header with role "assistant".  The page does not raise, and the calls
    it makes are those of the retrieval and the generation.  The mode is
    ["ERROR"] exactly when the generation call raised: on the page the
    guard for a missing LLM client is never taken. *)
Theorem script_appends_exchange (s : AppScript.Settings)
    (session : option (list AppScript.Message)) (p : string) out t :
  resources_ready s (AppScript.initialize_resources s) →
  p ≠ "" →
  run (AppScript.script s session (Some p)) = (out, t) →
  ∃ text mode,
    run (App.respond (AppScript.initialize_resources s) p) = (Return (text, mode), t)
    ∧ out = Return (Some (default AppScript.greeting session
                          ++ [AppScript.mkMessage "user" p;
                              AppScript.mkMessage "assistant"
                                (AppScript.full_response_content text mode)]))
    ∧ (mode = "ERROR" ↔ generation_failed t).
Proof.
  intros Hready Hp Hrun.
  destruct (script_prompt_cases s session p out t Hready Hp Hrun)
    as (text & mode & Hresp & ->).
  exists text, mode. split_and!; [done|done|].
  destruct (resources_ready_all _ _ Hready) as [_ Hc].
  destruct (App_respond_outcome _ _ _ _ Hresp)
    as [(? & _)|[(_ & Hfail & [= -> ->])|(text' & mode' & _ & Hok & [= -> ->] & Hmode)]];
    [done|done|].
  split; [|done]. intros ->. by destruct Hmode.
Qed.

Lemma script_appends_exchange_witness :
  ∃ text mode,
    run (App.respond (AppScript.initialize_resources RunScenario.settings) "O que comer?")
    = (Return (text, mode),
       (run (AppScript.script RunScenario.settings None (Some "O que comer?"))).2)
    ∧ (run (AppScript.script RunScenario.settings None (Some "O que comer?"))).1
      = Return (Some (default AppScript.greeting None
                      ++ [AppScript.mkMessage "user" "O que comer?";
                          AppScript.mkMessage "assistant"
                            (AppScript.full_response_content text mode)]))
    ∧ (mode = "ERROR"
       ↔ generation_failed
           (run (AppScript.script RunScenario.settings None (Some "O que comer?"))).2).
Proof.
  apply (script_appends_exchange RunScenario.settings None "O que comer?").
  - do 6 eexists. split_and!; try reflexivity; done.
  - done.
  - apply surjective_pairing.
Defined.

(** X24: a failed generation call is shown under the header of the
    fallback mode: the page has two headers only, and every source other
    than ["RAG"], also ["ERROR"], gets the one of the fallback. *)
Theorem script_error_shown_as_fallback (s : AppScript.Settings)
    (session : option (list AppScript.Message)) (p : string) out t :
  resources_ready s (AppScript.initialize_resources s) →
  p ≠ "" →
  run (AppScript.script s session (Some p)) = (out, t) →
  generation_failed t →
  out = Return (Some (default AppScript.greeting session
                      ++ [AppScript.mkMessage "user" p;
                          AppScript.mkMessage "assistant" error_shown])).
Proof.
  intros Hready Hp Hrun Hfail.
  destruct (script_prompt_cases s session p out t Hready Hp Hrun)
    as (text & mode & Hresp & ->).
  destruct (App_respond_outcome _ _ _ _ Hresp)
    as [(_ & ? & _)|[(_ & _ & [= -> ->])|(text' & mode' & _ & ? & _)]]; done.
Qed.

Lemma script_error_shown_as_fallback_witness :
  (run (AppScript.script RunScenario.llm_down_settings None (Some "O que comer?"))).1
  = Return (Some (default AppScript.greeting None
                  ++ [AppScript.mkMessage "user" "O que comer?";
                      AppScript.mkMessage "assistant" error_shown])).
Proof.
  apply (script_error_shown_as_fallback RunScenario.llm_down_settings None "O que comer?"
           _ (run (AppScript.script RunScenario.llm_down_settings None
                     (Some "O que comer?"))).2).
  - do 6 eexists. split_and!; try reflexivity; done.
  - done.
  - apply surjective_pairing.
  - eexists _, _. vm_compute. do 2 right. left.
Defined.

(** X25: a run of the page never raises and never drops a message:
    the messages of the session are kept in front, and what is added is
    nothing or one exchange for the input that was typed.  A service is
    called only for a non-empty input. *)
Theorem script_keeps_history (s : AppScript.Settings)
    (session : option (list AppScript.Message)) (prompt : option string) out t :
  run (AppScript.script s session prompt) = (out, t) →
  ∃ result,
    out = Return result
    ∧ (∀ messages, session = Some messages →
       ∃ new, result = Some (messages ++ new)
              ∧ (new = []
                 ∨ ∃ p answer, prompt = Some p
                     ∧ new = [AppScript.mkMessage "user" p;
                              AppScript.mkMessage "assistant" answer]))
    ∧ (t ≠ [] → ∃ p, prompt = Some p ∧ p ≠ "").
Proof.
  destruct (initialize_resources_cases s) as [Hready|[Hnot _]].
  - destruct prompt as [[|a p]|].
    + destruct (resources_ready_all _ _ Hready) as [Hall _].
      unfold AppScript.script. rewrite Hall. intros [= <- <-].
      eexists. split_and!; [done| |done]. intros messages ->. exists [].
      split; [by rewrite app_nil_r|by left].
    + intros Hrun.
      destruct (script_prompt_cases s session (String a p) out t Hready ltac:(done) Hrun)
        as (text & mode & Hresp & ->).
      eexists. split_and!; [done| |].
      * intros messages ->. eexists. split; [done|]. right. by eexists _, _.
      * intros _. by eexists.
    + destruct (resources_ready_all _ _ Hready) as [Hall _].
      unfold AppScript.script. rewrite Hall. intros [= <- <-].
      eexists. split_and!; [done| |done]. intros messages ->. exists [].
      split; [by rewrite app_nil_r|by left].
  - rewrite (script_without_clients s session prompt Hnot). intros [= <- <-].
    exists session. split_and!; [done| |done]. intros messages ->. exists [].
    split; [by rewrite app_nil_r|by left].
Qed.

Lemma script_keeps_history_witness :
  ∃ result,
    (run (AppScript.script RunScenario.settings (Some AppScript.greeting)
            (Some "O que comer?"))).1 = Return result
    ∧ (∀ messages, Some AppScript.greeting = Some messages →
       ∃ new, result = Some (messages ++ new)
              ∧ (new = []
                 ∨ ∃ p answer, Some "O que comer?" = Some p
                     ∧ new = [AppScript.mkMessage "user" p;
                              AppScript.mkMessage "assistant" answer]))
    ∧ ((run (AppScript.script RunScenario.settings (Some AppScript.greeting)
               (Some "O que comer?"))).2 ≠ [] →
       ∃ p, Some "O que comer?" = Some p ∧ p ≠ "").
Proof.
  apply (script_keeps_history RunScenario.settings (Some AppScript.greeting)
           (Some "O que comer?")).
  apply surjective_pairing.
Defined.

End Page.

(** ** The answer functions as the two programs call them *)

Section Programs.

Local Open Scope float_scope.

Lemma all_clients_gemini (c : Clients) :
  AppScript.all_clients c = true → client_gemini c ≠ None.
Proof.
  unfold AppScript.all_clients.
  by destruct (supabase c), (client_gemini c), (model_embedding c).
Qed.

Lemma gen_event_elem (t : list Query.Event) r res :
  EvGenerate r res ∈ t → r ∈ gen_calls t.
Proof.
  intros Hin. unfold gen_calls. apply list_elem_of_omap.
  by exists (EvGenerate r res).
Qed.

Lemma App_retrieval_gen_calls (c : Clients) (q : string) out t :
  run (App.get_relevant_chunks c q) = (out, t) → gen_calls t = [].
Proof.
  by intros [[_ ->]|[(e & _ & ->)|[(v & e & _ & ->)|(v & data & _ & ->)]]]
    %App_get_relevant_chunks_cases.
Qed.

Lemma RagQuery_retrieval_gen_calls (c : Clients) (q : string) out t :
  run (RagQuery.get_relevant_chunks c q) = (out, t) → gen_calls t = [].
Proof.
  by intros [[_ ->]|[(e & _ & ->)|[(v & e & _ & ->)|(v & data & _ & ->)]]]
    %RagQuery_get_relevant_chunks_cases.
Qed.

(** A turn of the loop of rag_query.py is its retrieval, followed by the
    answer function when the retrieval returned matches. *)
Lemma RagQuery_turn_split (c : Clients) (q : string) out t :
  run (RagQuery.turn c q) = (out, t) →
  ∃ o1 t1,
    run (RagQuery.get_relevant_chunks c q) = (o1, t1)
    ∧ match o1 with
      | Raise e => out = Raise e ∧ t = t1
      | Return [] => t = t1
      | Return matches =>
          ∃ t2, run (RagQuery.generate_rag_answer c q matches) = (out, t2)
                ∧ t = t1 ++ t2
      end.
Proof.
  unfold RagQuery.turn, run, mbind, M_bind, bind.
  destruct (RagQuery.get_relevant_chunks c q []) as [[matches|e] t1].
  - destruct matches as [|m ms]; cbn [truthy_list negb].
    + intros [= <- <-]. by exists (Return []), t1.
    + rewrite RagQuery_generate_frame. intros [= <- <-].
      exists (Return (m :: ms)), t1. split; [done|].
      eexists. split; [apply surjective_pairing|done].
  - intros [= <- <-]. by exists (Raise e), t1.
Qed.

(** C2 (as amended): for the clients with which a query is processed,
    the answer function of app.py returns the text together with a mode
    label; the label is ["ERROR"] only when the generation call raised,
    whatever the matches, and then the text is the fixed message;
    otherwise it is ["RAG"] exactly for a non-empty list of matches and
    ["FALLBACK"] exactly for the empty list.  The answer function of
    rag_query.py returns the text alone: it makes one generation call,
    with the instruction that binds the answer to the context, and when
    the call raises the fixed message is its text.  The loop of
    rag_query.py calls it only with the rendering of a non-empty service
    answer.  Neither program makes a call unless the three clients
    exist. *)
Theorem generate_rag_answer_mode :
  mode_by_matches label_of_pair App.generate_rag_answer
  ∧ (∀ c q matches out t,
       AppScript.all_clients c = true →
       run (App.generate_rag_answer c q matches) = (out, t) →
       generation_failed t →
       out = Return ("Erro ao gerar resposta com o LLM.", "ERROR"))
  ∧ (∀ c q matches out t,
       AppScript.all_clients c = true →
       run (RagQuery.generate_rag_answer c q matches) = (out, t) →
       ∃ text,
         out = Return text
         ∧ label_of_str text = None
         ∧ length (gen_calls t) = 1%nat
         ∧ (∀ r, r ∈ gen_calls t → system_instruction r = RagQuery.nutrirag_instruction)
         ∧ (generation_failed t → text = "Erro ao gerar resposta com o LLM."))
  ∧ (∀ c q out t,
       run (RagQuery.turn c q) = (out, t) →
       gen_calls t ≠ [] →
       ∃ p data t2,
         EvRpc p (Return data) ∈ t
         ∧ data ≠ []
         ∧ run (RagQuery.generate_rag_answer c q (content_with_source <$> data))
           = (out, t2))
  ∧ (∀ s session prompt,
       (run (AppScript.script s session prompt)).2 ≠ [] →
       AppScript.all_clients (AppScript.initialize_resources s) = true)
  ∧ (∀ c inputs,
       (RagQueryMain.main c inputs).2 ≠ [] → AppScript.all_clients c = true).
Proof.
  split_and!.
  - intros c q matches out t Hc%all_clients_gemini Hrun.
    apply App_generate_rag_answer_cases in Hrun
      as [(? & _)|(llm & r & _ & -> & _ & _ & _ & ->)]; [done|].
    destruct (llm r) as [text|e] eqn:Hllm.
    + exists (text, if truthy_list matches then "RAG" else "FALLBACK"),
        (if truthy_list matches then "RAG" else "FALLBACK").
      split_and!; [done|done| |].
      * by destruct (truthy_list matches).
      * intros _. destruct matches; simpl; split; split; done.
    + exists ("Erro ao gerar resposta com o LLM.", "ERROR"), "ERROR".
      split_and!; [done|done| |done]. intros _. exists r, e. left.
  - intros c q matches out t Hc%all_clients_gemini Hrun (r0 & e0 & Hev).
    apply App_generate_rag_answer_cases in Hrun
      as [(? & _)|(llm & r & _ & -> & _ & _ & _ & ->)]; [done|].
    apply list_elem_of_singleton in Hev. injection Hev as -> Hres.
    by rewrite <- Hres.
  - intros c q matches out t Hc%all_clients_gemini Hrun.
    apply RagQuery_generate_rag_answer_cases in Hrun
      as [(? & _)|(llm & r & _ & -> & _ & _ & Hinstr & ->)]; [done|].
    eexists. split_and!; [done|done|done| |].
    + intros r' Hr. simpl in Hr. apply list_elem_of_singleton in Hr. by subst.
    + intros (r0 & e0 & Hev). apply list_elem_of_singleton in Hev.
      injection Hev as -> Hres. by rewrite <- Hres.
  - intros c q out t
      [(e & -> & ->)|[(-> & Hgen & _)|(v & data & t2 & Hne & Hans & ->)]]%RagQuery_turn_cases
      Hcalls; [done|done|].
    exists (mkMatchParams v 0.5 K_CHUNKS), data, t2.
    split_and!; [right; left|done|done].
  - intros s session prompt. unfold AppScript.script.
    by destruct (AppScript.all_clients (AppScript.initialize_resources s)).
  - intros c inputs. unfold RagQueryMain.main.
    by destruct (AppScript.all_clients c).
Qed.

Lemma generate_rag_answer_mode_witness :
  ∃ a mode,
    (run (App.generate_rag_answer Scenario.low_clients "q" [])).1 = Return a
    ∧ label_of_pair a = Some mode
    ∧ (mode = "ERROR"
       → generation_failed (run (App.generate_rag_answer Scenario.low_clients "q" [])).2)
    ∧ (mode ≠ "ERROR" →
         (mode = "RAG" ↔ ([] : list string) ≠ [])
         ∧ (mode = "FALLBACK" ↔ ([] : list string) = [])).
Proof.
  eapply (proj1 generate_rag_answer_mode Scenario.low_clients "q" []);
    [reflexivity|apply surjective_pairing].
Defined.

(** C2 (as stated) fails for rag_query.py: for a query whose retrieval
    returned the five rows of the service, the answer function returns
    the bare text of the LLM, and when the LLM fails the bare error
    message; no mode label comes with either. *)
Lemma RagQuery_answer_without_mode :
  (run (RagQuery.get_relevant_chunks Scenario.clients "q")).1
  = Return (content_with_source <$> Scenario.rows)
  ∧ (run (RagQuery.generate_rag_answer Scenario.clients "q"
            (content_with_source <$> Scenario.rows))).1
    = Return "resposta"
  ∧ (run (RagQuery.turn Scenario.clients "q")).1 = Return "resposta"
  ∧ (run (RagQuery.turn Scenario.llm_down_clients "q")).1
    = Return "Erro ao gerar resposta com o LLM."
  ∧ ¬ mode_by_matches label_of_str RagQuery.generate_rag_answer.
Proof.
  split_and!; [by vm_compute..|].
  intros H.
  destruct (H Scenario.clients "q" (content_with_source <$> Scenario.rows) _ _
              eq_refl (surjective_pairing _)) as (a & mode & _ & Hlabel & _).
  discriminate.
Qed.

(** C8: for every query, the generation call is made with temperature
    0.2 when the retrieval returned matches and with 0.4 when it returned
    none.  In app.py this holds for the answer function on every list of
    matches, and a call is made whenever the LLM client exists.  In
    rag_query.py the loop makes a generation call only for a non-empty
    list of matches, and then with 0.2. *)
Theorem generate_rag_answer_temperature :
  temperature_by_matches App.get_relevant_chunks App.respond
  ∧ temperature_by_matches RagQuery.get_relevant_chunks RagQuery.turn
  ∧ answer_temperature_by_matches App.generate_rag_answer
  ∧ (∀ c q,
       client_gemini c ≠ None →
       length (gen_calls (run (App.respond c q)).2) = 1%nat)
  ∧ (∀ c q out t,
       client_gemini c ≠ None →
       run (RagQuery.turn c q) = (out, t) →
       (∃ p data, EvRpc p (Return data) ∈ t ∧ data ≠ []) →
       length (gen_calls t) = 1%nat).
Proof.
  split_and!.
  - intros c q out t (chunks & t1 & t2 & Hret & Hgen & ->)%App_respond_cases r res Hev.
    exists chunks, t1. split; [done|].
    apply gen_event_elem in Hev. rewrite gen_calls_app in Hev.
    rewrite (App_retrieval_gen_calls _ _ _ _ Hret) in Hev. simpl in Hev.
    apply App_generate_rag_answer_cases in Hgen
      as [(_ & -> & _)|(llm & r' & _ & -> & _ & Htemp & _ & _)].
    { by apply elem_of_nil in Hev. }
    apply list_elem_of_singleton in Hev as ->.
    rewrite Htemp. destruct chunks; simpl; split; done.
  - intros c q out t (o1 & t1 & Hret & Hrest)%RagQuery_turn_split r res Hev.
    apply gen_event_elem in Hev.
    pose proof (RagQuery_retrieval_gen_calls _ _ _ _ Hret) as Hnone.
    destruct o1 as [[|m ms]|e].
    + subst t. rewrite Hnone in Hev. by apply elem_of_nil in Hev.
    + destruct Hrest as (t2 & Hgen & ->). exists (m :: ms), t1. split; [done|].
      rewrite gen_calls_app, Hnone in Hev. simpl in Hev.
      apply RagQuery_generate_rag_answer_cases in Hgen
        as [(_ & -> & _)|(llm & r' & _ & -> & _ & Htemp & _ & _)].
      { by apply elem_of_nil in Hev. }
      apply list_elem_of_singleton in Hev as ->. split; done.
    + destruct Hrest as [_ ->]. rewrite Hnone in Hev. by apply elem_of_nil in Hev.
  - intros c q matches out t Hrun r res Hev.
    apply App_generate_rag_answer_cases in Hrun
      as [(_ & -> & _)|(llm & r' & _ & -> & _ & Htemp & _ & _)].
    { by apply elem_of_nil in Hev. }
    apply list_elem_of_singleton in Hev. injection Hev as -> _.
    rewrite Htemp. destruct matches; simpl; split; done.
  - intros c q Hc.
    destruct (run (App.respond c q)) as [out t] eqn:Hrun.
    apply App_respond_cases in Hrun as (chunks & t1 & t2 & Hret & Hgen & ->).
    cbn [snd]. rewrite gen_calls_app, (App_retrieval_gen_calls _ _ _ _ Hret).
    apply App_generate_rag_answer_cases in Hgen
      as [(? & _)|(llm & r' & _ & -> & _)]; done.
  - intros c q out t Hc
      [(e & -> & ->)|[(-> & _ & _ & Hrows)|(v & data & t2 & Hne & Hans & ->)]]%RagQuery_turn_cases
      (p & d & Hev & Hd).
    + by apply list_elem_of_singleton in Hev.
    + by destruct Hd; apply (Hrows p).
    + apply RagQuery_generate_rag_answer_cases in Hans
        as [(? & _)|(llm & r' & _ & -> & _)]; done.
Qed.

Lemma generate_rag_answer_temperature_witness :
  (∃ r res matches t1,
     EvGenerate r res ∈ (run (App.respond Scenario.low_clients "q")).2
     ∧ run (App.get_relevant_chunks Scenario.low_clients "q") = (Return matches, t1)
     ∧ (matches ≠ [] → temperature r = 0.2)
     ∧ (matches = [] → temperature r = 0.4))
  ∧ (∃ r res matches t1,
       EvGenerate r res ∈ (run (RagQuery.turn Scenario.clients "q")).2
       ∧ run (RagQuery.get_relevant_chunks Scenario.clients "q") = (Return matches, t1)
       ∧ (matches ≠ [] → temperature r = 0.2)
       ∧ (matches = [] → temperature r = 0.4)).
Proof.
  split.
  - destruct (last (run (App.respond Scenario.low_clients "q")).2) as [[| |r res]|] eqn:Hlast;
      try (by vm_compute in Hlast).
    apply last_Some_elem_of in Hlast.
    destruct (proj1 generate_rag_answer_temperature Scenario.low_clients "q" _ _
                (surjective_pairing _) r res Hlast) as (matches & t1 & Hrest).
    by exists r, res, matches, t1.
  - destruct (last (run (RagQuery.turn Scenario.clients "q")).2) as [[| |r res]|] eqn:Hlast;
      try (by vm_compute in Hlast).
    apply last_Some_elem_of in Hlast.
    destruct (proj1 (proj2 generate_rag_answer_temperature) Scenario.clients "q" _ _
                (surjective_pairing _) r res Hlast) as (matches & t1 & Hrest).
    by exists r, res, matches, t1.
Defined.

(** Called on its own with no match, the answer function of rag_query.py
    would make its call with 0.2; the loop never does so. *)
Example RagQuery_answer_on_empty_list :
  temperature <$> gen_calls (run (RagQuery.generate_rag_answer Scenario.clients "q" [])).2
  = [0.2]
  ∧ gen_calls (run (RagQuery.turn Scenario.down_clients "q")).2 = [].
Proof. split; by vm_compute. Qed.

End Programs.
